(** * A2A protocol subsystem: task manager, protocol server, protocol client
      and host agent

    A shallow embedding of
      - [chatbot/a2a/common/types.py]   (the protocol data model),
      - [chatbot/a2a/common/server.py]  ([InMemoryTaskManager], [A2AServer]),
      - [chatbot/a2a/common/client.py]  (the SSE consumer and the request
        path of [A2AClient]),
      - [chatbot/a2a/hosts/host_agent.py],
      - [chatbot/a2a/agents/base_agent.py] and
        [chatbot/a2a/agents/data_migration_agent.py] (the processing
        callback of an agent),
    followed by the properties of the specification that concern them and
    by further properties of the same code.

    Conventions.
      - A Python coroutine whose body contains no suspension point that
        matters for task state is run to completion: a manager operation is
        a function [Manager -> Manager * Result _].
      - A raised exception is a value of [Exc], an instance of [Exception];
        the state reached before the raise is kept as the first component.
        What is raised outside that class ([SystemExit],
        [KeyboardInterrupt], [asyncio.CancelledError]) ends the program or
        the coroutine, no handler of this code catches it, and it is not
        modelled.
      - [dict]s keyed by task id are [gmap string _]; the dictionary the
        host agent iterates over keeps its insertion order in an
        association list.
      - [asyncio.Queue] objects live in a store indexed by a queue number,
        because the manager keeps them in lists, removes them by identity
        and the subscriber keeps reading its own queue whatever happens to
        those lists.
      - The wall clock is a counter that every reading advances.
      - Tasks, artifacts and events are values.  A task is reached through
        [self.tasks] only, so an assignment to one of its attributes is an
        update of the stored task.  An event shares the part list of its
        artifact with the stored task, and [existing.parts.extend(...)]
        changes that list in place: an event is what its subscriber finds
        when it takes the event from the queue, which it does before the
        next call on the manager is made. *)

From Stdlib Require Import ZArith Ascii Bool Lia DecimalString.
From stdpp Require Import base option list gmap strings.

#[local] Open Scope Z_scope.
#[local] Open Scope nat_scope.

(** ** Python strings

    A [string] is the sequence of the characters of a Python [str] whose
    characters are in the ASCII range; [lower] and [strip] are Python's on
    that range. *)

Module Str.

(** [s.startswith(p)] *)
Definition startswith (p s : string) : bool := String.prefix p s.

(** [sub in s] *)
Fixpoint contains (sub s : string) : bool :=
  startswith sub s ||
  match s with
  | EmptyString => false
  | String _ s' => contains sub s'
  end.

(** [s[n:]] *)
Fixpoint drop (n : nat) (s : string) : string :=
  match n, s with
  | S n', String _ s' => drop n' s'
  | _, _ => s
  end.

(** One character of [s.lower()], on the ASCII range. *)
Definition lower_char (c : ascii) : ascii :=
  let n := nat_of_ascii c in
  if (65 <=? n) && (n <=? 90) then ascii_of_nat (n + 32) else c.

Fixpoint lower (s : string) : string :=
  match s with
  | EmptyString => EmptyString
  | String c s' => String (lower_char c) (lower s')
  end.

(** [sep.join(l)] *)
Fixpoint join (sep : string) (l : list string) : string :=
  match l with
  | [] => ""
  | [x] => x
  | x :: l' => x +:+ sep +:+ join sep l'
  end.

Definition nl : string := String "010"%char EmptyString.
Definition nlnl : string := nl +:+ nl.

(** The characters [str.strip()] removes, on the ASCII range. *)
Definition is_space (c : ascii) : bool :=
  let n := nat_of_ascii c in
  ((9 <=? n) && (n <=? 13)) || ((28 <=? n) && (n <=? 32)).

Fixpoint lstrip (s : string) : string :=
  match s with
  | String c s' => if is_space c then lstrip s' else s
  | EmptyString => EmptyString
  end.

Fixpoint rstrip (s : string) : string :=
  match s with
  | EmptyString => EmptyString
  | String c s' =>
      match rstrip s' with
      | EmptyString => if is_space c then EmptyString else String c EmptyString
      | r => String c r
      end
  end.

Definition strip (s : string) : string := rstrip (lstrip s).

(** [s.split(sep, 1)] for a separator of two characters [a b]: the text
    before the first occurrence and the text after it, or [None] when the
    separator does not occur. *)
Fixpoint split2_once (a b : ascii) (s : string) : option (string * string) :=
  match s with
  | EmptyString => None
  | String c s' =>
      match s' with
      | String d s'' =>
          if Ascii.eqb c a && Ascii.eqb d b then Some (EmptyString, s'')
          else
            match split2_once a b s' with
            | Some (pre, post) => Some (String c pre, post)
            | None => None
            end
      | EmptyString => None
      end
  end.

(** [s.split(c)] for a separator of one character. *)
Fixpoint split1 (a : ascii) (s : string) : list string :=
  match s with
  | EmptyString => [EmptyString]
  | String c s' =>
      if Ascii.eqb c a then EmptyString :: split1 a s'
      else
        match split1 a s' with
        | x :: l => String c x :: l
        | [] => [String c EmptyString]
        end
  end.

End Str.

(** ** Protocol data model ([types.py]) *)

(** A JSON value; also stands for the [Any] of the type annotations. *)
#[local] Unset Elimination Schemes.
Inductive json : Type :=
| JNull
| JBool (b : bool)
| JNum (z : Z)
| JStr (s : string)
| JArr (l : list json)
| JObj (fields : list (string * json)).
#[local] Set Elimination Schemes.

(** [Dict[str, Any]] *)
Abbreviation Dict := (list (string * json)).

Inductive TaskState : Type :=
| SUBMITTED | WORKING | INPUT_REQUIRED | COMPLETED | CANCELED | FAILED | UNKNOWN.

#[global] Instance TaskState_eq_dec : EqDecision TaskState.
Proof. solve_decision. Defined.

Record FileContent : Type := {
  fc_name : option string;
  fc_mimeType : option string;
  fc_bytes : option string;
  fc_uri : option string
}.

(** [Union[TextPart, FilePart, DataPart]]; every variant carries the
    inherited [metadata]. *)
Inductive Part : Type :=
| TextPart (text : string) (metadata : option Dict)
| FilePart (file : FileContent) (metadata : option Dict)
| DataPart (data : Dict) (metadata : option Dict).

Record Message : Type := {
  msg_role : string;
  msg_parts : list Part;
  msg_metadata : option Dict
}.

Record TaskStatus : Type := {
  st_state : TaskState;
  st_message : option Message;
  st_timestamp : nat
}.

Record Artifact : Type := {
  art_name : option string;
  art_description : option string;
  art_parts : list Part;
  art_index : Z;
  art_append : option bool;
  art_lastChunk : option bool;
  art_metadata : option Dict
}.

Record Task : Type := {
  task_id : string;
  task_sessionId : option string;
  task_status : TaskStatus;
  task_artifacts : option (list Artifact);
  task_history : option (list Message);
  task_metadata : option Dict
}.

Record PushNotificationConfig : Type := {
  pn_url : string;
  pn_token : option string;
  pn_authentication : option json
}.

Record TaskPushNotificationConfig : Type := {
  tpn_id : string;
  tpn_pushNotification : PushNotificationConfig
}.

Record TaskStatusUpdateEvent : Type := {
  sev_id : string;
  sev_status : TaskStatus;
  sev_final : bool;
  sev_metadata : option Dict
}.

Record TaskArtifactUpdateEvent : Type := {
  aev_id : string;
  aev_artifact : Artifact;
  aev_final : bool;
  aev_metadata : option Dict
}.

(** What a stream carries: [Union[TaskStatusUpdateEvent, TaskArtifactUpdateEvent]] *)
Inductive Event : Type :=
| StatusEvent (e : TaskStatusUpdateEvent)
| ArtifactEvent (e : TaskArtifactUpdateEvent).

(** [update.final] *)
Definition event_final (e : Event) : bool :=
  match e with
  | StatusEvent s => sev_final s
  | ArtifactEvent a => aev_final a
  end.

Record TaskIdParams : Type := { ip_id : string }.

Record TaskQueryParams : Type := {
  qp_id : string;
  qp_historyLength : option Z
}.

Record TaskSendParams : Type := {
  sp_id : string;
  sp_historyLength : option Z;
  sp_sessionId : option string;
  sp_message : Message;
  sp_pushNotification : option PushNotificationConfig;
  sp_metadata : option Dict
}.

(** ** Exceptions and results *)

Inductive Exc : Type :=
| ValueError (msg : string)
| NameError (msg : string)
| KeyError (key : string)
| TypeError (msg : string)
| A2AClientError (msg : string)
| OtherError (msg : string).

(** [str(e)] *)
Definition exc_str (e : Exc) : string :=
  match e with
  | ValueError s | NameError s | TypeError s | A2AClientError s
  | OtherError s => s
  | KeyError key => "'" +:+ key +:+ "'"
  end.

Inductive Result (A : Type) : Type :=
| Ok (a : A)
| Raise (e : Exc).
Arguments Ok {A} a.
Arguments Raise {A} e.

(** [state in [COMPLETED, CANCELED, FAILED]] *)
Definition is_final_state (s : TaskState) : bool :=
  match s with
  | COMPLETED | CANCELED | FAILED => true
  | _ => false
  end.

(** ** The in-memory task manager ([server.py], class [InMemoryTaskManager]) *)

Module Manager.

(** What awaiting the processing callback does.  The callbacks of this
    repository ([BaseAgent.process_task] and the [_process_message] of its
    subclasses) reach the manager only through [BaseAgent.add_artifact],
    that is [send_artifact_update]; they then return a task or raise an
    [Exception] [e], of which the manager uses [str(e)] only. *)
Inductive ProcOutcome : Type :=
| Returns (updated_task : Task)
| Raises (e_str : string).

Record Processing : Type := {
  proc_artifacts : list (string * Artifact * bool);
  proc_outcome : ProcOutcome
}.

Record InMemoryTaskManager : Type := {
  tasks : gmap string Task;
  push_notifications : gmap string PushNotificationConfig;
  task_processor : option (TaskSendParams -> Processing);
  supports_streaming : bool;
  supports_push_notifications : bool;
  task_streams : gmap string (list nat);
  (* the store of queue objects, the next free queue number, the clock *)
  queues : gmap nat (list Event);
  next_queue : nat;
  clock : nat
}.

(** [InMemoryTaskManager.__init__] *)
Definition init (task_processor : option (TaskSendParams -> Processing))
    (supports_streaming supports_push_notifications : bool)
  : InMemoryTaskManager :=
  {| tasks := ∅; push_notifications := ∅; task_processor := task_processor;
     supports_streaming := supports_streaming;
     supports_push_notifications := supports_push_notifications;
     task_streams := ∅; queues := ∅; next_queue := 0; clock := 0 |}.

Definition set_tasks (f : gmap string Task -> gmap string Task)
    (m : InMemoryTaskManager) : InMemoryTaskManager :=
  {| tasks := f (tasks m); push_notifications := push_notifications m;
     task_processor := task_processor m;
     supports_streaming := supports_streaming m;
     supports_push_notifications := supports_push_notifications m;
     task_streams := task_streams m; queues := queues m;
     next_queue := next_queue m; clock := clock m |}.

Definition set_push_notifications
    (f : gmap string PushNotificationConfig -> gmap string PushNotificationConfig)
    (m : InMemoryTaskManager) : InMemoryTaskManager :=
  {| tasks := tasks m; push_notifications := f (push_notifications m);
     task_processor := task_processor m;
     supports_streaming := supports_streaming m;
     supports_push_notifications := supports_push_notifications m;
     task_streams := task_streams m; queues := queues m;
     next_queue := next_queue m; clock := clock m |}.

Definition set_task_streams
    (f : gmap string (list nat) -> gmap string (list nat))
    (m : InMemoryTaskManager) : InMemoryTaskManager :=
  {| tasks := tasks m; push_notifications := push_notifications m;
     task_processor := task_processor m;
     supports_streaming := supports_streaming m;
     supports_push_notifications := supports_push_notifications m;
     task_streams := f (task_streams m); queues := queues m;
     next_queue := next_queue m; clock := clock m |}.

Definition set_queues (f : gmap nat (list Event) -> gmap nat (list Event))
    (m : InMemoryTaskManager) : InMemoryTaskManager :=
  {| tasks := tasks m; push_notifications := push_notifications m;
     task_processor := task_processor m;
     supports_streaming := supports_streaming m;
     supports_push_notifications := supports_push_notifications m;
     task_streams := task_streams m; queues := f (queues m);
     next_queue := next_queue m; clock := clock m |}.

(** [asyncio.Queue()] *)
Definition new_queue (m : InMemoryTaskManager) : nat * InMemoryTaskManager :=
  (next_queue m,
   {| tasks := tasks m; push_notifications := push_notifications m;
      task_processor := task_processor m;
      supports_streaming := supports_streaming m;
      supports_push_notifications := supports_push_notifications m;
      task_streams := task_streams m;
      queues := <[next_queue m := []]> (queues m);
      next_queue := S (next_queue m); clock := clock m |}).

(** [_get_iso_timestamp]: the reading, and the manager with the clock
    advanced *)
Definition tick (m : InMemoryTaskManager) : InMemoryTaskManager :=
  {| tasks := tasks m; push_notifications := push_notifications m;
     task_processor := task_processor m;
     supports_streaming := supports_streaming m;
     supports_push_notifications := supports_push_notifications m;
     task_streams := task_streams m; queues := queues m;
     next_queue := next_queue m; clock := S (clock m) |}.

Definition _get_iso_timestamp (m : InMemoryTaskManager)
  : nat * InMemoryTaskManager :=
  (clock m, tick m).

(** [queue.put_nowait(update)] on an unbounded queue *)
Definition put_nowait (update : Event) (m : InMemoryTaskManager) (q : nat)
  : InMemoryTaskManager :=
  set_queues (alter (λ items, items ++ [update]) q) m.

(** [for queue in qs: queue.put_nowait(update)] *)
Definition broadcast (update : Event) (qs : list nat) (m : InMemoryTaskManager)
  : InMemoryTaskManager :=
  foldl (put_nowait update) m qs.

(** [task.status = status], on the task object stored under [key] *)
Definition with_status (status : TaskStatus) (task : Task) : Task :=
  {| task_id := task_id task; task_sessionId := task_sessionId task;
     task_status := status; task_artifacts := task_artifacts task;
     task_history := task_history task; task_metadata := task_metadata task |}.

(** [task.artifacts = artifacts] *)
Definition with_artifacts (artifacts : list Artifact) (task : Task) : Task :=
  {| task_id := task_id task; task_sessionId := task_sessionId task;
     task_status := task_status task; task_artifacts := Some artifacts;
     task_history := task_history task; task_metadata := task_metadata task |}.

Definition status_event (task : Task) : TaskStatusUpdateEvent :=
  {| sev_id := task_id task; sev_status := task_status task;
     sev_final := is_final_state (st_state (task_status task));
     sev_metadata := None |}.

(** [_send_status_update] *)
Definition _send_status_update (task : Task) (m : InMemoryTaskManager)
  : InMemoryTaskManager :=
  match supports_streaming m, task_streams m !! task_id task with
  | true, Some qs => broadcast (StatusEvent (status_event task)) qs m
  | _, _ => m
  end.

(** [existing.parts.extend(artifact.parts)] *)
Definition extend_parts (existing artifact : Artifact) : Artifact :=
  {| art_name := art_name existing; art_description := art_description existing;
     art_parts := art_parts existing ++ art_parts artifact;
     art_index := art_index existing; art_append := art_append existing;
     art_lastChunk := art_lastChunk existing;
     art_metadata := art_metadata existing |}.

(** The [for i, existing in enumerate(existing_artifacts)] loop of
    [send_artifact_update]: the list after the loop, and [updated]. *)
Fixpoint merge_loop (existing_artifacts : list Artifact) (artifact : Artifact)
  : list Artifact * bool :=
  match existing_artifacts with
  | [] => ([], false)
  | existing :: rest =>
      if (art_index existing =? art_index artifact)%Z then
        match art_append artifact with
        | Some true => (extend_parts existing artifact :: rest, true)
        | _ => (artifact :: rest, true)
        end
      else
        let '(rest', updated) := merge_loop rest artifact in
        (existing :: rest', updated)
  end.

Definition merge_artifact (existing_artifacts : list Artifact)
    (artifact : Artifact) : list Artifact :=
  let '(l, updated) := merge_loop existing_artifacts artifact in
  if updated then l else l ++ [artifact].

(** [send_artifact_update] *)
Definition send_artifact_update (task_id : string) (artifact : Artifact)
    (final : bool) (m : InMemoryTaskManager) : InMemoryTaskManager :=
  match supports_streaming m, task_streams m !! task_id with
  | true, Some qs =>
      match tasks m !! task_id with
      | None => m
      | Some task =>
          let existing_artifacts := default [] (task_artifacts task) in
          let task' := with_artifacts (merge_artifact existing_artifacts artifact) task in
          let update :=
            ArtifactEvent {| aev_id := task_id; aev_artifact := artifact;
                             aev_final := final; aev_metadata := None |} in
          broadcast update qs (set_tasks <[task_id := task']> m)
      end
  | _, _ => m
  end.

(** The calls of [add_artifact] a processing callback makes, in order. *)
Definition run_proc_artifacts (l : list (string * Artifact * bool))
    (m : InMemoryTaskManager) : InMemoryTaskManager :=
  foldl (λ m c, send_artifact_update c.1.1 c.1.2 c.2 m) m l.

(** [return self.tasks[task_id]] *)
Definition return_stored (task_id : string) (m : InMemoryTaskManager)
  : InMemoryTaskManager * Result Task :=
  match tasks m !! task_id with
  | Some task => (m, Ok task)
  | None => (m, Raise (KeyError task_id))
  end.

(** [task.status = status] followed by [self._send_status_update(task)],
    where [task] is the object stored under [key]: the assignment changes
    the stored task. *)
Definition set_status (key : string) (status : TaskStatus)
    (m : InMemoryTaskManager) : InMemoryTaskManager :=
  match tasks m !! key with
  | Some task =>
      let task := with_status status task in
      _send_status_update task (set_tasks <[key := task]> m)
  | None => m
  end.

(** The first part of [create_task]: the task stored in the state
    SUBMITTED, its subscriber list, its push notification configuration. *)
Definition submit (params : TaskSendParams) (m : InMemoryTaskManager)
  : InMemoryTaskManager :=
  let task_id := sp_id params in
  let '(now, m) := _get_iso_timestamp m in
  let task :=
    {| task_id := task_id; task_sessionId := sp_sessionId params;
       task_status := {| st_state := SUBMITTED;
                         st_message := Some (sp_message params);
                         st_timestamp := now |};
       task_artifacts := Some [];
       task_history := None;
       task_metadata := Some (default [] (sp_metadata params)) |} in
  let m := set_tasks <[task_id := task]> m in
  let m := if supports_streaming m
           then set_task_streams <[task_id := []]> m else m in
  match sp_pushNotification params with
  | Some config =>
      if supports_push_notifications m
      then set_push_notifications <[task_id := config]> m else m
  | None => m
  end.

(** [create_task] *)
Definition create_task (params : TaskSendParams) (m : InMemoryTaskManager)
  : InMemoryTaskManager * Result Task :=
  let task_id := sp_id params in
  let m := submit params m in
  match task_processor m with
  | None => return_stored task_id m
  | Some processor =>
      let '(now, m) := _get_iso_timestamp m in
      let m := set_status task_id {| st_state := WORKING; st_message := None;
                                     st_timestamp := now |} m in
      let processing := processor params in
      let m := run_proc_artifacts (proc_artifacts processing) m in
      match proc_outcome processing with
      | Returns updated_task =>
          let m := set_tasks <[task_id := updated_task]> m in
          let m := _send_status_update updated_task m in
          return_stored task_id m
      | Raises e_str =>
          let error_message :=
            {| msg_role := "agent";
               msg_parts := [TextPart ("Task processing failed: " +:+ e_str) None];
               msg_metadata := None |} in
          let '(now, m) := _get_iso_timestamp m in
          let m := set_status task_id {| st_state := FAILED;
                                         st_message := Some error_message;
                                         st_timestamp := now |} m in
          return_stored task_id m
      end
  end.

(** [get_task] *)
Definition get_task (task_id : string) (history_length : option Z)
    (m : InMemoryTaskManager) : InMemoryTaskManager * Result Task :=
  match tasks m !! task_id with
  | None => (m, Raise (ValueError ("Task not found: " +:+ task_id)))
  | Some task => (m, Ok task)
  end.

(** The status [cancel_task] gives a task. *)
Definition canceled (now : nat) : TaskStatus :=
  {| st_state := CANCELED;
     st_message :=
       Some {| msg_role := "agent";
               msg_parts := [TextPart "Task was canceled" None];
               msg_metadata := None |};
     st_timestamp := now |}.

(** [cancel_task] *)
Definition cancel_task (task_id : string) (m : InMemoryTaskManager)
  : InMemoryTaskManager * Result Task :=
  match tasks m !! task_id with
  | None => (m, Raise (ValueError ("Task not found: " +:+ task_id)))
  | Some task =>
      if is_final_state (st_state (task_status task)) then
        (m, Raise (ValueError
                     "Task is already in a final state and cannot be canceled"))
      else
        let '(now, m) := _get_iso_timestamp m in
        let task := with_status (canceled now) task in
        let m := set_tasks <[task_id := task]> m in
        let m := _send_status_update task m in
        (m, Ok task)
  end.

(** [set_push_notification] *)
Definition set_push_notification (task_id : string)
    (config : PushNotificationConfig) (m : InMemoryTaskManager)
  : InMemoryTaskManager * Result TaskPushNotificationConfig :=
  if negb (supports_push_notifications m) then
    (m, Raise (ValueError "Push notifications are not supported"))
  else
    match tasks m !! task_id with
    | None => (m, Raise (ValueError ("Task not found: " +:+ task_id)))
    | Some _ =>
        (set_push_notifications <[task_id := config]> m,
         Ok {| tpn_id := task_id; tpn_pushNotification := config |})
    end.

(** [get_push_notification] *)
Definition get_push_notification (task_id : string) (m : InMemoryTaskManager)
  : InMemoryTaskManager * Result TaskPushNotificationConfig :=
  if negb (supports_push_notifications m) then
    (m, Raise (ValueError "Push notifications are not supported"))
  else
    match tasks m !! task_id with
    | None => (m, Raise (ValueError ("Task not found: " +:+ task_id)))
    | Some _ =>
        match push_notifications m !! task_id with
        | None =>
            (m, Raise (ValueError
                         ("No push notification configuration for task: "
                            +:+ task_id)))
        | Some config =>
            (m, Ok {| tpn_id := task_id; tpn_pushNotification := config |})
        end
    end.

(** *** Subscriptions ([get_task_stream]) *)

(** A call made on the manager by another coroutine while a subscriber is
    suspended. *)
Inductive Call : Type :=
| CreateTask (params : TaskSendParams)
| GetTask (task_id : string) (history_length : option Z)
| CancelTask (task_id : string)
| SetPushNotification (task_id : string) (config : PushNotificationConfig)
| GetPushNotification (task_id : string)
| SendArtifactUpdate (task_id : string) (artifact : Artifact) (final : bool).

Definition run (c : Call) (m : InMemoryTaskManager) : InMemoryTaskManager :=
  match c with
  | CreateTask params => (create_task params m).1
  | GetTask task_id history_length => (get_task task_id history_length m).1
  | CancelTask task_id => (cancel_task task_id m).1
  | SetPushNotification task_id config =>
      (set_push_notification task_id config m).1
  | GetPushNotification task_id => (get_push_notification task_id m).1
  | SendArtifactUpdate task_id artifact final =>
      send_artifact_update task_id artifact final m
  end.

(** The timeout of [asyncio.wait_for(queue.get(), timeout=300)], in seconds. *)
Definition IDLE_TIMEOUT : nat := 300.

(** [l.remove(x)]: the list without the first occurrence of [x], or [None]
    where Python raises [ValueError] because [x] is not in the list. *)
Fixpoint list_remove (x : nat) (l : list nat) : option (list nat) :=
  match l with
  | [] => None
  | y :: l' =>
      if decide (x = y) then Some l' else (y ::.) <$> list_remove x l'
  end.

(** The [finally] block: [if task_id in self.task_streams:
    self.task_streams[task_id].remove(queue)].  [list.remove] raises
    [ValueError] when the element is not in the list. *)
Definition unsubscribe (task_id : string) (queue : nat)
    (m : InMemoryTaskManager) : InMemoryTaskManager * Result unit :=
  match task_streams m !! task_id with
  | None => (m, Ok tt)
  | Some qs =>
      match list_remove queue qs with
      | Some qs' => (set_task_streams <[task_id := qs']> m, Ok tt)
      | None => (m, Raise (ValueError "list.remove(x): x not in list"))
      end
  end.

(** The iterations of the [while True] loop that find an item in the queue:
    the items yielded, the items left in the queue, and whether the loop was
    left through [if update.final: break]. *)
Fixpoint until_final (items : list Event) : list Event * list Event * bool :=
  match items with
  | [] => ([], [], false)
  | update :: items' =>
      if event_final update then ([update], items', true)
      else
        let '(yielded, remaining, final) := until_final items' in
        (update :: yielded, remaining, final)
  end.

(** The [while True] loop against what the other coroutines do meanwhile.
    An entry [(gap, c)] of the script is the call [c], made [gap] seconds
    after the previous entry (after the subscription, for the first one);
    [idle] is the time the pending [queue.get()] has been waiting.  The wait
    raises [TimeoutError] once it has lasted [IDLE_TIMEOUT] seconds, which
    also happens when the script is over and nothing is published any more.
    The result is the manager, the events yielded, and how the generator
    ended. *)
Fixpoint listen (task_id : string) (queue : nat) (idle : nat)
    (script : list (nat * Call)) (m : InMemoryTaskManager)
  : InMemoryTaskManager * list Event * Result unit :=
  match script with
  | [] => let '(m, r) := unsubscribe task_id queue m in (m, [], r)
  | (gap, c) :: script' =>
      if IDLE_TIMEOUT <=? idle + gap then
        let '(m, r) := unsubscribe task_id queue m in (m, [], r)
      else
        let m := run c m in
        let '(yielded, remaining, final) :=
          until_final (default [] (queues m !! queue)) in
        let m := set_queues <[queue := remaining]> m in
        if final then
          let '(m, r) := unsubscribe task_id queue m in (m, yielded, r)
        else
          let idle' := match yielded with [] => idle + gap | _ => 0 end in
          let '(m, later, r) := listen task_id queue idle' script' m in
          (m, yielded ++ later, r)
  end.

(** The registration part of [get_task_stream]: [queue = asyncio.Queue()],
    then [self.task_streams[task_id].append(queue)] on the list found or
    created under [task_id]. *)
Definition subscribed (task_id : string) (m : InMemoryTaskManager)
  : InMemoryTaskManager :=
  set_task_streams
    (λ streams,
       <[task_id := default [] (streams !! task_id) ++ [next_queue m]]> streams)
    (new_queue m).2.

Definition artifact_replay (task : Task) : list Event :=
  (λ artifact,
     ArtifactEvent {| aev_id := task_id task; aev_artifact := artifact;
                      aev_final := false; aev_metadata := None |})
    <$> default [] (task_artifacts task).

(** [get_task_stream], consumed to its end.  The subscription, the initial
    status event and the replay of the stored artifacts run without another
    coroutine touching the manager; [script] is what happens afterwards. *)
Definition get_task_stream (task_id : string) (history_length : option Z)
    (script : list (nat * Call)) (m : InMemoryTaskManager)
  : InMemoryTaskManager * list Event * Result unit :=
  if negb (supports_streaming m) then
    (m, [], Raise (ValueError "Streaming is not supported"))
  else
    match tasks m !! task_id with
    | None => (m, [], Raise (ValueError ("Task not found: " +:+ task_id)))
    | Some task =>
        let queue := next_queue m in
        let m := subscribed task_id m in
        let initial_update := status_event task in
        let head := StatusEvent initial_update :: artifact_replay task in
        if sev_final initial_update then
          let '(m, r) := unsubscribe task_id queue m in (m, head, r)
        else
          let '(m, later, r) := listen task_id queue 0 script m in
          (m, head ++ later, r)
    end.

(** *** Vocabulary of the properties *)

(** The queues a publication for [task_id] is put on. *)
Definition subscribers (task_id : string) (m : InMemoryTaskManager) : list nat :=
  if supports_streaming m then default [] (task_streams m !! task_id) else [].

(** The test both publishing primitives start with, negated: streaming is
    supported and [task_id] has a subscriber list. *)
Definition subscribers_known (task_id : string) (m : InMemoryTaskManager) : bool :=
  supports_streaming m && bool_decide (is_Some (task_streams m !! task_id)).

(** What every manager built by [init] and used through its operations
    satisfies, as long as the processing callback answers with a task that
    carries the id it was given (as [BaseAgent.process_task] does): a task
    is stored under its own id, a subscriber list holds a queue once, and
    the queues in the lists were made by [new_queue]. *)
Record wf (m : InMemoryTaskManager) : Prop := {
  wf_keyed : ∀ key task, tasks m !! key = Some task → task_id task = key;
  wf_nodup : ∀ key qs, task_streams m !! key = Some qs → NoDup qs;
  wf_made : ∀ key qs q,
    task_streams m !! key = Some qs → q ∈ qs → q < next_queue m;
  wf_processor : ∀ processor params updated_task,
    task_processor m = Some processor →
    proc_outcome (processor params) = Returns updated_task →
    task_id updated_task = sp_id params
}.

(** The call is [create_task] with the id [key]. *)
Definition recreates (key : string) (c : Call) : bool :=
  match c with
  | CreateTask params => bool_decide (sp_id params = key)
  | _ => false
  end.

(** The call can reach [send_artifact_update]: it is one, or it runs the
    processing callback. *)
Definition may_store_artifacts (c : Call) : bool :=
  match c with
  | CreateTask _ | SendArtifactUpdate _ _ _ => true
  | _ => false
  end.






(** Everything in a manager but the queues, and everything but the tasks
    and the queues. *)
Definition frame (m : InMemoryTaskManager) :=
  (tasks m, push_notifications m, task_processor m, supports_streaming m,
   supports_push_notifications m, task_streams m, next_queue m, clock m).

Definition config (m : InMemoryTaskManager) :=
  (push_notifications m, task_processor m, supports_streaming m,
   supports_push_notifications m, task_streams m, next_queue m, clock m).

(** Two tasks that differ in their artifacts at most. *)
Definition same_but_artifacts (t t' : Task) : Prop :=
  task_id t' = task_id t ∧ task_sessionId t' = task_sessionId t
  ∧ task_status t' = task_status t ∧ task_history t' = task_history t
  ∧ task_metadata t' = task_metadata t.


(** The indices of the artifacts a task stores. *)
Definition artifact_indices (task : Task) : list Z :=
  art_index <$> default [] (task_artifacts task).

(** An operation on the manager: one of its calls, or a subscription
    consumed to its end. *)
Inductive Op : Type :=
| Do (c : Call)
| Subscribe (task_id : string) (history_length : option Z)
    (script : list (nat * Call)).

Definition exec (op : Op) (m : InMemoryTaskManager) : InMemoryTaskManager :=
  match op with
  | Do c => run c m
  | Subscribe task_id history_length script =>
      (get_task_stream task_id history_length script m).1.1
  end.


(** The task [create_task] stores first. *)
Definition submitted (params : TaskSendParams) (now : nat) : Task :=
  {| task_id := sp_id params; task_sessionId := sp_sessionId params;
     task_status := {| st_state := SUBMITTED;
                       st_message := Some (sp_message params);
                       st_timestamp := now |};
     task_artifacts := Some [];
     task_history := None;
     task_metadata := Some (default [] (sp_metadata params)) |}.

End Manager.

(** ** The protocol server ([server.py], class [A2AServer]) *)

Module Server.
Import Manager.

Module ErrorCode.
Definition PARSE_ERROR : Z := (-32700)%Z.
Definition INVALID_REQUEST : Z := (-32600)%Z.
Definition METHOD_NOT_FOUND : Z := (-32601)%Z.
Definition INVALID_PARAMS : Z := (-32602)%Z.
Definition INTERNAL_ERROR : Z := (-32603)%Z.
Definition TASK_NOT_FOUND : Z := (-32001)%Z.
Definition TASK_NOT_CANCELABLE : Z := (-32002)%Z.
Definition PUSH_NOTIFICATION_NOT_SUPPORTED : Z := (-32003)%Z.
Definition UNSUPPORTED_OPERATION : Z := (-32004)%Z.
Definition CONTENT_TYPE_NOT_SUPPORTED : Z := (-32005)%Z.
End ErrorCode.

(** What the server takes from pydantic and from string formatting: the
    validating constructors of the parameter models applied to the unpacked
    [params], which raise on a value that does not fit the model, and the
    formatting of a JSON value inside an f-string. *)
Record Library : Type := {
  parse_TaskSendParams : json -> Result TaskSendParams;
  parse_TaskQueryParams : json -> Result TaskQueryParams;
  parse_TaskIdParams : json -> Result TaskIdParams;
  parse_TaskPushNotificationConfig : json -> Result TaskPushNotificationConfig;
  py_format : json -> string
}.

(** [d.get(key)] and [key in d] on the dictionary of a JSON object *)
Fixpoint dict_get (key : string) (d : Dict) : option json :=
  match d with
  | [] => None
  | (k, v) :: d' => if String.eqb k key then Some v else dict_get key d'
  end.

Definition has_key (key : string) (d : Dict) : bool :=
  match dict_get key d with Some _ => true | None => false end.

(** [value == name] for a value read from JSON and a string literal *)
Definition is_str (value : option json) (name : string) : bool :=
  match value with
  | Some (JStr s) => String.eqb s name
  | _ => false
  end.

(** [type(value).__name__] *)
Definition py_type_name (value : json) : string :=
  match value with
  | JNull => "NoneType"
  | JBool _ => "bool"
  | JNum _ => "int"
  | JStr _ => "str"
  | JArr _ => "list"
  | JObj _ => "dict"
  end.

(** The two parts of a Starlette request the handler reads:
    [await request.json()] ([None] when it raises [JSONDecodeError]) and
    [request.headers.get("accept")]. *)
Record Request : Type := {
  req_json : option json;
  req_accept : option string
}.

(** The lazily started body of a [StreamingResponse]. *)
Inductive SseSource : Type :=
| SendSubscribeStream (send_params : TaskSendParams)
| ResubscribeStream (query_params : TaskQueryParams).

Inductive Response : Type :=
| JSONResponse (content : json)
| StreamingResponse (source : SseSource).

Definition json_of_id (request_id : option json) : json := default JNull request_id.

(** [_error_response] *)
Definition _error_response (request_id : option json) (code : Z)
    (message : string) : Response :=
  JSONResponse
    (JObj [("jsonrpc", JStr "2.0");
           ("error", JObj [("code", JNum code); ("message", JStr message);
                           ("data", JNull)]);
           ("id", json_of_id request_id)]).

(** [_success_response].  Its first statement tests
    [isinstance(result, BaseModel)], and [server.py] binds no name
    [BaseModel]: the import from [.types] at the top of the module lists the
    model classes only.  Evaluating the test raises [NameError]. *)
Definition _success_response {A : Type} (request_id : option json) (result : A)
  : Result Response :=
  Raise (NameError "name 'BaseModel' is not defined").

(** [except Exception as e: raise ValueError(f"Invalid params: {str(e)}")] *)
Definition invalid_params {A : Type} (r : Result A) : Result A :=
  match r with
  | Ok a => Ok a
  | Raise e => Raise (ValueError ("Invalid params: " +:+ exc_str e))
  end.

Section Handlers.
Context (lib : Library).

Definition _handle_send_task (params : json) (m : InMemoryTaskManager)
  : InMemoryTaskManager * Result Task :=
  match parse_TaskSendParams lib params with
  | Raise e => (m, invalid_params (Raise e))
  | Ok send_params =>
      let '(m, r) := create_task send_params m in (m, invalid_params r)
  end.

Definition _handle_get_task (params : json) (m : InMemoryTaskManager)
  : InMemoryTaskManager * Result Task :=
  match parse_TaskQueryParams lib params with
  | Raise e => (m, invalid_params (Raise e))
  | Ok query_params =>
      let '(m, r) :=
        get_task (qp_id query_params) (qp_historyLength query_params) m in
      (m, invalid_params r)
  end.

Definition _handle_cancel_task (params : json) (m : InMemoryTaskManager)
  : InMemoryTaskManager * Result Task :=
  match parse_TaskIdParams lib params with
  | Raise e => (m, invalid_params (Raise e))
  | Ok id_params =>
      let '(m, r) := cancel_task (ip_id id_params) m in (m, invalid_params r)
  end.

Definition _handle_set_push_notification (params : json)
    (m : InMemoryTaskManager)
  : InMemoryTaskManager * Result TaskPushNotificationConfig :=
  match parse_TaskPushNotificationConfig lib params with
  | Raise e => (m, invalid_params (Raise e))
  | Ok config_params =>
      let '(m, r) :=
        set_push_notification (tpn_id config_params)
          (tpn_pushNotification config_params) m in
      (m, invalid_params r)
  end.

Definition _handle_get_push_notification (params : json)
    (m : InMemoryTaskManager)
  : InMemoryTaskManager * Result TaskPushNotificationConfig :=
  match parse_TaskIdParams lib params with
  | Raise e => (m, invalid_params (Raise e))
  | Ok id_params =>
      let '(m, r) := get_push_notification (ip_id id_params) m in
      (m, invalid_params r)
  end.

(** [_handle_send_subscribe] and [_handle_resubscribe]: the parameters are
    validated at once, the stream body runs when the response is sent. *)
Definition _handle_send_subscribe (request_id : option json) (params : json)
  : Result Response :=
  match parse_TaskSendParams lib params with
  | Raise e => invalid_params (Raise e)
  | Ok send_params => Ok (StreamingResponse (SendSubscribeStream send_params))
  end.

Definition _handle_resubscribe (request_id : option json) (params : json)
  : Result Response :=
  match parse_TaskQueryParams lib params with
  | Raise e => invalid_params (Raise e)
  | Ok query_params => Ok (StreamingResponse (ResubscribeStream query_params))
  end.

(** The [except ValueError] clause of [handle_jsonrpc]: the code the text
    of the error is mapped to. *)
Definition error_code_of_message (error_message : string) : Z :=
  if Str.contains "Task not found" error_message then
    ErrorCode.TASK_NOT_FOUND
  else if Str.contains "Task is already in a final state" error_message then
    ErrorCode.TASK_NOT_CANCELABLE
  else if Str.contains "Push notifications are not supported" error_message then
    ErrorCode.PUSH_NOTIFICATION_NOT_SUPPORTED
  else if Str.contains "Streaming is not supported" error_message then
    ErrorCode.UNSUPPORTED_OPERATION
  else ErrorCode.INVALID_PARAMS.

(** The outer [except Exception] clause; [getattr(request, "id", None)] is
    [None], a Starlette request has no such attribute. *)
Definition internal_error (e : Exc) : Response :=
  _error_response None ErrorCode.INTERNAL_ERROR
    ("Internal error: " +:+ exc_str e).

(** What follows a handler inside the inner [try]:
    [return self._success_response(request_id, result)], the
    [except ValueError] clause, and the outer clause for anything else. *)
Definition respond {A : Type} (request_id : option json) (r : Result A)
  : Response :=
  match r with
  | Ok result =>
      match _success_response request_id result with
      | Ok response => response
      | Raise (ValueError error_message) =>
          _error_response request_id (error_code_of_message error_message)
            error_message
      | Raise e => internal_error e
      end
  | Raise (ValueError error_message) =>
      _error_response request_id (error_code_of_message error_message)
        error_message
  | Raise e => internal_error e
  end.

(** The same for the two streaming handlers, which return the response
    themselves. *)
Definition respond_stream (request_id : option json) (r : Result Response)
  : Response :=
  match r with
  | Ok response => response
  | Raise (ValueError error_message) =>
      _error_response request_id (error_code_of_message error_message)
        error_message
  | Raise e => internal_error e
  end.

(** [handle_jsonrpc] *)
Definition handle_jsonrpc (request : Request) (m : InMemoryTaskManager)
  : InMemoryTaskManager * Response :=
  match req_json request with
  | None => (m, _error_response None ErrorCode.PARSE_ERROR "Invalid JSON")
  | Some (JObj data) =>
      if negb (is_str (dict_get "jsonrpc" data) "2.0")
         || negb (has_key "method" data)
      then
        (m, _error_response (dict_get "id" data) ErrorCode.INVALID_REQUEST
              "Invalid JSON-RPC request")
      else
        let method := dict_get "method" data in
        let params := default (JObj []) (dict_get "params" data) in
        let request_id := dict_get "id" data in
        let is_streaming :=
          is_str method "tasks/sendSubscribe"
          || is_str method "tasks/resubscribe" in
        if is_streaming
           && negb (bool_decide (req_accept request = Some "text/event-stream"))
        then
          (m, _error_response request_id ErrorCode.CONTENT_TYPE_NOT_SUPPORTED
                "Streaming requests require Accept: text/event-stream header")
        else if is_str method "tasks/send" then
          let '(m, r) := _handle_send_task params m in
          (m, respond request_id r)
        else if is_str method "tasks/get" then
          let '(m, r) := _handle_get_task params m in
          (m, respond request_id r)
        else if is_str method "tasks/cancel" then
          let '(m, r) := _handle_cancel_task params m in
          (m, respond request_id r)
        else if is_str method "tasks/pushNotification/set" then
          let '(m, r) := _handle_set_push_notification params m in
          (m, respond request_id r)
        else if is_str method "tasks/pushNotification/get" then
          let '(m, r) := _handle_get_push_notification params m in
          (m, respond request_id r)
        else if is_str method "tasks/sendSubscribe" then
          (m, respond_stream request_id
                (_handle_send_subscribe request_id params))
        else if is_str method "tasks/resubscribe" then
          (m, respond_stream request_id (_handle_resubscribe request_id params))
        else
          (m, _error_response request_id ErrorCode.METHOD_NOT_FOUND
                ("Method not found: "
                   +:+ py_format lib (default JNull method)))
  | Some data =>
      (* [not isinstance(data, dict)] holds, and [data.get("id")] raises
         [AttributeError] *)
      (m, internal_error
            (OtherError ("'" +:+ py_type_name data
                           +:+ "' object has no attribute 'get'")))
  end.

End Handlers.

(** [request] is a JSON-RPC 2.0 request for [method] whose parameters
    (the empty dictionary when it has none) are [params]. *)
Definition calls (request : Request) (method : string) (params : json) : Prop :=
  ∃ data,
    req_json request = Some (JObj data)
    ∧ dict_get "jsonrpc" data = Some (JStr "2.0")
    ∧ dict_get "method" data = Some (JStr method)
    ∧ default (JObj []) (dict_get "params" data) = params.

(** The text contains none of the four phrases [handle_jsonrpc] looks
    for in the message of a [ValueError]. *)
Definition no_known_phrase (text : string) : Prop :=
  Str.contains "Task not found" text = false
  ∧ Str.contains "Task is already in a final state" text = false
  ∧ Str.contains "Push notifications are not supported" text = false
  ∧ Str.contains "Streaming is not supported" text = false.

(** The [code] of a JSON-RPC error response, if the response is one. *)
Definition response_error_code (r : Response) : option Z :=
  match r with
  | JSONResponse (JObj content) =>
      match dict_get "error" content with
      | Some (JObj error) =>
          match dict_get "code" error with
          | Some (JNum code) => Some code
          | _ => None
          end
      | _ => None
      end
  | _ => None
  end.

(** The error object of the last frame a stream body sends when something
    raised inside it. *)
Definition error_event (e : Exc) : json :=
  JObj [("error",
         JObj [("code", JNum ErrorCode.INTERNAL_ERROR);
               ("message", JStr ("Streaming error: " +:+ exc_str e))])].

(** A frame of the response: [EventFrame e] stands for the text "data: "
    followed by the JSON text of [e.dict(exclude_none=True)] and a blank
    line, [ErrorFrame payload] for the same around the JSON text of
    [payload]. *)
Inductive Frame : Type :=
| EventFrame (e : Event)
| ErrorFrame (payload : json).

(** The frames of a finished subscription. *)
Definition frames_of (events : list Event) (r : Result unit) : list Frame :=
  (EventFrame <$> events)
  ++ match r with Ok _ => [] | Raise e => [ErrorFrame (error_event e)] end.

(** The two [sse_stream] bodies, run to their end; [script] is what the
    other coroutines do while the subscription listens. *)
Definition sse_stream (source : SseSource) (script : list (nat * Call))
    (m : InMemoryTaskManager) : InMemoryTaskManager * list Frame :=
  match source with
  | SendSubscribeStream send_params =>
      let '(m, r) := create_task send_params m in
      match r with
      | Raise e => (m, [ErrorFrame (error_event e)])
      | Ok _ =>
          let '(m, events, r) :=
            get_task_stream (sp_id send_params)
              (sp_historyLength send_params) script m in
          (m, frames_of events r)
      end
  | ResubscribeStream query_params =>
      let '(m, events, r) :=
        get_task_stream (qp_id query_params)
          (qp_historyLength query_params) script m in
      (m, frames_of events r)
  end.

(** The seven methods [handle_jsonrpc] knows. *)
Definition known_methods : list string :=
  ["tasks/send"; "tasks/get"; "tasks/cancel"; "tasks/pushNotification/set";
   "tasks/pushNotification/get"; "tasks/sendSubscribe"; "tasks/resubscribe"].

(** The exception the validation of the parameters of [method] raises, if
    it raises one. *)
Definition validation_error (lib : Library) (method : string) (params : json)
  : option Exc :=
  let raised {A : Type} (r : Result A) :=
    match r with Ok _ => None | Raise e => Some e end in
  if decide (method = "tasks/send" ∨ method = "tasks/sendSubscribe") then
    raised (parse_TaskSendParams lib params)
  else if decide (method = "tasks/get" ∨ method = "tasks/resubscribe") then
    raised (parse_TaskQueryParams lib params)
  else if decide (method = "tasks/cancel"
                  ∨ method = "tasks/pushNotification/get") then
    raised (parse_TaskIdParams lib params)
  else if decide (method = "tasks/pushNotification/set") then
    raised (parse_TaskPushNotificationConfig lib params)
  else None.

End Server.

(** ** The protocol client ([client.py]): the consumer of an event stream

    [A2AClient.send_subscribe] and [A2AClient.resubscribe] read the response
    with the same statements; [stream_events] is that common part. *)

Module Client.
Import Server.

(** What the client takes from the [json] module and from pydantic:
    [json.loads] ([None] where it raises [JSONDecodeError]) and the
    validating constructors of the two event models, applied to the unpacked
    dictionary. *)
Record Library : Type := {
  json_loads : string -> option json;
  parse_TaskStatusUpdateEvent : Dict -> Result TaskStatusUpdateEvent;
  parse_TaskArtifactUpdateEvent : Dict -> Result TaskArtifactUpdateEvent
}.

Definition not_a_mapping (value : json) : Exc :=
  TypeError ("argument after ** must be a mapping, not " +:+ py_type_name value).

Definition not_iterable (value : json) : Exc :=
  TypeError ("argument of type '" +:+ py_type_name value +:+ "' is not iterable").

(** [key in event_json], for whatever [json.loads] returned: a key of a
    dictionary, an element of a list, a substring of a string; [TypeError]
    on the other values. *)
Definition py_in (key : string) (event_json : json) : Result bool :=
  match event_json with
  | JObj d => Ok (has_key key d)
  | JArr l => Ok (existsb (λ v, is_str (Some v) key) l)
  | JStr s => Ok (Str.contains key s)
  | _ => Raise (not_iterable event_json)
  end.

(** A JSON object with neither a "status" nor an "artifact" key. *)
Definition keyless (payload : json) : Prop :=
  ∃ fields,
    payload = JObj fields
    ∧ has_key "status" fields = false ∧ has_key "artifact" fields = false.

Section Consumer.
Context (lib : Library).

(** The [if "status" in event_json: ... elif "artifact" in event_json: ...]
    statement: the events it yields, or the exception it raises. *)
Definition dispatch (event_json : json) : Result (list Event) :=
  match py_in "status" event_json with
  | Raise e => Raise e
  | Ok true =>
      match event_json with
      | JObj d =>
          match parse_TaskStatusUpdateEvent lib d with
          | Ok e => Ok [StatusEvent e]
          | Raise e => Raise e
          end
      | _ => Raise (not_a_mapping event_json)
      end
  | Ok false =>
      match py_in "artifact" event_json with
      | Raise e => Raise e
      | Ok true =>
          match event_json with
          | JObj d =>
              match parse_TaskArtifactUpdateEvent lib d with
              | Ok e => Ok [ArtifactEvent e]
              | Raise e => Raise e
              end
          | _ => Raise (not_a_mapping event_json)
          end
      | Ok false => Ok []
      end
  end.

(** [event_data] after the [for line in event_lines] loop over
    [event.strip().split("\n")] *)
Definition event_data_of (event : string) : option string :=
  foldl (λ event_data line,
           if Str.startswith "data: " line then Some (Str.drop 6 line)
           else event_data)
    None (Str.split1 "010"%char (Str.strip event)).

(** One iteration of the [while] loop, after the split: what the frame
    [event] makes the generator yield, or the exception that leaves the
    loop.  A frame without data, with empty data or with data that is not
    JSON yields nothing. *)
Definition handle_frame (event : string) : Result (list Event) :=
  match event_data_of event with
  | None | Some EmptyString => Ok []
  | Some event_data =>
      match json_loads lib event_data with
      | None => Ok []
      | Some event_json => dispatch event_json
      end
  end.

(** [while "\n\n" in buffer]: the events yielded, the buffer left, the
    exception raised if any.  Every iteration shortens the buffer, so
    [fuel] = the length of the buffer is enough. *)
Fixpoint while_frames (fuel : nat) (buffer : string)
  : list Event * string * option Exc :=
  match fuel with
  | 0 => ([], buffer, None)
  | S fuel' =>
      match Str.split2_once "010"%char "010"%char buffer with
      | None => ([], buffer, None)
      | Some (event, buffer') =>
          match handle_frame event with
          | Raise e => ([], buffer', Some e)
          | Ok yielded =>
              let '(later, buffer'', r) := while_frames fuel' buffer' in
              (yielded ++ later, buffer'', r)
          end
      end
  end.

(** [async for chunk in response.aiter_text()], with the clause
    [except Exception as e] around it. *)
Fixpoint stream_events (chunks : list string) (buffer : string)
  : list Event * option Exc :=
  match chunks with
  | [] => ([], None)
  | chunk :: chunks' =>
      let buffer := buffer +:+ chunk in
      let '(yielded, buffer, r) := while_frames (String.length buffer) buffer in
      match r with
      | Some e =>
          (yielded,
           Some (A2AClientError ("Streaming request failed: " +:+ exc_str e)))
      | None =>
          let '(later, r) := stream_events chunks' buffer in
          (yielded ++ later, r)
      end
  end.

(** [send_subscribe] and [resubscribe] once the request is built:
    [streaming] is [agent_card.capabilities.streaming], [chunks] what the
    response delivers. *)
Definition send_subscribe (streaming : bool) (chunks : list string)
  : list Event * option Exc :=
  if negb streaming then
    ([], Some (A2AClientError "Agent does not support streaming"))
  else stream_events chunks "".

Definition resubscribe (streaming : bool) (chunks : list string)
  : list Event * option Exc :=
  if negb streaming then
    ([], Some (A2AClientError "Agent does not support streaming"))
  else stream_events chunks "".

End Consumer.

End Client.

(** ** The host agent ([host_agent.py], with [BaseAgent._extract_message_text]) *)

Module Host.

(** A connection to a remote agent, by what the remote answers: its card
    (of which the host reads the name), the outcome of [send_task] for a
    message text and a session id, and the outcome of each later [get_task],
    in the order of the calls. *)
Record RemoteAgentConnection : Type := {
  get_card : Result string;
  send_task : string -> option string -> Result Task;
  get_task : list (string -> Result Task)
}.

(** The two dictionaries of the host, in insertion order. *)
Record HostAgent : Type := {
  remote_agents : list (string * RemoteAgentConnection);
  agent_skills : list (string * list string)
}.

(** [d[key]] on a dictionary kept as an association list *)
Fixpoint lookup_url {A : Type} (url : string) (d : list (string * A))
  : option A :=
  match d with
  | [] => None
  | (k, v) :: d' => if String.eqb k url then Some v else lookup_url url d'
  end.

(** What the host does to a remote, as seen from outside. *)
Inductive Action : Type :=
| SendTask (url : string) (message : string) (session_id : option string)
| Sleep (milliseconds : nat)
| GetTask (url : string) (task_id : string).

(** [BaseAgent._extract_message_text] *)
Definition part_texts (parts : list Part) : list string :=
  omap (λ part, match part with TextPart text _ => Some text | _ => None end)
    parts.

Definition _extract_message_text (message : Message) : string :=
  Str.join " " (part_texts (msg_parts message)).

(** The first loop of [_extract_skill_info], over [agent_skills.items()];
    [lowered] is [message.lower()]. *)
Fixpoint first_skill_in (lowered : string) (url : string)
    (skill_ids : list string) : option (string * string) :=
  match skill_ids with
  | [] => None
  | skill_id :: rest =>
      if Str.contains skill_id lowered then Some (url, skill_id)
      else first_skill_in lowered url rest
  end.

Fixpoint exact_match (lowered : string) (skills : list (string * list string))
  : option (string * string) :=
  match skills with
  | [] => None
  | (url, skill_ids) :: rest =>
      match first_skill_in lowered url skill_ids with
      | Some found => Some found
      | None => exact_match lowered rest
      end
  end.

(** [for url, skill_ids in ...: if any(word in skill_id for ...): return url] *)
Fixpoint first_agent_with (word : string) (skills : list (string * list string))
  : option string :=
  match skills with
  | [] => None
  | (url, skill_ids) :: rest =>
      if existsb (Str.contains word) skill_ids then Some url
      else first_agent_with word rest
  end.

(** [_extract_skill_info] *)
Definition _extract_skill_info (host : HostAgent) (message : string)
  : option string * option string :=
  let lowered := Str.lower message in
  match exact_match lowered (agent_skills host) with
  | Some (url, skill_id) => (Some url, Some skill_id)
  | None =>
      let by_code :=
        if Str.contains "code" lowered || Str.contains "convert" lowered
        then first_agent_with "code" (agent_skills host) else None in
      match by_code with
      | Some url => (Some url, Some "code-conversion")
      | None =>
          let by_data :=
            if Str.contains "data" lowered || Str.contains "migration" lowered
               || Str.contains "database" lowered
            then first_agent_with "data" (agent_skills host) else None in
          match by_data with
          | Some url => (Some url, Some "data-migration")
          | None => (None, None)
          end
      end
  end.

(** The [while task.status.state not in [...]] loop: every iteration sleeps
    half a second and asks the remote again.  [None] when the answers known
    of the remote end before a terminal state shows: the host is still in
    the loop. *)
Fixpoint poll (url : string) (answers : list (string -> Result Task))
    (task : Task) : option (list Action * Result Task) :=
  if is_final_state (st_state (task_status task)) then Some ([], Ok task)
  else
    match answers with
    | [] => None
    | answer :: answers' =>
        let asked := [Sleep 500; GetTask url (task_id task)] in
        match answer (task_id task) with
        | Raise e => Some (asked, Raise e)
        | Ok task' =>
            match poll url answers' task' with
            | Some (later, r) => Some (asked ++ later, r)
            | None => None
            end
        end
    end.

Definition no_response : string :=
  "Task completed successfully, but no response was provided.".

(** The text taken from the task the loop ended on. *)
Definition response_text (task : Task) : string :=
  if decide (st_state (task_status task) = COMPLETED) then
    match st_message (task_status task) with
    | Some message => _extract_message_text message
    | None =>
        match task_artifacts task with
        | Some (artifact :: artifacts) =>
            Str.join (Str.nl +:+ Str.nl)
              (concat ((λ a, part_texts (art_parts a))
                         <$> (artifact :: artifacts)))
        | _ => no_response
        end
    end
  else
    "Task failed: " +:+
    match st_message (task_status task) with
    | Some message => _extract_message_text message
    | None => "Unknown error"
    end.

Definition quote : string := String "034"%char EmptyString.

(** The answer when no agent was identified. *)
Definition general_response (message : string) : string :=
  Str.join Str.nl
    ["As the DevGenius Host Agent, I can help route your request to specialized agents for:";
     "";
     "1. Code Conversion (AWS to GCP)";
     "2. Data Migration (DynamoDB to Firestore/Spanner, S3 to GCS, etc.)";
     "3. Schema Translation";
     "4. Architecture Design";
     "5. Security Validation";
     "";
     "Your request: " +:+ quote +:+ message +:+ quote;
     "";
     "To help you better, please specify which type of task you're looking to accomplish. For example:";
     "- " +:+ quote +:+ "Convert this AWS Lambda code to Google Cloud Function" +:+ quote;
     "- " +:+ quote +:+ "Migrate my DynamoDB schema to Firestore" +:+ quote;
     "- " +:+ quote +:+ "Design a GCP architecture equivalent to my AWS setup" +:+ quote;
     ""].

(** The [try] block of [_process_message] with its [except Exception]
    clause, on the connection [agent_conn] found under [agent_url]. *)
Definition route_to (agent_url : string) (agent_conn : RemoteAgentConnection)
    (message : string) (session_id : option string)
  : option (list Action * string) :=
  let failed (e : Exc) :=
    "Error processing task with remote agent: " +:+ exc_str e in
  match get_card agent_conn with
  | Raise e => Some ([], failed e)
  | Ok _ =>
      let sent := [SendTask agent_url message session_id] in
      match send_task agent_conn message session_id with
      | Raise e => Some (sent, failed e)
      | Ok task =>
          match poll agent_url (get_task agent_conn) task with
          | None => None
          | Some (asked, Raise e) => Some (sent ++ asked, failed e)
          | Some (asked, Ok task') => Some (sent ++ asked, response_text task')
          end
      end
  end.

(** [_process_message]: [None] while the host is still polling, otherwise
    what it did to the remotes and what it returned or raised. *)
Definition _process_message (host : HostAgent) (message : string)
    (session_id : option string) : option (list Action * Result string) :=
  match remote_agents host with
  | [] =>
      Some ([], Ok "No remote agents connected. Please connect to some agents first.")
  | _ =>
      match _extract_skill_info host message with
      | (Some EmptyString, _) | (None, _) =>
          Some ([], Ok (general_response message))
      | (Some agent_url, _) =>
          match lookup_url agent_url (remote_agents host) with
          | None => Some ([], Raise (KeyError agent_url))
          | Some agent_conn =>
              match route_to agent_url agent_conn message session_id with
              | None => None
              | Some (actions, text) => Some (actions, Ok text)
              end
          end
      end
  end.

(** *** Vocabulary of the properties *)




End Host.

(** ** The agents ([base_agent.py], [data_migration_agent.py]) *)

Module Agents.
Import Manager.

(** What awaiting the [_process_message] of a subclass does: the calls of
    [add_artifact] it makes, then the text it returns or the exception it
    raises. *)
Record MessageProcessing : Type := {
  mp_artifacts : list (string * Artifact * bool);
  mp_outcome : Result string
}.

Definition agent_message (text : string) : Message :=
  {| msg_role := "agent"; msg_parts := [TextPart text None];
     msg_metadata := None |}.

(** [BaseAgent.process_task], the processing callback of the manager of
    every agent.  [now] is the time it reads for the status it ends on. *)
Definition process_task
    (_process_message : string -> TaskSendParams -> MessageProcessing)
    (now : nat) (params : TaskSendParams) : Processing :=
  let message_text := Host._extract_message_text (sp_message params) in
  let processing := _process_message message_text params in
  let task :=
    match mp_outcome processing with
    | Ok response_text =>
        {| task_id := sp_id params; task_sessionId := sp_sessionId params;
           task_status := {| st_state := COMPLETED;
                             st_message := Some (agent_message response_text);
                             st_timestamp := now |};
           task_artifacts :=
             Some [{| art_name := Some "response";
                      art_description := Some "Task response";
                      art_parts := [TextPart response_text None];
                      art_index := 0; art_append := None;
                      art_lastChunk := None; art_metadata := None |}];
           task_history := None;
           task_metadata := Some (default [] (sp_metadata params)) |}
    | Raise e =>
        {| task_id := sp_id params; task_sessionId := sp_sessionId params;
           task_status :=
             {| st_state := FAILED;
                st_message := Some (agent_message ("Error: " +:+ exc_str e));
                st_timestamp := now |};
           task_artifacts := Some [];
           task_history := None;
           task_metadata := Some (default [] (sp_metadata params)) |}
    end in
  {| proc_artifacts := mp_artifacts processing; proc_outcome := Returns task |}.

(** *** The data migration agent *)

(** [_create_dynamodb_to_firestore_prompt] *)
Definition _create_dynamodb_to_firestore_prompt (message : string) : string :=
  Str.join Str.nl
    (["As a data migration expert specializing in NoSQL database migration from AWS to GCP, please help with the following DynamoDB to Firestore migration.";
      "";
      "REQUEST/INFORMATION:"]
     ++ [message]
     ++ ["";
         "Please provide:";
         "1. A detailed mapping of the DynamoDB data model to Firestore";
         "2. Schema recommendations leveraging Firestore's document-collection model";
         "3. Code samples for data access in both DynamoDB and equivalent Firestore";
         "4. Migration strategy and best practices";
         "5. Performance considerations and trade-offs";
         "";
         "Keep in mind the following key differences:";
         "- DynamoDB uses tables with items, while Firestore uses collections with documents";
         "- DynamoDB has a primary key (partition + optional sort), while Firestore uses document IDs";
         "- DynamoDB has strongly consistent reads, while Firestore has strong consistency by default";
         "- Firestore has hierarchical data model with subcollections, while DynamoDB is flat";
         "- Query capabilities differ significantly between the two databases";
         "- Transactions work differently in both systems";
         "- Capacity provisioning and pricing models are different";
         "";
         "Format your response with clear examples, code snippets, and structured recommendations:";
         ""]).

(** [_create_dynamodb_to_spanner_prompt] *)
Definition _create_dynamodb_to_spanner_prompt (message : string) : string :=
  Str.join Str.nl
    (["As a data migration expert specializing in database migration from AWS to GCP, please help with the following DynamoDB to Spanner migration.";
      "";
      "REQUEST/INFORMATION:"]
     ++ [message]
     ++ ["";
         "Please provide:";
         "1. A detailed mapping of the DynamoDB data model to Spanner's relational model";
         "2. Schema recommendations including table design, interleaved tables, and foreign keys";
         "3. Code samples for data access in both DynamoDB and equivalent Spanner SQL";
         "4. Migration strategy and best practices";
         "5. Performance considerations and trade-offs";
         "";
         "Keep in mind the following key differences:";
         "- DynamoDB is NoSQL, while Spanner is a distributed relational database";
         "- DynamoDB uses tables with items, while Spanner uses relational tables with rows";
         "- DynamoDB has a primary key (partition + optional sort), while Spanner has primary keys and interleaved tables";
         "- DynamoDB has eventually consistent reads by default, while Spanner is strongly consistent";
         "- Spanner supports SQL queries, transactions, and relational constraints";
         "- Capacity provisioning and pricing models are different";
         "";
         "Format your response with clear examples, code snippets, and structured recommendations:";
         ""]).

(** [_create_s3_to_gcs_prompt] *)
Definition _create_s3_to_gcs_prompt (message : string) : string :=
  Str.join Str.nl
    (["As a data migration expert specializing in cloud storage migration from AWS to GCP, please help with the following S3 to Google Cloud Storage migration.";
      "";
      "REQUEST/INFORMATION:"]
     ++ [message]
     ++ ["";
         "Please provide:";
         "1. A detailed mapping of S3 concepts to GCS equivalents";
         "2. Configuration recommendations for GCS buckets, objects, and access control";
         "3. Code samples for object operations in both S3 and equivalent GCS";
         "4. Migration strategy and best practices";
         "5. Performance considerations and trade-offs";
         "";
         "Keep in mind the following key differences:";
         "- S3 uses IAM roles and policies, while GCS uses IAM roles and ACLs";
         "- S3 has bucket policies, while GCS has IAM conditions and ACLs";
         "- S3 has transfer acceleration, while GCS has different transfer options";
         "- Lifecycle management configuration differs between services";
         "- Consistency models differ (S3 is eventually consistent for some operations)";
         "- Storage class options and pricing models are different";
         "";
         "Format your response with clear examples, code snippets, and structured recommendations:";
         ""]).

(** [_create_rds_to_cloudsql_prompt] *)
Definition _create_rds_to_cloudsql_prompt (message : string) : string :=
  Str.join Str.nl
    (["As a data migration expert specializing in relational database migration from AWS to GCP, please help with the following RDS to Cloud SQL migration.";
      "";
      "REQUEST/INFORMATION:"]
     ++ [message]
     ++ ["";
         "Please provide:";
         "1. A detailed migration plan from RDS to Cloud SQL";
         "2. Configuration recommendations for Cloud SQL instance";
         "3. Instructions for schema and data migration";
         "4. Code samples for connectivity and access in both RDS and Cloud SQL";
         "5. Performance considerations and trade-offs";
         "";
         "Keep in mind the following key differences:";
         "- RDS and Cloud SQL have different instance types and configuration options";
         "- Connection methods and security settings differ";
         "- Backup, maintenance, and high availability configurations vary";
         "- Some database features may be supported on one platform but not the other";
         "- Capacity provisioning and pricing models are different";
         "";
         "Format your response with clear examples, code snippets, and structured recommendations:";
         ""]).

(** [_create_data_validation_prompt] *)
Definition _create_data_validation_prompt (message : string) : string :=
  Str.join Str.nl
    (["As a data migration validation expert, please help with the following data validation request for AWS to GCP migration.";
      "";
      "REQUEST/INFORMATION:"]
     ++ [message]
     ++ ["";
         "Please provide:";
         "1. A comprehensive data validation strategy";
         "2. Specific validation techniques and tools for the migration scenario";
         "3. Code samples for validation scripts where appropriate";
         "4. Best practices for ensuring data integrity during and after migration";
         "5. Recommendations for handling discrepancies and validation failures";
         "";
         "The validation strategy should include:";
         "- Source and target count validation";
         "- Schema and data type validation";
         "- Data content sampling and comparison";
         "- Performance and load testing";
         "- Logging and reporting of validation results";
         "- Rollback procedures if validation fails";
         "";
         "Format your response with clear examples, code snippets, and structured recommendations:";
         ""]).

(** [_create_general_data_migration_prompt] *)
Definition _create_general_data_migration_prompt (message : string) : string :=
  Str.join Str.nl
    (["As a data migration expert specializing in AWS to GCP migration, please help with the following data migration request.";
      "";
      "REQUEST/INFORMATION:"]
     ++ [message]
     ++ ["";
         "Please provide:";
         "1. Analysis of the migration requirements and source/target systems";
         "2. A detailed migration strategy and approach";
         "3. Recommendations for tools and methods based on the data types and volumes";
         "4. Code or configuration examples where appropriate";
         "5. Best practices and considerations for this specific migration";
         "";
         "Consider the following aspects:";
         "- Compatibility between source and target systems";
         "- Data model and schema mapping";
         "- Migration methodologies (online vs. offline, bulk vs. incremental)";
         "- Downtime requirements and impact on existing systems";
         "- Validation and verification approaches";
         "- Post-migration operations and monitoring";
         "";
         "Format your response with clear examples, code snippets, and structured recommendations:";
         ""]).

(** The [if]/[elif] chain of [DataMigrationAgent._process_message];
    [lowered] is [message.lower()]. *)
Definition data_migration_prompt (message : string) : string :=
  let lowered := Str.lower message in
  if Str.contains "dynamodb" lowered && Str.contains "firestore" lowered then
    _create_dynamodb_to_firestore_prompt message
  else if Str.contains "dynamodb" lowered && Str.contains "spanner" lowered then
    _create_dynamodb_to_spanner_prompt message
  else if Str.contains "s3" lowered
          && (Str.contains "gcs" lowered
              || Str.contains "cloud storage" lowered) then
    _create_s3_to_gcs_prompt message
  else if Str.contains "rds" lowered
          && (Str.contains "cloudsql" lowered
              || Str.contains "cloud sql" lowered) then
    _create_rds_to_cloudsql_prompt message
  else if Str.contains "validation" lowered || Str.contains "verify" lowered
          || Str.contains "integrity" lowered then
    _create_data_validation_prompt message
  else _create_general_data_migration_prompt message.

Definition migration_result (response : string) : Artifact :=
  {| art_name := Some "migration_result";
     art_description := Some "Data migration result";
     art_parts := [TextPart response None];
     art_index := 0; art_append := None; art_lastChunk := None;
     art_metadata := None |}.

(** [DataMigrationAgent._process_message]; [generate_text] is what
    awaiting [self.gemini.generate_text(prompt)] yields.  The agent is
    made with [supports_streaming=True]. *)
Definition data_migration_process_message
    (generate_text : string -> Result string)
    (message : string) (params : TaskSendParams) : MessageProcessing :=
  match generate_text (data_migration_prompt message) with
  | Ok response =>
      {| mp_artifacts :=
           match sp_id params with
           | EmptyString => []
           | _ => [(sp_id params, migration_result response, true)]
           end;
         mp_outcome := Ok response |}
  | Raise e =>
      {| mp_artifacts := [];
         mp_outcome :=
           Ok ("Error processing data migration request: " +:+ exc_str e) |}
  end.

(** *** Vocabulary of the properties *)

(** The task [process_task] answers with when the message was processed
    into [text]. *)
Definition completed_with (params : TaskSendParams) (now : nat)
    (text : string) : Task :=
  {| task_id := sp_id params; task_sessionId := sp_sessionId params;
     task_status := {| st_state := COMPLETED;
                       st_message := Some (agent_message text);
                       st_timestamp := now |};
     task_artifacts :=
       Some [{| art_name := Some "response";
                art_description := Some "Task response";
                art_parts := [TextPart text None];
                art_index := 0; art_append := None;
                art_lastChunk := None; art_metadata := None |}];
     task_history := None;
     task_metadata := Some (default [] (sp_metadata params)) |}.

End Agents.

(** ** The connections of the host agent ([host_agent.py]:
    [connect_to_agent], [connect_to_agents], [disconnect_from_agent]; with
    [BaseAgent.register_skill]) *)

Module HostConnections.
Import Host.

Record AgentSkill : Type := {
  skill_id : string;
  skill_name : string;
  skill_description : option string;
  skill_tags : option (list string);
  skill_examples : option (list string);
  skill_inputModes : option (list string);
  skill_outputModes : option (list string)
}.

(** The fields of an agent card the host reads. *)
Record AgentCard : Type := {
  card_name : string;
  card_skills : list AgentSkill;
  card_defaultInputModes : list string;
  card_defaultOutputModes : list string
}.

(** [d[key] = value] and [del d[key]] on a dictionary kept in insertion
    order: an assignment to a key the dictionary has keeps the place of
    the key. *)
Fixpoint dict_set {A : Type} (key : string) (value : A)
    (d : list (string * A)) : list (string * A) :=
  match d with
  | [] => [(key, value)]
  | (k, v) :: d' =>
      if String.eqb k key then (k, value) :: d'
      else (k, v) :: dict_set key value d'
  end.

Fixpoint dict_del {A : Type} (key : string) (d : list (string * A))
  : list (string * A) :=
  match d with
  | [] => []
  | (k, v) :: d' =>
      if String.eqb k key then d' else (k, v) :: dict_del key d'
  end.

(** The host agent with the two skill lists of its base class:
    [self.skills], and the list of its agent card, which is a list of its
    own (pydantic builds the value of a validated field anew). *)
Record HostState : Type := {
  host : HostAgent;
  skills : list AgentSkill;
  agent_card_skills : list AgentSkill
}.

(** [skill.inputModes or card.defaultInputModes]: an empty list counts as
    absent. *)
Definition modes_or (modes : option (list string)) (defaults : list string)
  : list string :=
  match modes with
  | Some (mode :: modes') => mode :: modes'
  | _ => defaults
  end.

(** An optional text inside an f-string. *)
Definition format_optional (text : option string) : string :=
  default "None" text.

Definition skill_with_source (url : string) (card : AgentCard)
    (skill : AgentSkill) : AgentSkill :=
  {| skill_id := url +:+ ":" +:+ skill_id skill;
     skill_name := skill_name skill;
     skill_description :=
       Some ("[From " +:+ card_name card +:+ "] "
               +:+ format_optional (skill_description skill));
     skill_tags := skill_tags skill;
     skill_examples := skill_examples skill;
     skill_inputModes :=
       Some (modes_or (skill_inputModes skill) (card_defaultInputModes card));
     skill_outputModes :=
       Some (modes_or (skill_outputModes skill)
               (card_defaultOutputModes card)) |}.

(** [BaseAgent.register_skill] *)
Definition register_skill (skill : AgentSkill) (h : HostState) : HostState :=
  {| host := host h; skills := skills h ++ [skill];
     agent_card_skills := agent_card_skills h ++ [skill] |}.

(** [connect_to_agent].  [card] is what the first [get_card] of the new
    connection yields, [answers] how the remote answers the tasks sent
    through it later.  The connection keeps the card it has fetched, so
    that its later [get_card] return that card. *)
Definition connect_to_agent (url : string) (card : Result AgentCard)
    (answers : RemoteAgentConnection) (h : HostState)
  : HostState * Result RemoteAgentConnection :=
  match lookup_url url (remote_agents (host h)) with
  | Some agent_conn => (h, Ok agent_conn)
  | None =>
      match card with
      | Raise e => (h, Raise e)
      | Ok card =>
          let agent_conn :=
            {| get_card := Ok (card_name card);
               send_task := send_task answers;
               get_task := get_task answers |} in
          let h :=
            {| host :=
                 {| remote_agents :=
                      dict_set url agent_conn (remote_agents (host h));
                    agent_skills :=
                      dict_set url (skill_id <$> card_skills card)
                        (agent_skills (host h)) |};
               skills := skills h;
               agent_card_skills := agent_card_skills h |} in
          let h :=
            foldl (λ h skill, register_skill (skill_with_source url card skill) h)
              h (card_skills card) in
          (h, Ok agent_conn)
      end
  end.

(** One entry of the list [connect_to_agents] gets: [config.get('url')],
    and what the remote does. *)
Record AgentConfig : Type := {
  config_url : option string;
  config_card : Result AgentCard;
  config_answers : RemoteAgentConnection
}.

(** [connect_to_agents]: an entry without URL, or with an empty one, is
    skipped, and so is one whose connection fails. *)
Definition connect_to_agents (agent_configs : list AgentConfig)
    (h : HostState) : HostState :=
  foldl (λ h config,
           match config_url config with
           | None | Some EmptyString => h
           | Some url =>
               (connect_to_agent url (config_card config)
                  (config_answers config) h).1
           end)
    h agent_configs.

(** [disconnect_from_agent]; what [close] raises is logged and dropped. *)
Definition disconnect_from_agent (url : string) (h : HostState) : HostState :=
  match lookup_url url (remote_agents (host h)) with
  | None => h
  | Some _ =>
      let remaining := dict_del url (remote_agents (host h)) in
      match lookup_url url (agent_skills (host h)) with
      | None =>
          {| host := {| remote_agents := remaining;
                        agent_skills := agent_skills (host h) |};
             skills := skills h;
             agent_card_skills := agent_card_skills h |}
      | Some ids =>
          let skill_ids := (λ id, url +:+ ":" +:+ id) <$> ids in
          {| host := {| remote_agents := remaining;
                        agent_skills := dict_del url (agent_skills (host h)) |};
             skills := filter (λ skill, skill_id skill ∉ skill_ids) (skills h);
             agent_card_skills := agent_card_skills h |}
      end
  end.

(** *** Vocabulary of the properties *)

(** A host agent before any connection, with the skills it was given. *)
Definition unconnected (own_skills : list AgentSkill) : HostState :=
  {| host := {| remote_agents := []; agent_skills := [] |};
     skills := own_skills; agent_card_skills := own_skills |}.

Inductive Op : Type :=
| Connect (url : string) (card : Result AgentCard)
    (answers : RemoteAgentConnection)
| ConnectAll (agent_configs : list AgentConfig)
| Disconnect (url : string).

Definition exec (op : Op) (h : HostState) : HostState :=
  match op with
  | Connect url card answers => (connect_to_agent url card answers h).1
  | ConnectAll agent_configs => connect_to_agents agent_configs h
  | Disconnect url => disconnect_from_agent url h
  end.

(** Every agent the host has skills of is an agent it has a connection
    to. *)
Definition aligned (a : HostAgent) : Prop :=
  ∀ url, is_Some (lookup_url url (agent_skills a)) →
         is_Some (lookup_url url (remote_agents a)).

(** What the connections of a host keep: each of the two dictionaries has
    a URL once; the host has the skills of the agents it is connected to,
    and of those only; and every connection holds the card it fetched. *)
Record connected (a : HostAgent) : Prop := {
  co_remotes : NoDup (remote_agents a).*1;
  co_skills : NoDup (agent_skills a).*1;
  co_same : ∀ url,
    is_Some (lookup_url url (agent_skills a))
    ↔ is_Some (lookup_url url (remote_agents a));
  co_card : ∀ url agent_conn,
    lookup_url url (remote_agents a) = Some agent_conn →
    ∃ name, get_card agent_conn = Ok name
}.

End HostConnections.

(** ** The protocol client ([client.py]): one JSON-RPC request *)

Module Requests.
Import Server.

Record JSONRPCError : Type := {
  err_code : Z;
  err_message : string;
  err_data : option json
}.

(** What the client takes from Python and from pydantic here: the
    validating constructor of [JSONRPCError] applied to the unpacked
    value, and the exception
    raised by [result["error"]] when [result] is a list or a string. *)
Record Library : Type := {
  parse_JSONRPCError : json -> Result JSONRPCError;
  subscript_error : json -> Exc
}.

(** [str(n)] for an [int] *)
Definition py_str_int (n : Z) : string := NilZero.string_of_int (Z.to_int n).

(** What [self.http_client.post(...)], [response.raise_for_status()] and
    [response.json()] come to: the parsed body, the [HTTPStatusError] of
    a 4xx or 5xx response with its status code and body text, or any other
    exception (no connection, a body that is not JSON). *)
Inductive Posted : Type :=
| Answered (result : json)
| HTTPStatusError (status_code : Z) (text : string)
| Failed (e : Exc).

(** [_build_headers] *)
Definition _build_headers (api_key : option string) : list (string * string) :=
  ("Content-Type", "application/json")
  :: match api_key with
     | None | Some EmptyString => []
     | Some key => [("Authorization", "Bearer " +:+ key)]
     end.

(** [_build_jsonrpc_request]; [uuid4] is the text of the fresh UUID. *)
Definition _build_jsonrpc_request (method : string) (params : json)
    (uuid4 : string) : json :=
  JObj [("jsonrpc", JStr "2.0"); ("method", JStr method); ("params", params);
        ("id", JStr uuid4)].

Section Client.
Context {AgentCard : Type} (lib : Library).

(** [_ensure_agent_card] on [self.agent_card]; [resolved] is what
    [card_resolver.get_agent_card] yields when it is called. *)
Definition _ensure_agent_card (resolved : Result AgentCard)
    (agent_card : option AgentCard) : option AgentCard * Result unit :=
  match agent_card with
  | Some card => (Some card, Ok tt)
  | None =>
      match resolved with
      | Ok card => (Some card, Ok tt)
      | Raise e => (None, Raise e)
      end
  end.

(** The statements of [_make_request] between [result = response.json()]
    and the [except] clauses. *)
Definition read_result (result : json) : Result json :=
  match Client.py_in "error" result with
  | Raise e => Raise e
  | Ok true =>
      match result with
      | JObj d =>
          match parse_JSONRPCError lib (default JNull (dict_get "error" d)) with
          | Raise e => Raise e
          | Ok error =>
              Raise (A2AClientError
                       ("JSON-RPC error: " +:+ err_message error
                          +:+ " (code: " +:+ py_str_int (err_code error)
                          +:+ ")"))
          end
      | _ => Raise (subscript_error lib result)
      end
  | Ok false =>
      match result with
      | JObj d => Ok (default JNull (dict_get "result" d))
      | _ =>
          Raise (OtherError ("'" +:+ py_type_name result
                               +:+ "' object has no attribute 'get'"))
      end
  end.

(** [_make_request]: the card of the client afterwards, the requests
    posted, and the result or the exception.  [post] is the agent at
    [self.agent_url] as the HTTP client sees it. *)
Definition _make_request (resolved : Result AgentCard) (post : json -> Posted)
    (uuid4 : string) (method : string) (params : json)
    (agent_card : option AgentCard)
  : option AgentCard * list json * Result json :=
  match _ensure_agent_card resolved agent_card with
  | (agent_card, Raise e) => (agent_card, [], Raise e)
  | (agent_card, Ok _) =>
      let request_data := _build_jsonrpc_request method params uuid4 in
      (agent_card, [request_data],
       match post request_data with
       | HTTPStatusError status_code text =>
           Raise (A2AClientError
                    ("HTTP error: " +:+ py_str_int status_code +:+ " - "
                       +:+ text))
       | Failed e => Raise (A2AClientError ("Request failed: " +:+ exc_str e))
       | Answered result =>
           match read_result result with
           | Ok value => Ok value
           | Raise e =>
               Raise (A2AClientError ("Request failed: " +:+ exc_str e))
           end
       end)
  end.

End Client.

(** *** Vocabulary of the properties *)

(** The model of the error object reads the objects [_error_response]
    writes as they are. *)
Definition reads_error_objects (lib : Library) : Prop :=
  ∀ code message,
    parse_JSONRPCError lib
      (JObj [("code", JNum code); ("message", JStr message); ("data", JNull)])
    = Ok {| err_code := code; err_message := message; err_data := None |}.

(** The agent behind [post] is an [A2AServer] over the manager [m]: it
    hands the posted JSON, which comes without the event-stream [Accept]
    header, to [handle_jsonrpc], and the client reads the content of the
    JSON response. *)
Definition served_by (slib : Server.Library) (accept : option string)
    (m : Manager.InMemoryTaskManager) (post : json -> Posted) : Prop :=
  accept ≠ Some "text/event-stream"
  ∧ ∀ request_data content,
      (handle_jsonrpc slib
         {| req_json := Some request_data; req_accept := accept |} m).2
      = JSONResponse content →
      post request_data = Answered content.

End Requests.

(** ** Concrete managers, libraries and remotes

    The values the statements below are instantiated at. *)

Module Samples.
Import Manager Server.

Definition text_message (role text : string) : Message :=
  {| msg_role := role; msg_parts := [TextPart text None]; msg_metadata := None |}.

Definition send_params (task_id text : string) : TaskSendParams :=
  {| sp_id := task_id; sp_historyLength := None; sp_sessionId := None;
     sp_message := text_message "user" text; sp_pushNotification := None;
     sp_metadata := None |}.

Definition text_artifact (index : Z) (append : option bool) (text : string)
  : Artifact :=
  {| art_name := Some "response"; art_description := None;
     art_parts := [TextPart text None]; art_index := index;
     art_append := append; art_lastChunk := None; art_metadata := None |}.

(** A callback in the manner of [BaseAgent.process_task] on success: the
    answer "done" as status message and as artifact 0; the task carries the
    three messages of the exchange as its history. *)
Definition completed_task (params : TaskSendParams) : Task :=
  {| task_id := sp_id params; task_sessionId := sp_sessionId params;
     task_status := {| st_state := COMPLETED;
                       st_message := Some (text_message "agent" "done");
                       st_timestamp := 0 |};
     task_artifacts := Some [text_artifact 0 None "done"];
     task_history :=
       Some [sp_message params; text_message "agent" "working";
             text_message "agent" "done"];
     task_metadata := Some [] |}.

Definition completes (params : TaskSendParams) : Processing :=
  {| proc_artifacts := []; proc_outcome := Returns (completed_task params) |}.


(** A callback of an agent that goes on working: it makes a first artifact
    update for its task and answers with the task in the state WORKING. *)
Definition working_task (params : TaskSendParams) : Task :=
  {| task_id := sp_id params; task_sessionId := sp_sessionId params;
     task_status := {| st_state := WORKING; st_message := None;
                       st_timestamp := 0 |};
     task_artifacts := Some [text_artifact 0 None "partial"];
     task_history := None; task_metadata := Some [] |}.

Definition works (params : TaskSendParams) : Processing :=
  {| proc_artifacts := [(sp_id params, text_artifact 0 None "partial", false)];
     proc_outcome := Returns (working_task params) |}.

(** The task a manager without callback stores, at clock 0. *)
Definition submitted_sample (task_id : string) : Task :=
  {| task_id := task_id; task_sessionId := None;
     task_status := {| st_state := SUBMITTED;
                       st_message := Some (text_message "user" "convert this code");
                       st_timestamp := 0 |};
     task_artifacts := Some []; task_history := None;
     task_metadata := Some [] |}.

(** A streaming manager without callback that holds task "t1", submitted. *)
Definition m_submitted : InMemoryTaskManager :=
  (create_task (send_params "t1" "convert this code") (init None true false)).1.

(** A streaming manager that holds task "t1", being worked on. *)
Definition m_working : InMemoryTaskManager :=
  (create_task (send_params "t1" "convert this code")
     (init (Some works) true false)).1.

(** A streaming manager that holds task "t1", completed. *)
Definition m_completed : InMemoryTaskManager :=
  (create_task (send_params "t1" "convert this code")
     (init (Some completes) true false)).1.

(** Task "t1" submitted, then canceled. *)
Definition m_canceled : InMemoryTaskManager :=
  (cancel_task "t1" m_submitted).1.

(** The same without streaming and with push notifications. *)
Definition m_push : InMemoryTaskManager :=
  (create_task (send_params "t1" "convert this code")
     (init (Some completes) false true)).1.

(** A strict reading of the parameter models: the fields present with the
    types of the annotations, text parts only. *)
Definition field_str (model key : string) (d : Dict) : Result string :=
  match dict_get key d with
  | Some (JStr s) => Ok s
  | _ => Raise (ValueError ("1 validation error for " +:+ model +:+ ": " +:+ key))
  end.

Definition as_dict (model : string) (params : json) : Result Dict :=
  match params with
  | JObj d => Ok d
  | _ => Raise (TypeError (model +:+ "() argument after ** must be a mapping"))
  end.

Definition read_part (part : json) : option Part :=
  match part with
  | JObj d =>
      match dict_get "text" d with
      | Some (JStr text) => Some (TextPart text None)
      | _ => None
      end
  | _ => None
  end.

Definition read_message (d : Dict) : Result Message :=
  match dict_get "message" d with
  | Some (JObj message) =>
      match dict_get "role" message, dict_get "parts" message with
      | Some (JStr role), Some (JArr parts) =>
          match mapM read_part parts with
          | Some parts =>
              Ok {| msg_role := role; msg_parts := parts; msg_metadata := None |}
          | None => Raise (ValueError "1 validation error for TaskSendParams: message.parts")
          end
      | _, _ => Raise (ValueError "1 validation error for TaskSendParams: message")
      end
  | _ => Raise (ValueError "1 validation error for TaskSendParams: message")
  end.

Definition strict : Library :=
  {| parse_TaskSendParams := λ params,
       match as_dict "TaskSendParams" params with
       | Raise e => Raise e
       | Ok d =>
           match field_str "TaskSendParams" "id" d, read_message d with
           | Ok task_id, Ok message =>
               Ok {| sp_id := task_id; sp_historyLength := None;
                     sp_sessionId := None; sp_message := message;
                     sp_pushNotification := None; sp_metadata := None |}
           | Raise e, _ | _, Raise e => Raise e
           end
       end;
     parse_TaskQueryParams := λ params,
       match as_dict "TaskQueryParams" params with
       | Raise e => Raise e
       | Ok d =>
           match field_str "TaskQueryParams" "id" d with
           | Ok task_id =>
               Ok {| qp_id := task_id;
                     qp_historyLength :=
                       match dict_get "historyLength" d with
                       | Some (JNum n) => Some n
                       | _ => None
                       end |}
           | Raise e => Raise e
           end
       end;
     parse_TaskIdParams := λ params,
       match as_dict "TaskIdParams" params with
       | Raise e => Raise e
       | Ok d =>
           match field_str "TaskIdParams" "id" d with
           | Ok task_id => Ok {| ip_id := task_id |}
           | Raise e => Raise e
           end
       end;
     parse_TaskPushNotificationConfig := λ params,
       match as_dict "TaskPushNotificationConfig" params with
       | Raise e => Raise e
       | Ok d =>
           match field_str "TaskPushNotificationConfig" "id" d,
                 dict_get "pushNotification" d with
           | Ok task_id, Some (JObj config) =>
               match field_str "PushNotificationConfig" "url" config with
               | Ok url =>
                   Ok {| tpn_id := task_id;
                         tpn_pushNotification :=
                           {| pn_url := url; pn_token := None;
                              pn_authentication := None |} |}
               | Raise e => Raise e
               end
           | Raise e, _ => Raise e
           | _, _ =>
               Raise (ValueError
                        "1 validation error for TaskPushNotificationConfig: pushNotification")
           end
       end;
     py_format := λ value,
       match value with JStr s => s | _ => py_type_name value end |}.

(** A JSON-RPC request *)
Definition rpc (method : string) (params : json) (accept : option string)
  : Request :=
  {| req_json :=
       Some (JObj [("jsonrpc", JStr "2.0"); ("method", JStr method);
                   ("params", params); ("id", JNum 7)]);
     req_accept := accept |}.

Definition id_params (task_id : string) : json := JObj [("id", JStr task_id)].

(** The JSON text of the error frame for [ValueError("Task not found:
    t2")], as [json.dumps] writes it. *)
Definition q : string := String "034"%char EmptyString.

Definition not_found_text : string :=
  "{" +:+ q +:+ "error" +:+ q +:+ ": {" +:+ q +:+ "code" +:+ q
  +:+ ": -32603, " +:+ q +:+ "message" +:+ q +:+ ": " +:+ q
  +:+ "Streaming error: Task not found: t2" +:+ q +:+ "}}".

(** [json.loads] on the two texts the statements use, and event models
    that accept nothing. *)
Definition reader : Client.Library :=
  {| Client.json_loads := λ text,
       if String.eqb text "{}" then Some (JObj [])
       else if String.eqb text not_found_text
            then Some (error_event (ValueError "Task not found: t2"))
            else None;
     Client.parse_TaskStatusUpdateEvent := λ _,
       Raise (ValueError "1 validation error for TaskStatusUpdateEvent");
     Client.parse_TaskArtifactUpdateEvent := λ _,
       Raise (ValueError "1 validation error for TaskArtifactUpdateEvent") |}.

(** A remote with the skill of the end-to-end scenario of the
    specification: [send_task] answers with [first], the later [get_task]
    calls with [answers]. *)
Definition remote_task (state : TaskState) (message : option Message)
    (artifacts : option (list Artifact)) : Task :=
  {| task_id := "r1"; task_sessionId := None;
     task_status := {| st_state := state; st_message := message;
                       st_timestamp := 0 |};
     task_artifacts := artifacts; task_history := None;
     task_metadata := None |}.

Definition remote (first : Task) (answers : list Task)
  : Host.RemoteAgentConnection :=
  {| Host.get_card := Ok "Code Conversion Agent";
     Host.send_task := λ _ _, Ok first;
     Host.get_task := (λ task _, Ok task) <$> answers |}.

Definition host_of (conn : Host.RemoteAgentConnection) : Host.HostAgent :=
  {| Host.remote_agents := [("http://localhost:8001", conn)];
     Host.agent_skills := [("http://localhost:8001", ["aws-to-gcp"])] |}.

(** The card of the code conversion agent, with one of its skills. *)
Definition aws_to_gcp : HostConnections.AgentSkill :=
  {| HostConnections.skill_id := "aws-to-gcp";
     HostConnections.skill_name := "AWS to GCP Code Conversion";
     HostConnections.skill_description :=
       Some "Convert AWS-specific code to GCP-equivalent code";
     HostConnections.skill_tags := Some ["code"; "conversion"; "aws"; "gcp"];
     HostConnections.skill_examples := None;
     HostConnections.skill_inputModes := None;
     HostConnections.skill_outputModes := Some [] |}.

Definition code_conversion_card : HostConnections.AgentCard :=
  {| HostConnections.card_name := "Code Conversion Agent";
     HostConnections.card_skills := [aws_to_gcp];
     HostConnections.card_defaultInputModes := ["text"];
     HostConnections.card_defaultOutputModes := ["text"] |}.

(** A strict reading of the error model, and an [A2AServer] over the
    manager [m] as the HTTP client of [A2AClient] sees it. *)
Definition error_objects : Requests.Library :=
  {| Requests.parse_JSONRPCError := λ value,
       match value with
       | JObj d =>
           match dict_get "code" d, dict_get "message" d with
           | Some (JNum code), Some (JStr message) =>
               Ok {| Requests.err_code := code;
                     Requests.err_message := message;
                     Requests.err_data :=
                       match dict_get "data" d with
                       | None | Some JNull => None
                       | Some data => Some data
                       end |}
           | _, _ => Raise (ValueError "2 validation errors for JSONRPCError")
           end
       | _ => Raise (TypeError "JSONRPCError() argument after ** must be a mapping")
       end;
     Requests.subscript_error := λ _,
       TypeError "indices must be integers" |}.

Definition a2a_server (m : InMemoryTaskManager) (request_data : json)
  : Requests.Posted :=
  match (handle_jsonrpc strict
           {| req_json := Some request_data; req_accept := None |} m).2 with
  | JSONResponse content => Requests.Answered content
  | StreamingResponse _ =>
      Requests.Failed (ValueError "Expecting value: line 1 column 1 (char 0)")
  end.

End Samples.

(** * Properties *)

(** ** The task manager *)

Module ManagerFacts.
Import Manager.

(** *** What the publishing primitives leave alone *)

Lemma put_nowait_queues update m q :
  queues (put_nowait update m q)
  = alter (λ items, items ++ [update]) q (queues m).
Proof. reflexivity. Qed.

Lemma broadcast_frame update qs m : frame (broadcast update qs m) = frame m.
Proof.
  revert m. induction qs as [|q qs IH]; intros m; [reflexivity|].
  cbn [broadcast foldl]. fold (broadcast update qs (put_nowait update m q)).
  rewrite IH. reflexivity.
Qed.

Lemma broadcast_tasks update qs m : tasks (broadcast update qs m) = tasks m.
Proof. pose proof (broadcast_frame update qs m) as E. unfold frame in E. congruence. Qed.

(** A broadcast puts the event once at the tail of every queue of the list
    and touches no other queue. *)
Lemma broadcast_queues update qs m q :
  NoDup qs →
  queues (broadcast update qs m) !! q
  = if decide (q ∈ qs) then (λ items, items ++ [update]) <$> queues m !! q
    else queues m !! q.
Proof.
  revert m. induction qs as [|q' qs IH]; intros m Hnd.
  - cbn. case_decide as Hin; [by apply elem_of_nil in Hin | done].
  - apply NoDup_cons in Hnd as [Hnotin Hnd].
    cbn [broadcast foldl]. fold (broadcast update qs (put_nowait update m q')).
    rewrite IH by done. rewrite put_nowait_queues.
    destruct (decide (q = q')) as [->|Hne].
    + rewrite lookup_alter_eq.
      rewrite (decide_False (P := q' ∈ qs)) by done.
      rewrite (decide_True (P := q' ∈ q' :: qs)) by apply list_elem_of_here. done.
    + rewrite lookup_alter_ne by done.
      destruct (decide (q ∈ qs)) as [Hin|Hin].
      * rewrite (decide_True (P := q ∈ q' :: qs)) by (by apply list_elem_of_further).
        done.
      * rewrite (decide_False (P := q ∈ q' :: qs))
          by (by intros [?|?]%elem_of_cons).
        done.
Qed.

Lemma _send_status_update_frame task m :
  frame (_send_status_update task m) = frame m.
Proof.
  unfold _send_status_update.
  destruct (supports_streaming m), (task_streams m !! task_id task);
    try reflexivity.
  apply broadcast_frame.
Qed.

Lemma _send_status_update_queues task m q :
  NoDup (subscribers (task_id task) m) →
  queues (_send_status_update task m) !! q
  = if decide (q ∈ subscribers (task_id task) m)
    then (λ items, items ++ [StatusEvent (status_event task)]) <$> queues m !! q
    else queues m !! q.
Proof.
  unfold _send_status_update, subscribers.
  destruct (supports_streaming m), (task_streams m !! task_id task) as [qs|];
    cbn; intros Hnd;
    try (rewrite decide_False by apply not_elem_of_nil; done).
  by apply broadcast_queues.
Qed.

Lemma wf_subscribers_nodup task_id m : wf m → NoDup (subscribers task_id m).
Proof.
  intros Hwf. unfold subscribers.
  destruct (supports_streaming m); [|constructor].
  destruct (task_streams m !! task_id) as [qs|] eqn:E; [|constructor].
  by eapply wf_nodup.
Qed.

(** *** The invariant [wf] *)

Lemma wf_init processor streaming push :
  (∀ f params updated_task,
     processor = Some f →
     proc_outcome (f params) = Returns updated_task →
     task_id updated_task = sp_id params) →
  wf (init processor streaming push).
Proof.
  intros Hproc. split; cbn.
  - intros key task H. by rewrite lookup_empty in H.
  - intros key qs H. by rewrite lookup_empty in H.
  - intros key qs q H. by rewrite lookup_empty in H.
  - intros f params t Hf. by apply Hproc.
Qed.

(** [wf] reads the tasks, the subscriber lists, the queue counter and the
    callback only. *)
Lemma wf_same m m' :
  tasks m' = tasks m →
  task_streams m' = task_streams m →
  next_queue m' = next_queue m →
  task_processor m' = task_processor m →
  wf m → wf m'.
Proof.
  intros Ht Hs Hn Hp [H1 H2 H3 H4].
  split; rewrite ?Ht, ?Hs, ?Hn, ?Hp; assumption.
Qed.

Lemma wf_frame m m' : frame m' = frame m → wf m → wf m'.
Proof.
  unfold frame. intros E. simplify_eq. by apply wf_same.
Qed.

Lemma wf_store key task m :
  task_id task = key → wf m → wf (set_tasks <[key := task]> m).
Proof.
  intros Hid [H1 H2 H3 H4]. split; cbn; try assumption.
  intros key' task' Hl.
  destruct (decide (key = key')) as [->|Hne].
  - rewrite lookup_insert_eq in Hl. by simplify_eq.
  - rewrite lookup_insert_ne in Hl by done. by apply H1.
Qed.

Lemma wf_tick m : wf m → wf (tick m).
Proof. by apply wf_same. Qed.

Lemma wf_set_push f m : wf m → wf (set_push_notifications f m).
Proof. by apply wf_same. Qed.


Lemma wf_reset_stream key m :
  wf m → wf (set_task_streams <[key := []]> m).
Proof.
  intros [H1 H2 H3 H4]. split; cbn; try assumption.
  - intros key' qs Hl.
    destruct (decide (key = key')) as [->|Hne].
    + rewrite lookup_insert_eq in Hl. simplify_eq. constructor.
    + rewrite lookup_insert_ne in Hl by done. by eapply H2.
  - intros key' qs q Hl Hin.
    destruct (decide (key = key')) as [->|Hne].
    + rewrite lookup_insert_eq in Hl. simplify_eq. by apply elem_of_nil in Hin.
    + rewrite lookup_insert_ne in Hl by done. by eapply H3.
Qed.

Lemma wf_send_status_update task m : wf m → wf (_send_status_update task m).
Proof. apply wf_frame, _send_status_update_frame. Qed.

Lemma frame_config m m' : frame m' = frame m → config m' = config m.
Proof. unfold frame, config. intros E. simplify_eq. congruence. Qed.


Lemma send_artifact_update_config task_id artifact final m :
  config (send_artifact_update task_id artifact final m) = config m.
Proof.
  unfold send_artifact_update.
  destruct (supports_streaming m) eqn:Es; [|done].
  destruct (task_streams m !! task_id) as [qs|]; [|done].
  destruct (tasks m !! task_id) as [task|]; [|done].
  match goal with
  | |- context [broadcast ?u ?qs ?m0] =>
      pose proof (broadcast_frame u qs m0) as E
  end.
  by apply frame_config in E.
Qed.

(** The tasks after an artifact update: the task under [task_id] gets the
    merged artifact list when the update is accepted, nothing else moves. *)
Lemma send_artifact_update_tasks task_id artifact final m :
  tasks (send_artifact_update task_id artifact final m)
  = match subscribers_known task_id m, tasks m !! task_id with
    | true, Some task =>
        <[task_id := with_artifacts
                       (merge_artifact (default [] (task_artifacts task)) artifact)
                       task]> (tasks m)
    | _, _ => tasks m
    end.
Proof.
  unfold send_artifact_update, subscribers_known.
  destruct (supports_streaming m); [|done].
  destruct (task_streams m !! task_id) as [qs|]; [|done].
  destruct (tasks m !! task_id) as [task|]; [|done].
  cbn. by rewrite broadcast_tasks.
Qed.

Lemma wf_send_artifact_update task_id artifact final m :
  wf m → wf (send_artifact_update task_id artifact final m).
Proof.
  intros Hwf.
  pose proof (send_artifact_update_config task_id artifact final m) as E.
  pose proof (send_artifact_update_tasks task_id artifact final m) as Et.
  unfold config in E. simplify_eq.
  destruct (subscribers_known task_id m), (tasks m !! task_id) as [task|] eqn:El;
    try (by eapply wf_same).
  eapply (wf_same (set_tasks <[task_id := _]> m));
    [exact Et|done|done|done|].
  apply wf_store; [|done]. cbn. by eapply wf_keyed.
Qed.

Lemma run_proc_artifacts_cons c l m :
  run_proc_artifacts (c :: l) m
  = run_proc_artifacts l (send_artifact_update c.1.1 c.1.2 c.2 m).
Proof. reflexivity. Qed.

Lemma wf_run_proc_artifacts l m : wf m → wf (run_proc_artifacts l m).
Proof.
  revert m. induction l as [|c l IH]; intros m Hwf; [done|].
  rewrite run_proc_artifacts_cons. apply IH. by apply wf_send_artifact_update.
Qed.

Lemma run_proc_artifacts_config l m :
  config (run_proc_artifacts l m) = config m.
Proof.
  revert m. induction l as [|c l IH]; intros m; [done|].
  rewrite run_proc_artifacts_cons, IH. apply send_artifact_update_config.
Qed.

(** An artifact update changes no field of a stored task but its
    artifacts. *)
Lemma same_but_artifacts_refl t : same_but_artifacts t t.
Proof. by repeat split. Qed.

Lemma same_but_artifacts_trans t1 t2 t3 :
  same_but_artifacts t1 t2 → same_but_artifacts t2 t3 →
  same_but_artifacts t1 t3.
Proof.
  unfold same_but_artifacts. intros (?&?&?&?&?) (?&?&?&?&?).
  repeat split; congruence.
Qed.

Lemma send_artifact_update_task key task task_id artifact final m :
  tasks m !! key = Some task →
  ∃ task', tasks (send_artifact_update task_id artifact final m) !! key
           = Some task'
           ∧ same_but_artifacts task task'.
Proof.
  intros Hl. rewrite send_artifact_update_tasks.
  destruct (subscribers_known task_id m);
    [|exists task; split; [done|apply same_but_artifacts_refl]].
  destruct (tasks m !! task_id) as [t|] eqn:Et;
    [|exists task; split; [done|apply same_but_artifacts_refl]].
  destruct (decide (task_id = key)) as [->|Hne].
  - rewrite lookup_insert_eq. simplify_eq. eexists. split; [done|].
    by repeat split.
  - rewrite lookup_insert_ne by done.
    exists task; split; [done|apply same_but_artifacts_refl].
Qed.

Lemma run_proc_artifacts_task key task l m :
  tasks m !! key = Some task →
  ∃ task', tasks (run_proc_artifacts l m) !! key = Some task'
           ∧ same_but_artifacts task task'.
Proof.
  revert m task. induction l as [|c l IH]; intros m task Hl.
  - exists task. split; [done|apply same_but_artifacts_refl].
  - rewrite run_proc_artifacts_cons.
    destruct (send_artifact_update_task key task c.1.1 c.1.2 c.2 m Hl)
      as (t1 & Hl1 & Hs1).
    destruct (IH _ _ Hl1) as (t2 & Hl2 & Hs2).
    exists t2. split; [done|]. by eapply same_but_artifacts_trans.
Qed.

Lemma return_stored_found key task m :
  tasks m !! key = Some task → return_stored key m = (m, Ok task).
Proof. intros H. unfold return_stored. by rewrite H. Qed.

Lemma wf_return_stored key m : wf m → wf (return_stored key m).1.
Proof. unfold return_stored. by destruct (tasks m !! key). Qed.

Lemma wf_set_status key status m : wf m → wf (set_status key status m).
Proof.
  intros Hwf. unfold set_status.
  destruct (tasks m !! key) as [task|] eqn:El; [|done].
  apply wf_send_status_update, wf_store; [|done]. cbn. by eapply wf_keyed.
Qed.

Lemma wf_submit params m : wf m → wf (submit params m).
Proof.
  intros Hwf. unfold submit, _get_iso_timestamp.
  set (m1 := set_tasks _ (tick m)).
  assert (wf m1) as Hwf1 by (apply wf_store; [done|by apply wf_tick]).
  clearbody m1.
  set (m2 := if supports_streaming m1 then _ else m1).
  assert (wf m2) as Hwf2.
  { subst m2. destruct (supports_streaming m1); [|done].
    by apply wf_reset_stream. }
  clearbody m2.
  destruct (sp_pushNotification params); [|done].
  destruct (supports_push_notifications m2); [|done]. by apply wf_set_push.
Qed.

Lemma wf_create_task params m : wf m → wf (create_task params m).1.
Proof.
  intros Hwf%(wf_submit params). unfold create_task.
  set (m1 := submit params m) in *. clearbody m1.
  destruct (task_processor m1) as [processor|] eqn:Ep;
    [|by apply wf_return_stored].
  unfold _get_iso_timestamp.
  set (m2 := run_proc_artifacts _ _).
  assert (wf m2) as Hwf2
    by (by apply wf_run_proc_artifacts, wf_set_status, wf_tick).
  destruct (proc_outcome (processor params)) as [updated_task|e_str] eqn:Eo.
  - apply wf_return_stored, wf_send_status_update, wf_store; [|done].
    eapply (wf_processor m1); done.
  - by apply wf_return_stored, wf_set_status, wf_tick.
Qed.



(** *** The sample managers are well formed *)

Lemma wf_m_submitted : wf Samples.m_submitted.
Proof. apply wf_create_task, wf_init. intros ? ? ? [=]. Qed.

Lemma wf_m_completed : wf Samples.m_completed.
Proof.
  apply wf_create_task, wf_init. intros f params t [= <-] [= <-]. done.
Qed.


(** *** [create_task] step by step *)

Lemma set_status_found key status task m :
  tasks m !! key = Some task →
  set_status key status m
  = _send_status_update (with_status status task)
      (set_tasks <[key := with_status status task]> m).
Proof. intros H. unfold set_status. by rewrite H. Qed.

Lemma set_status_config key status m :
  config (set_status key status m) = config m.
Proof.
  unfold set_status. destruct (tasks m !! key) as [task|]; [|done].
  match goal with
  | |- config (_send_status_update ?t ?m0) = _ =>
      rewrite (frame_config _ _ (_send_status_update_frame t m0))
  end.
  done.
Qed.

Lemma _send_status_update_tasks task m :
  tasks (_send_status_update task m) = tasks m.
Proof.
  pose proof (_send_status_update_frame task m) as E.
  unfold frame in E. by simplify_eq.
Qed.

(** The cases of [submit]: streaming or not, a push notification
    configuration or not, supported or not. *)
Ltac submit_cases m params :=
  unfold submit, _get_iso_timestamp; cbn;
  destruct (supports_streaming m) eqn:?; cbn;
  destruct (sp_pushNotification params); cbn;
  try (destruct (supports_push_notifications m) eqn:?; cbn).

Lemma submit_processor params m :
  task_processor (submit params m) = task_processor m.
Proof. submit_cases m params; done. Qed.

Lemma submit_task params m :
  ∃ task, tasks (submit params m) !! sp_id params = Some task
          ∧ task_id task = sp_id params.
Proof. eexists. submit_cases m params; rewrite lookup_insert_eq; done. Qed.




(** *** [get_task] *)

(** C4 fails on the code.  [get_task] does not look at the history length:
    whatever it is, the answer is the one for an absent history length, the
    stored task with its whole history.  Task "t1" of the sample manager has
    a history of three messages; [get_task] returns all three of them for a
    history length of 1, and for a history length of 0. *)
Theorem get_task_history_not_truncated :
  let history_of (r : Result Task) :=
    match r with Ok task => task_history task | Raise _ => None end in
  (∀ task_id history_length m,
     get_task task_id history_length m = get_task task_id None m)
  ∧ length <$> history_of (get_task "t1" (Some 1%Z) Samples.m_completed).2
    = Some 3
  ∧ length <$> history_of (get_task "t1" (Some 0%Z) Samples.m_completed).2
    = Some 3
  ∧ history_of (get_task "t1" (Some 1%Z) Samples.m_completed).2
    = history_of (get_task "t1" None Samples.m_completed).2.
Proof. split; [done|by vm_compute]. Qed.

(** *** The merge of an artifact update *)

Lemma merge_artifact_fresh l artifact :
  art_index artifact ∉ art_index <$> l →
  merge_artifact l artifact = l ++ [artifact].
Proof.
  unfold merge_artifact.
  assert (art_index artifact ∉ art_index <$> l →
          merge_loop l artifact = (l, false)) as H.
  { induction l as [|existing l IH]; [done|]. cbn. intros Hnotin.
    apply not_elem_of_cons in Hnotin as [Hne Hnotin].
    rewrite (proj2 (Z.eqb_neq _ _)) by done. by rewrite IH. }
  intros Hnotin. by rewrite H.
Qed.

Lemma merge_artifact_found pre existing post artifact :
  art_index artifact ∉ art_index <$> pre →
  art_index existing = art_index artifact →
  merge_artifact (pre ++ existing :: post) artifact
  = pre ++ match art_append artifact with
           | Some true => extend_parts existing artifact
           | _ => artifact
           end :: post.
Proof.
  unfold merge_artifact. intros Hnotin Heq.
  assert (merge_loop (pre ++ existing :: post) artifact
          = (pre ++ match art_append artifact with
                    | Some true => extend_parts existing artifact
                    | _ => artifact
                    end :: post, true)) as ->; [|done].
  induction pre as [|x pre IH]; cbn.
  - rewrite (proj2 (Z.eqb_eq _ _)) by done.
    by destruct (art_append artifact) as [[]|].
  - apply not_elem_of_cons in Hnotin as [Hne Hnotin].
    rewrite (proj2 (Z.eqb_neq _ _)) by done. by rewrite IH.
Qed.

(** Where the first artifact with a given index stands. *)
Lemma first_with_index (i : Z) (l : list Artifact) :
  i ∈ art_index <$> l →
  ∃ pre existing post,
    l = pre ++ existing :: post ∧ art_index existing = i
    ∧ i ∉ art_index <$> pre.
Proof.
  induction l as [|x l IH]; cbn; intros Hin; [by apply elem_of_nil in Hin|].
  destruct (decide (art_index x = i)) as [Heq|Hne].
  - exists [], x, l. split; [done|]. split; [done|]. apply not_elem_of_nil.
  - apply elem_of_cons in Hin as [Heq|Hin]; [done|].
    destruct (IH Hin) as (pre & existing & post & -> & Hi & Hnotin).
    exists (x :: pre), existing, post. split; [done|]. split; [done|].
    cbn. apply not_elem_of_cons. by split.
Qed.

(** The indices stored after a merge: the same, or one more at the end. *)
Lemma merge_artifact_indices l artifact :
  art_index <$> merge_artifact l artifact
  = if decide (art_index artifact ∈ art_index <$> l)
    then art_index <$> l
    else (art_index <$> l) ++ [art_index artifact].
Proof.
  case_decide as Hin.
  - destruct (first_with_index _ _ Hin)
      as (pre & existing & post & -> & Hi & Hnotin).
    rewrite merge_artifact_found by done.
    rewrite !fmap_app, !fmap_cons. do 2 f_equal.
    by destruct (art_append artifact) as [[]|].
  - rewrite merge_artifact_fresh by done. by rewrite fmap_app.
Qed.

Lemma merge_artifact_nodup l artifact :
  NoDup (art_index <$> l) → NoDup (art_index <$> merge_artifact l artifact).
Proof.
  intros Hnd. rewrite merge_artifact_indices. case_decide as Hin; [done|].
  apply NoDup_app. split; [done|]. split.
  - intros i Hi [->|Hnil%elem_of_nil]%elem_of_cons; done.
  - apply NoDup_singleton.
Qed.

Lemma send_artifact_update_accepted task_id qs task artifact final m :
  supports_streaming m = true →
  task_streams m !! task_id = Some qs →
  tasks m !! task_id = Some task →
  tasks (send_artifact_update task_id artifact final m) !! task_id
  = Some (with_artifacts
            (merge_artifact (default [] (task_artifacts task)) artifact) task).
Proof.
  intros Hs Hq Ht. rewrite send_artifact_update_tasks.
  unfold subscribers_known. rewrite Hs, Hq, Ht. cbn.
  apply lookup_insert_eq.
Qed.

Lemma filter_index_others (i : Z) (l : list Artifact) :
  i ∉ art_index <$> l → filter (λ a, art_index a = i) l = [].
Proof.
  induction l as [|x l IH]; [done|]. rewrite fmap_cons.
  intros [Hne Hnotin]%not_elem_of_cons.
  rewrite filter_cons_False by done. by apply IH.
Qed.

(** C5, as the code has it.  On a manager that supports streaming, for a
    known task with a subscriber list whose stored artifacts have distinct
    indices: an update leaves the stored indices distinct; an update whose
    index is that of a stored artifact puts, at the place of that artifact,
    the update itself, or with [append] the stored artifact with the parts
    of the update after its own; and after an update without [append]
    followed by an update with [append] at the same index, the one stored
    artifact with that index has the parts of the first update followed by
    those of the second. *)
Theorem artifact_update_merges task_id qs task artifact final m :
  supports_streaming m = true →
  task_streams m !! task_id = Some qs →
  tasks m !! task_id = Some task →
  NoDup (artifact_indices task) →
  ∃ task',
    tasks (send_artifact_update task_id artifact final m) !! task_id
    = Some task'
    ∧ NoDup (artifact_indices task')
    ∧ (∀ pre existing post,
         default [] (task_artifacts task) = pre ++ existing :: post →
         art_index existing = art_index artifact →
         task_artifacts task'
         = Some (pre ++ match art_append artifact with
                        | Some true => extend_parts existing artifact
                        | _ => artifact
                        end :: post))
    ∧ (∀ second final',
         art_append artifact ≠ Some true →
         art_append second = Some true →
         art_index second = art_index artifact →
         ∃ task'' stored,
           tasks (send_artifact_update task_id second final'
                    (send_artifact_update task_id artifact final m))
             !! task_id = Some task''
           ∧ filter (λ a, art_index a = art_index artifact)
               (default [] (task_artifacts task'')) = [stored]
           ∧ art_parts stored = art_parts artifact ++ art_parts second).
Proof.
  intros Hs Hq Ht Hnd.
  pose proof (send_artifact_update_accepted _ _ _ artifact final _ Hs Hq Ht)
    as Ht1.
  set (l := default [] (task_artifacts task)) in *.
  eexists. split; [exact Ht1|].
  split; [by apply merge_artifact_nodup|].
  split.
  - intros pre existing post Hl Hidx. cbn. f_equal.
    rewrite Hl. apply merge_artifact_found; [|done].
    unfold artifact_indices in Hnd. fold l in Hnd. rewrite Hl in Hnd.
    rewrite fmap_app, fmap_cons, Hidx in Hnd.
    apply NoDup_app in Hnd as (_ & Hdisj & _).
    intros Hin. apply (Hdisj _ Hin), list_elem_of_here.
  - intros second final' Happend Happend2 Hidx2.
    set (m1 := send_artifact_update task_id artifact final m) in *.
    pose proof (send_artifact_update_config task_id artifact final m) as Ec.
    fold m1 in Ec. unfold config in Ec.
    assert (supports_streaming m1 = true) as Hs1 by (simplify_eq; congruence).
    assert (task_streams m1 !! task_id = Some qs) as Hq1
      by (simplify_eq; congruence).
    clear Ec.
    pose proof (send_artifact_update_accepted _ _ _ second final' _
                  Hs1 Hq1 Ht1) as Ht2.
    cbn [with_artifacts task_artifacts default] in Ht2.
    (* the first update stands in the stored list, alone with its index *)
    assert (∃ pre post,
              merge_artifact l artifact = pre ++ artifact :: post
              ∧ (art_index artifact ∉ art_index <$> pre)
              ∧ (art_index artifact ∉ art_index <$> post))
      as (pre & post & Hl1 & Hpre & Hpost).
    { destruct (decide (art_index artifact ∈ art_index <$> l)) as [Hin|Hin].
      - destruct (first_with_index _ _ Hin)
          as (pre & existing & post & Hl & Hi & Hnotin).
        exists pre, post. split; [|split; [done|]].
        + rewrite Hl, merge_artifact_found by done.
          by destruct (art_append artifact) as [[]|].
        + unfold artifact_indices in Hnd. fold l in Hnd. rewrite Hl in Hnd.
          rewrite fmap_app, fmap_cons, Hi in Hnd.
          apply NoDup_app in Hnd as (_ & _ & Hnd).
          by apply NoDup_cons in Hnd as [? _].
      - exists l, []. split; [by apply merge_artifact_fresh|].
        split; [done|apply not_elem_of_nil]. }
    rewrite Hl1 in Ht2. unfold id in Ht2.
    rewrite merge_artifact_found in Ht2 by (by rewrite ?Hidx2).
    rewrite Happend2 in Ht2.
    eexists _, (extend_parts artifact second). split; [exact Ht2|].
    split; [|done]. cbn.
    rewrite filter_app, filter_cons_True by done.
    by rewrite !filter_index_others.
Qed.

Lemma artifact_update_merges_witness :
  let first := Samples.text_artifact 0 None "first" in
  let second := Samples.text_artifact 0 (Some true) "second" in
  ∃ task',
    tasks (send_artifact_update "t1" first false Samples.m_completed) !! "t1"
    = Some task'
    ∧ NoDup (artifact_indices task')
    ∧ task_artifacts task' = Some [first]
    ∧ ∃ task'' stored,
        tasks (send_artifact_update "t1" second false
                 (send_artifact_update "t1" first false Samples.m_completed))
          !! "t1" = Some task''
        ∧ filter (λ a, art_index a = 0%Z) (default [] (task_artifacts task''))
          = [stored]
        ∧ art_parts stored = [TextPart "first" None; TextPart "second" None].
Proof.
  cbv zeta.
  assert (tasks Samples.m_completed !! "t1"
          = Some (Samples.completed_task
                    (Samples.send_params "t1" "convert this code"))) as Hl
    by (by vm_compute).
  destruct (artifact_update_merges "t1" []
              (Samples.completed_task
                 (Samples.send_params "t1" "convert this code"))
              (Samples.text_artifact 0 None "first") false
              Samples.m_completed)
    as (task' & H1 & H2 & H3 & H4);
    [reflexivity|by vm_compute|exact Hl|by apply NoDup_singleton|].
  exists task'. split; [exact H1|]. split; [exact H2|]. split.
  - apply (H3 [] (Samples.text_artifact 0 None "done") []); reflexivity.
  - apply (H4 (Samples.text_artifact 0 (Some true) "second") false);
      [discriminate|reflexivity|reflexivity].
Defined.

(** C5, as the specification has it, fails on a manager that does not
    support streaming: [send_artifact_update] returns at its first test, so
    after an update without [append] and one with [append] at index 0 the
    task still stores what it stored before. *)
Lemma artifact_update_counterexample :
  let first := Samples.text_artifact 0 None "first" in
  let second := Samples.text_artifact 0 (Some true) "second" in
  let m2 :=
    send_artifact_update "t1" second false
      (send_artifact_update "t1" first false Samples.m_push) in
  supports_streaming Samples.m_push = false
  ∧ task_artifacts <$> tasks Samples.m_push !! "t1"
    = Some (Some [Samples.text_artifact 0 None "done"])
  ∧ task_artifacts <$> tasks m2 !! "t1"
    = Some (Some [Samples.text_artifact 0 None "done"])
  ∧ art_parts (Samples.text_artifact 0 None "done")
    ≠ art_parts first ++ art_parts second.
Proof. cbv zeta. repeat split; by vm_compute. Qed.

(** *** What a stored task keeps *)

Lemma submit_other key params m :
  sp_id params ≠ key → tasks (submit params m) !! key = tasks m !! key.
Proof. intros Hne. submit_cases m params; by rewrite lookup_insert_ne. Qed.

Lemma set_status_other key key' status m :
  key' ≠ key → tasks (set_status key' status m) !! key = tasks m !! key.
Proof.
  intros Hne. unfold set_status.
  destruct (tasks m !! key') as [task|]; [|done].
  rewrite _send_status_update_tasks. cbn. by rewrite lookup_insert_ne.
Qed.

Lemma return_stored_state key m : (return_stored key m).1 = m.
Proof. unfold return_stored. by destruct (tasks m !! key). Qed.

Lemma create_task_other key task params m :
  sp_id params ≠ key →
  tasks m !! key = Some task →
  ∃ task', tasks (create_task params m).1 !! key = Some task'
           ∧ same_but_artifacts task task'.
Proof.
  intros Hne Hl. unfold create_task.
  rewrite <- (submit_other key params m Hne) in Hl.
  set (m1 := submit params m) in *. clearbody m1.
  destruct (task_processor m1) as [processor|].
  2:{ rewrite return_stored_state. exists task.
      split; [done|apply same_but_artifacts_refl]. }
  unfold _get_iso_timestamp.
  set (working := {| st_state := WORKING |}).
  assert (tasks (set_status (sp_id params) working (tick m1)) !! key
          = Some task) as Hl2 by (by rewrite set_status_other).
  destruct (run_proc_artifacts_task _ _ (proc_artifacts (processor params))
              _ Hl2) as (t3 & Hl3 & Hs3).
  set (m3 := run_proc_artifacts _ _) in *. clearbody m3.
  exists t3. split; [|done].
  destruct (proc_outcome (processor params)) as [updated_task|e_str];
    rewrite return_stored_state.
  - rewrite _send_status_update_tasks. cbn. by rewrite lookup_insert_ne.
  - by rewrite set_status_other.
Qed.

Lemma cancel_task_other key task_id m :
  task_id ≠ key → tasks (cancel_task task_id m).1 !! key = tasks m !! key.
Proof.
  intros Hne. unfold cancel_task.
  destruct (tasks m !! task_id) as [task|]; [|done].
  destruct (is_final_state _); [done|]. cbn.
  rewrite _send_status_update_tasks. cbn. by rewrite lookup_insert_ne.
Qed.

Lemma cancel_task_final task_id task m :
  tasks m !! task_id = Some task →
  is_final_state (st_state (task_status task)) = true →
  cancel_task task_id m
  = (m, Raise (ValueError
                 "Task is already in a final state and cannot be canceled")).
Proof. intros Hl Hf. unfold cancel_task. by rewrite Hl, Hf. Qed.

(** A call that is not [create_task] for the id of a terminal task leaves
    that task stored, with its status. *)
Lemma run_keeps_status key task c m :
  tasks m !! key = Some task →
  is_final_state (st_state (task_status task)) = true →
  recreates key c = false →
  ∃ task', tasks (run c m) !! key = Some task'
           ∧ same_but_artifacts task task'.
Proof.
  intros Hl Hf Hc.
  destruct c as [params|id hl|id|id config|id|id artifact final]; cbn.
  - apply create_task_other; [|done].
    cbn in Hc. by apply bool_decide_eq_false in Hc.
  - exists task. split; [|apply same_but_artifacts_refl].
    unfold get_task. by destruct (tasks m !! id).
  - exists task. split; [|apply same_but_artifacts_refl].
    destruct (decide (id = key)) as [->|Hne].
    + by rewrite (cancel_task_final _ _ _ Hl Hf).
    + by rewrite cancel_task_other.
  - exists task. split; [|apply same_but_artifacts_refl].
    unfold set_push_notification.
    destruct (supports_push_notifications m); [|done]. cbn.
    by destruct (tasks m !! id).
  - exists task. split; [|apply same_but_artifacts_refl].
    unfold get_push_notification.
    destruct (supports_push_notifications m); [|done]. cbn.
    destruct (tasks m !! id); [|done].
    by destruct (push_notifications m !! id).
  - by apply send_artifact_update_task.
Qed.

Lemma run_keeps_task key task c m :
  tasks m !! key = Some task →
  is_final_state (st_state (task_status task)) = true →
  may_store_artifacts c = false →
  tasks (run c m) !! key = Some task.
Proof.
  intros Hl Hf Hc.
  destruct c as [params|id hl|id|id config|id|id artifact final];
    try discriminate; cbn.
  - unfold get_task. by destruct (tasks m !! id).
  - destruct (decide (id = key)) as [->|Hne].
    + by rewrite (cancel_task_final _ _ _ Hl Hf).
    + by rewrite cancel_task_other.
  - unfold set_push_notification.
    destruct (supports_push_notifications m); [|done]. cbn.
    by destruct (tasks m !! id).
  - unfold get_push_notification.
    destruct (supports_push_notifications m); [|done]. cbn.
    destruct (tasks m !! id); [|done].
    by destruct (push_notifications m !! id).
Qed.

Lemma unsubscribe_tasks task_id queue m :
  tasks (unsubscribe task_id queue m).1 = tasks m.
Proof.
  unfold unsubscribe. destruct (task_streams m !! task_id) as [qs|]; [|done].
  by destruct (list_remove queue qs).
Qed.

Lemma unsubscribe_end task_id queue (yielded : list Event) m :
  (let '(m', r) := unsubscribe task_id queue m in (m', yielded, r)).1.1
  = (unsubscribe task_id queue m).1.
Proof. by destruct (unsubscribe task_id queue m). Qed.

Lemma listen_keeps_status key task task_id queue idle script m :
  tasks m !! key = Some task →
  is_final_state (st_state (task_status task)) = true →
  Forall (λ entry, recreates key entry.2 = false) script →
  ∃ task', tasks (listen task_id queue idle script m).1.1 !! key = Some task'
           ∧ same_but_artifacts task task'.
Proof.
  intros Hl Hf Hscript. revert task idle m Hl Hf.
  induction Hscript as [|[gap c] script Hc Hscript IH];
    intros task idle m Hl Hf; cbn [listen].
  - rewrite (unsubscribe_end task_id queue [] m), unsubscribe_tasks.
    exists task. split; [done|apply same_but_artifacts_refl].
  - destruct (IDLE_TIMEOUT <=? idle + gap).
    { rewrite (unsubscribe_end task_id queue [] m), unsubscribe_tasks.
      exists task. split; [done|apply same_but_artifacts_refl]. }
    destruct (run_keeps_status key task c m Hl Hf Hc) as (t1 & Hl1 & Hs1).
    destruct (until_final _) as [[yielded remaining] final].
    set (m1 := set_queues _ (run c m)).
    assert (tasks m1 !! key = Some t1) as Hl1' by done. clearbody m1.
    assert (is_final_state (st_state (task_status t1)) = true) as Hf1.
    { destruct Hs1 as (_ & _ & -> & _). done. }
    destruct final.
    + rewrite (unsubscribe_end task_id queue yielded m1), unsubscribe_tasks.
      by exists t1.
    + destruct (IH t1 (match yielded with [] => idle + gap | _ => 0 end)
                  m1 Hl1' Hf1) as (t2 & Hl2 & Hs2).
      destruct (listen task_id queue _ script m1) as [[m' later] r].
      exists t2. split; [done|]. by eapply same_but_artifacts_trans.
Qed.

Lemma get_task_stream_keeps_status key task task_id history_length script m :
  tasks m !! key = Some task →
  is_final_state (st_state (task_status task)) = true →
  Forall (λ entry, recreates key entry.2 = false) script →
  ∃ task',
    tasks (get_task_stream task_id history_length script m).1.1 !! key
    = Some task'
    ∧ same_but_artifacts task task'.
Proof.
  intros Hl Hf Hscript. unfold get_task_stream.
  destruct (supports_streaming m); cbn;
    [|exists task; split; [done|apply same_but_artifacts_refl]].
  destruct (tasks m !! task_id) as [t|];
    [|exists task; split; [done|apply same_but_artifacts_refl]].
  destruct (is_final_state (st_state (task_status t))).
  - rewrite (unsubscribe_end task_id (next_queue m)
               (StatusEvent (status_event t) :: artifact_replay t)
               (subscribed task_id m)), unsubscribe_tasks.
    exists task. split; [done|apply same_but_artifacts_refl].
  - destruct (listen_keeps_status key task task_id (next_queue m) 0 script
                (subscribed task_id m)) as (t2 & Hl2 & Hs2); [done..|].
    destruct (listen task_id (next_queue m) 0 script (subscribed task_id m))
      as [[m' later] r].
    by exists t2.
Qed.

(** C1, as the code has it.  Once a task is in a terminal state:
    [cancel_task] on it raises and changes nothing in the manager; no call
    other than [create_task] with the id of the task changes the status of
    the task; no call other than [create_task] and [send_artifact_update]
    changes the task at all; and a subscription, whatever happens during it
    short of such a [create_task], leaves the status of the task as it
    was. *)
Theorem terminal_task_kept key task m :
  tasks m !! key = Some task →
  is_final_state (st_state (task_status task)) = true →
  cancel_task key m
  = (m, Raise (ValueError
                 "Task is already in a final state and cannot be canceled"))
  ∧ (∀ c, recreates key c = false →
          ∃ task', tasks (run c m) !! key = Some task'
                   ∧ task_status task' = task_status task)
  ∧ (∀ c, may_store_artifacts c = false → tasks (run c m) !! key = Some task)
  ∧ (∀ task_id history_length script,
       Forall (λ entry, recreates key entry.2 = false) script →
       ∃ task',
         tasks (get_task_stream task_id history_length script m).1.1 !! key
         = Some task'
         ∧ task_status task' = task_status task).
Proof.
  intros Hl Hf. split; [by apply (cancel_task_final _ task)|]. split; [|split].
  - intros c Hc.
    destruct (run_keeps_status key task c m Hl Hf Hc)
      as (task' & Hl' & _ & _ & Hs & _).
    by exists task'.
  - intros c Hc. by apply run_keeps_task.
  - intros task_id history_length script Hscript.
    destruct (get_task_stream_keeps_status key task task_id history_length
                script m Hl Hf Hscript) as (task' & Hl' & _ & _ & Hs & _).
    by exists task'.
Qed.

Lemma terminal_task_kept_witness :
  let task :=
    Samples.completed_task (Samples.send_params "t1" "convert this code") in
  let late := Samples.text_artifact 1 None "late" in
  cancel_task "t1" Samples.m_completed
  = (Samples.m_completed,
     Raise (ValueError
              "Task is already in a final state and cannot be canceled"))
  ∧ (∃ task',
       tasks (run (SendArtifactUpdate "t1" late true) Samples.m_completed)
         !! "t1" = Some task'
       ∧ task_status task' = task_status task)
  ∧ tasks (run (GetTask "t1" (Some 0%Z)) Samples.m_completed) !! "t1"
    = Some task
  ∧ ∃ task',
      tasks (get_task_stream "t1" None [(1, CancelTask "t1")]
               Samples.m_completed).1.1 !! "t1" = Some task'
      ∧ task_status task' = task_status task.
Proof.
  cbv zeta.
  destruct (terminal_task_kept "t1"
              (Samples.completed_task
                 (Samples.send_params "t1" "convert this code"))
              Samples.m_completed) as (H1 & H2 & H3 & H4);
    [by vm_compute|reflexivity|].
  split; [exact H1|]. split; [by apply H2|]. split; [by apply H3|].
  apply H4. by repeat constructor.
Defined.

(** C1, as the specification has it, fails.  Task "t1" is canceled;
    [create_task] with the same id stores it anew in the state SUBMITTED,
    and [send_artifact_update] adds an artifact to the canceled task. *)
Lemma terminal_task_counterexample :
  let state_of (m : InMemoryTaskManager) :=
    st_state ∘ task_status <$> tasks m !! "t1" in
  let artifacts_of (m : InMemoryTaskManager) :=
    task_artifacts <$> tasks m !! "t1" in
  let late := Samples.text_artifact 0 None "late" in
  state_of Samples.m_canceled = Some CANCELED
  ∧ state_of (create_task (Samples.send_params "t1" "again")
                Samples.m_canceled).1 = Some SUBMITTED
  ∧ artifacts_of Samples.m_canceled = Some (Some [])
  ∧ artifacts_of (send_artifact_update "t1" late false Samples.m_canceled)
    = Some (Some [late]).
Proof. cbv zeta. repeat split; by vm_compute. Qed.

(** *** Subscriptions *)

Lemma cancel_task_active key task m :
  tasks m !! key = Some task →
  is_final_state (st_state (task_status task)) = false →
  cancel_task key m
  = (_send_status_update (with_status (canceled (clock m)) task)
       (set_tasks <[key := with_status (canceled (clock m)) task]> (tick m)),
     Ok (with_status (canceled (clock m)) task)).
Proof. intros Hl Hf. unfold cancel_task. by rewrite Hl, Hf. Qed.


(** **** What the steps of a call leave of a subscription *)












Lemma submit_streams params m :
  supports_streaming (submit params m) = supports_streaming m
  ∧ task_streams (submit params m)
    = if supports_streaming m
      then <[sp_id params := []]> (task_streams m) else task_streams m.
Proof. submit_cases m params; done. Qed.








(** **** What a call puts on the queue of a listener *)


(** **** The queues have no part in the rest *)













(** **** What is heard *)


Lemma list_remove_elem q qs : q ∈ qs → is_Some (list_remove q qs).
Proof.
  induction qs as [|q' qs IH]; intros Hin; [by apply elem_of_nil in Hin|].
  cbn. case_decide as Heq; [by eexists|].
  apply elem_of_cons in Hin as [?|Hin]; [done|].
  destruct (IH Hin) as [l ->]. by eexists.
Qed.












(** A subscription during which the task is created anew is outside the
    statement above: [create_task] replaces the subscriber list of the task
    by an empty one, the listener hears nothing more, and when its wait
    times out the [finally] block raises. *)
Example get_task_stream_recreated :
  let script := [(1, CreateTask (Samples.send_params "t1" "again"))] in
  (get_task_stream "t1" None script Samples.m_submitted).2
  = Raise (ValueError "list.remove(x): x not in list").
Proof. by vm_compute. Qed.

(** *** The manager over a run of operations *)





(** *** Push notification configurations *)

(** X2.  On a manager with push notifications, setting the configuration
    of a known task returns it, [get_push_notification] then returns the
    same configuration, and neither the tasks nor the configurations of
    the other tasks have changed. *)
Theorem push_notification_round_trip task_id config task m :
  supports_push_notifications m = true →
  tasks m !! task_id = Some task →
  ∃ m',
    set_push_notification task_id config m
    = (m', Ok {| tpn_id := task_id; tpn_pushNotification := config |})
    ∧ get_push_notification task_id m'
      = (m', Ok {| tpn_id := task_id; tpn_pushNotification := config |})
    ∧ tasks m' = tasks m
    ∧ ∀ other,
        other ≠ task_id →
        push_notifications m' !! other = push_notifications m !! other.
Proof.
  intros Hpush Hl. eexists. unfold set_push_notification.
  rewrite Hpush, Hl. cbn. split; [reflexivity|].
  unfold get_push_notification. cbn. rewrite Hpush, Hl. cbn.
  rewrite lookup_insert_eq. split; [done|]. split; [done|].
  intros other Hne. by rewrite lookup_insert_ne.
Qed.

Lemma push_notification_round_trip_witness :
  let config :=
    {| pn_url := "https://example.org/hook"; pn_token := Some "s3cret";
       pn_authentication := None |} in
  ∃ m',
    set_push_notification "t1" config Samples.m_push
    = (m', Ok {| tpn_id := "t1"; tpn_pushNotification := config |})
    ∧ get_push_notification "t1" m'
      = (m', Ok {| tpn_id := "t1"; tpn_pushNotification := config |})
    ∧ tasks m' = tasks Samples.m_push
    ∧ ∀ other,
        other ≠ "t1" →
        push_notifications m' !! other
        = push_notifications Samples.m_push !! other.
Proof.
  cbv zeta.
  destruct (tasks Samples.m_push !! "t1") as [task|] eqn:Hl;
    [|by vm_compute in Hl].
  exact (push_notification_round_trip "t1" _ task Samples.m_push eq_refl Hl).
Defined.

Lemma config_push m m' :
  config m' = config m →
  push_notifications m' = push_notifications m
  ∧ supports_push_notifications m' = supports_push_notifications m.
Proof. unfold config. intros E. by simplify_eq. Qed.

Lemma create_task_push params m :
  push_notifications (create_task params m).1
  = push_notifications (submit params m).
Proof.
  unfold create_task. set (m1 := submit params m). clearbody m1.
  destruct (task_processor m1) as [processor|];
    [|by rewrite return_stored_state].
  unfold _get_iso_timestamp.
  destruct (proc_outcome (processor params)) as [updated_task|e_str];
    rewrite return_stored_state.
  - rewrite (proj1 (config_push _ _
                      (frame_config _ _ (_send_status_update_frame _ _)))).
    cbn. rewrite (proj1 (config_push _ _ (run_proc_artifacts_config _ _))).
    by rewrite (proj1 (config_push _ _ (set_status_config _ _ _))).
  - rewrite (proj1 (config_push _ _ (set_status_config _ _ _))). cbn.
    rewrite (proj1 (config_push _ _ (run_proc_artifacts_config _ _))).
    by rewrite (proj1 (config_push _ _ (set_status_config _ _ _))).
Qed.

Lemma create_task_supports_push params m :
  supports_push_notifications (create_task params m).1
  = supports_push_notifications m.
Proof.
  unfold create_task.
  assert (supports_push_notifications (submit params m)
          = supports_push_notifications m) as <-
    by (submit_cases m params; done).
  set (m1 := submit params m). clearbody m1.
  destruct (task_processor m1) as [processor|];
    [|by rewrite return_stored_state].
  unfold _get_iso_timestamp.
  destruct (proc_outcome (processor params)) as [updated_task|e_str];
    rewrite return_stored_state.
  - rewrite (proj2 (config_push _ _
                      (frame_config _ _ (_send_status_update_frame _ _)))).
    cbn. rewrite (proj2 (config_push _ _ (run_proc_artifacts_config _ _))).
    by rewrite (proj2 (config_push _ _ (set_status_config _ _ _))).
  - rewrite (proj2 (config_push _ _ (set_status_config _ _ _))). cbn.
    rewrite (proj2 (config_push _ _ (run_proc_artifacts_config _ _))).
    by rewrite (proj2 (config_push _ _ (set_status_config _ _ _))).
Qed.

(** [create_task] raises nothing: it returns the task it leaves under the
    id of the call. *)
Lemma create_task_returns params m :
  ∃ task,
    create_task params m = ((create_task params m).1, Ok task)
    ∧ tasks (create_task params m).1 !! sp_id params = Some task.
Proof.
  unfold create_task.
  destruct (submit_task params m) as (t0 & Ht0 & _).
  set (m1 := submit params m) in *. clearbody m1.
  destruct (task_processor m1) as [processor|].
  2:{ rewrite (return_stored_found _ _ _ Ht0). by exists t0. }
  unfold _get_iso_timestamp.
  set (working := {| st_state := WORKING |}).
  assert (∃ t2, tasks (set_status (sp_id params) working (tick m1))
                  !! sp_id params = Some t2) as [t2 Ht2].
  { rewrite (set_status_found _ _ t0) by done.
    rewrite _send_status_update_tasks. cbn. rewrite lookup_insert_eq.
    by eexists. }
  destruct (run_proc_artifacts_task _ _ (proc_artifacts (processor params))
              _ Ht2) as (t3 & Ht3 & _).
  set (m3 := run_proc_artifacts _ _) in *. clearbody m3.
  destruct (proc_outcome (processor params)) as [updated_task|e_str].
  - assert (tasks (_send_status_update updated_task
                     (set_tasks <[sp_id params := updated_task]> m3))
              !! sp_id params = Some updated_task) as Hl.
    { rewrite _send_status_update_tasks. cbn. apply lookup_insert_eq. }
    rewrite (return_stored_found _ _ _ Hl). by exists updated_task.
  - set (failed := {| st_state := FAILED |}).
    assert (tasks (set_status (sp_id params) failed (tick m3)) !! sp_id params
            = Some (with_status failed t3)) as Hl.
    { rewrite (set_status_found _ _ t3) by done.
      rewrite _send_status_update_tasks. cbn. apply lookup_insert_eq. }
    rewrite (return_stored_found _ _ _ Hl). by eexists.
Qed.

(** When the processing callback returns a task, this is the task
    [create_task] stores and returns. *)
Lemma create_task_returned params processor updated_task m :
  task_processor m = Some processor →
  proc_outcome (processor params) = Returns updated_task →
  create_task params m = ((create_task params m).1, Ok updated_task)
  ∧ tasks (create_task params m).1 !! sp_id params = Some updated_task.
Proof.
  intros Hproc Hout. unfold create_task.
  rewrite submit_processor, Hproc. unfold _get_iso_timestamp. rewrite Hout.
  match goal with
  | |- context [return_stored _ ?m'] =>
      assert (tasks m' !! sp_id params = Some updated_task) as Hl
  end.
  { rewrite _send_status_update_tasks. cbn. apply lookup_insert_eq. }
  by rewrite (return_stored_found _ _ _ Hl).
Qed.

(** X3.  [create_task] stores the push notification configuration of its
    parameters under the id of the task when there is one and the manager
    supports push notifications, so that [get_push_notification] returns
    it; otherwise it leaves the stored configurations as they are: a task
    created anew without a configuration keeps the one stored before under
    its id. *)
Theorem create_task_push_configuration params m :
  let m' := (create_task params m).1 in
  (∀ config,
     sp_pushNotification params = Some config →
     supports_push_notifications m = true →
     get_push_notification (sp_id params) m'
     = (m', Ok {| tpn_id := sp_id params; tpn_pushNotification := config |}))
  ∧ (sp_pushNotification params = None ∨ supports_push_notifications m = false →
     push_notifications m' = push_notifications m).
Proof.
  intros m'. subst m'. split.
  - intros config Hconfig Hpush. unfold get_push_notification.
    rewrite create_task_supports_push, Hpush. cbn [negb].
    destruct (create_task_returns params m) as (task & _ & ->).
    rewrite create_task_push.
    assert (push_notifications (submit params m) !! sp_id params = Some config)
      as ->; [|done].
    submit_cases m params; simplify_eq; cbn; apply lookup_insert_eq.
  - intros Hnone. rewrite create_task_push.
    destruct Hnone as [Hnone|Hoff]; submit_cases m params; by simplify_eq.
Qed.

(** X4.  [create_task] never raises; the task it returns is the one stored
    under the id of the call, the one [get_task] returns for that id
    whatever the history length asked for.  Without a processing callback
    it is the task in the state SUBMITTED, carrying the message, the
    session id and the metadata of the call and no artifact. *)
Theorem create_task_then_get_task params history_length m :
  ∃ m' task,
    create_task params m = (m', Ok task)
    ∧ tasks m' !! sp_id params = Some task
    ∧ get_task (sp_id params) history_length m' = (m', Ok task)
    ∧ (task_processor m = None → task = submitted params (clock m)).
Proof.
  destruct (create_task_returns params m) as (task & E & Hl).
  exists (create_task params m).1, task. split; [done|]. split; [done|].
  split.
  - unfold get_task. by rewrite Hl.
  - intros Hnone. unfold create_task in Hl.
    rewrite submit_processor, Hnone, return_stored_state in Hl.
    assert (tasks (submit params m) !! sp_id params
            = Some (submitted params (clock m))) as Hs
      by (submit_cases m params; cbn; apply lookup_insert_eq).
    congruence.
Qed.

(** *** Canceling *)

(** X5.  A task can be canceled once.  After [cancel_task] has succeeded,
    [get_task] returns the canceled task, and a second [cancel_task]
    raises "Task is already in a final state and cannot be canceled" and
    changes nothing. *)
Theorem cancel_task_only_once key history_length task m :
  tasks m !! key = Some task →
  is_final_state (st_state (task_status task)) = false →
  ∃ m' task',
    cancel_task key m = (m', Ok task')
    ∧ st_state (task_status task') = CANCELED
    ∧ get_task key history_length m' = (m', Ok task')
    ∧ cancel_task key m'
      = (m', Raise (ValueError
                      "Task is already in a final state and cannot be canceled")).
Proof.
  intros Hl Hf. rewrite (cancel_task_active _ _ _ Hl Hf).
  eexists _, _. split; [reflexivity|]. split; [reflexivity|].
  match goal with
  | |- context [get_task _ _ ?m'] =>
      assert (tasks m' !! key = Some (with_status (canceled (clock m)) task))
        as Hl'
  end.
  { rewrite _send_status_update_tasks. cbn. apply lookup_insert_eq. }
  split.
  - unfold get_task. by rewrite Hl'.
  - by apply (cancel_task_final _ _ _ Hl').
Qed.

Lemma cancel_task_only_once_witness :
  ∃ m' task',
    cancel_task "t1" Samples.m_working = (m', Ok task')
    ∧ st_state (task_status task') = CANCELED
    ∧ get_task "t1" (Some 1%Z) m' = (m', Ok task')
    ∧ cancel_task "t1" m'
      = (m', Raise (ValueError
                      "Task is already in a final state and cannot be canceled")).
Proof.
  destruct (tasks Samples.m_working !! "t1") as [task|] eqn:Hl;
    [|by vm_compute in Hl].
  apply (cancel_task_only_once "t1" (Some 1%Z) task Samples.m_working Hl).
  vm_compute in Hl. by simplify_eq.
Defined.

(** *** A manager without streaming *)

Lemma _send_status_update_off task m :
  supports_streaming m = false → _send_status_update task m = m.
Proof. intros Hs. unfold _send_status_update. by rewrite Hs. Qed.

Lemma send_artifact_update_off task_id artifact final m :
  supports_streaming m = false →
  send_artifact_update task_id artifact final m = m.
Proof. intros Hs. unfold send_artifact_update. by rewrite Hs. Qed.

Lemma run_proc_artifacts_off updates m :
  supports_streaming m = false → run_proc_artifacts updates m = m.
Proof.
  intros Hs. induction updates as [|c updates IH]; [done|].
  rewrite run_proc_artifacts_cons. by rewrite send_artifact_update_off.
Qed.

Lemma create_task_off params m :
  supports_streaming m = false →
  supports_streaming (create_task params m).1 = false
  ∧ queues (create_task params m).1 = queues m
  ∧ task_streams (create_task params m).1 = task_streams m.
Proof.
  intros Hs. unfold create_task.
  assert (supports_streaming (submit params m) = false
          ∧ queues (submit params m) = queues m
          ∧ task_streams (submit params m) = task_streams m)
    as (Hs1 & <- & <-).
  { submit_cases m params; simplify_eq; done. }
  set (m1 := submit params m) in *. clearbody m1.
  destruct (task_processor m1) as [processor|];
    [|by rewrite return_stored_state].
  unfold _get_iso_timestamp.
  set (working := {| st_state := WORKING |}).
  assert (∀ key status m0,
            supports_streaming m0 = false →
            supports_streaming (set_status key status m0) = false
            ∧ queues (set_status key status m0) = queues m0
            ∧ task_streams (set_status key status m0) = task_streams m0)
    as Hset.
  { intros key status m0 Hs0. unfold set_status.
    destruct (tasks m0 !! key); [|done].
    by rewrite _send_status_update_off. }
  destruct (Hset (sp_id params) working (tick m1) Hs1) as (Hs2 & Hq2 & Ht2).
  change (queues (tick m1)) with (queues m1) in Hq2.
  change (task_streams (tick m1)) with (task_streams m1) in Ht2.
  set (m2 := set_status _ _ _) in *. clearbody m2.
  rewrite <- Hq2, <- Ht2. clear Hq2 Ht2.
  rewrite run_proc_artifacts_off by done.
  destruct (proc_outcome (processor params)) as [updated_task|e_str];
    rewrite return_stored_state.
  - by rewrite _send_status_update_off.
  - by apply (Hset _ _ (tick m2)).
Qed.

Lemma run_off c m :
  supports_streaming m = false →
  supports_streaming (run c m) = false
  ∧ queues (run c m) = queues m
  ∧ task_streams (run c m) = task_streams m.
Proof.
  intros Hs.
  destruct c as [params|id hl|id|id config|id|id artifact final]; cbn [run].
  - by apply create_task_off.
  - unfold get_task. by destruct (tasks m !! id).
  - unfold cancel_task. destruct (tasks m !! id) as [task|]; [|done].
    destruct (is_final_state (st_state (task_status task))); [done|].
    unfold _get_iso_timestamp. cbn [fst].
    by rewrite _send_status_update_off.
  - unfold set_push_notification.
    destruct (supports_push_notifications m); [|done]. cbn.
    by destruct (tasks m !! id).
  - unfold get_push_notification.
    destruct (supports_push_notifications m); [|done]. cbn.
    destruct (tasks m !! id); [|done].
    by destruct (push_notifications m !! id).
  - by rewrite send_artifact_update_off.
Qed.

(** X6.  On a manager made without streaming, whatever it goes through:
    no event is ever put on a queue and no subscriber list is ever made;
    every subscription raises "Streaming is not supported" at once; and an
    artifact update changes nothing, so that the artifacts a processing
    callback adds through it are lost. *)
Theorem no_streaming_no_events processor push ops :
  let m := foldl (λ m op, exec op m) (init processor false push) ops in
  queues m = ∅
  ∧ task_streams m = ∅
  ∧ (∀ task_id history_length script,
       get_task_stream task_id history_length script m
       = (m, [], Raise (ValueError "Streaming is not supported")))
  ∧ (∀ task_id artifact final,
       send_artifact_update task_id artifact final m = m).
Proof.
  intros m.
  assert (supports_streaming m = false ∧ queues m = ∅ ∧ task_streams m = ∅)
    as (Hs & Hq & Ht).
  { subst m.
    assert (supports_streaming (init processor false push) = false
            ∧ queues (init processor false push) = ∅
            ∧ task_streams (init processor false push) = ∅) as H by done.
    revert H. generalize (init processor false push).
    induction ops as [|op ops IH]; intros m H; [done|].
    cbn [foldl]. apply IH. destruct H as (Hs & Hq & Ht).
    destruct op as [c|key history_length script]; cbn [exec].
    - destruct (run_off c m Hs) as (? & ? & ?). repeat split; congruence.
    - unfold get_task_stream. by rewrite Hs. }
  repeat split; [done..| |].
  - intros. unfold get_task_stream. by rewrite Hs.
  - intros. by apply send_artifact_update_off.
Qed.

(** *** Artifact updates: new indices, and who hears of an update *)

(** X7.  On a manager that streams, an artifact update for a known task
    that has a subscriber list, with an index none of the stored artifacts
    has, is stored after the stored artifacts, whatever its [append] flag;
    the id, the session, the status, the history and the metadata of the
    task stay as they are, and so do the other tasks. *)
Theorem artifact_update_new_index task_id qs task artifact final m :
  supports_streaming m = true →
  task_streams m !! task_id = Some qs →
  tasks m !! task_id = Some task →
  art_index artifact ∉ artifact_indices task →
  tasks (send_artifact_update task_id artifact final m)
  = <[task_id :=
        with_artifacts (default [] (task_artifacts task) ++ [artifact]) task]>
      (tasks m).
Proof.
  intros Hs Hq Ht Hfresh. rewrite send_artifact_update_tasks.
  unfold subscribers_known. rewrite Hs, Hq, Ht. cbn.
  by rewrite merge_artifact_fresh.
Qed.

Lemma artifact_update_new_index_witness :
  let more := Samples.text_artifact 1 (Some true) "more" in
  tasks (send_artifact_update "t1" more false Samples.m_working)
  = <["t1" :=
        with_artifacts [Samples.text_artifact 0 None "partial"; more]
          (Samples.working_task
             (Samples.send_params "t1" "convert this code"))]>
      (tasks Samples.m_working).
Proof.
  cbv zeta.
  apply (artifact_update_new_index "t1" []
           (Samples.working_task (Samples.send_params "t1" "convert this code"))
           _ false Samples.m_working eq_refl).
  - by vm_compute.
  - by vm_compute.
  - vm_compute. intros [[=]|[]%elem_of_nil]%elem_of_cons.
Defined.



(** *** What a subscription leaves behind *)

Lemma config_streams m m' :
  config m' = config m →
  task_streams m' = task_streams m
  ∧ supports_streaming m' = supports_streaming m.
Proof. unfold config. intros E. by simplify_eq. Qed.

Lemma create_task_streams params m :
  task_streams (create_task params m).1 = task_streams (submit params m)
  ∧ supports_streaming (create_task params m).1 = supports_streaming m.
Proof.
  unfold create_task. rewrite <- (proj1 (submit_streams params m)).
  set (m1 := submit params m). clearbody m1.
  destruct (task_processor m1) as [processor|];
    [|by rewrite return_stored_state].
  unfold _get_iso_timestamp.
  destruct (proc_outcome (processor params)) as [updated_task|e_str];
    rewrite return_stored_state.
  - destruct (config_streams _ _
                (frame_config _ _
                   (_send_status_update_frame updated_task
                      (set_tasks <[sp_id params := updated_task]>
                         (run_proc_artifacts
                            (proc_artifacts (processor params))
                            (set_status (sp_id params)
                               {| st_state := WORKING; st_message := None;
                                  st_timestamp := clock m1 |} (tick m1)))))))
      as [-> ->].
    cbn [set_tasks task_streams supports_streaming].
    destruct (config_streams _ _
                (run_proc_artifacts_config
                   (proc_artifacts (processor params))
                   (set_status (sp_id params)
                      {| st_state := WORKING; st_message := None;
                         st_timestamp := clock m1 |} (tick m1))))
      as [-> ->].
    by destruct (config_streams _ _
                   (set_status_config (sp_id params)
                      {| st_state := WORKING; st_message := None;
                         st_timestamp := clock m1 |} (tick m1)))
      as [-> ->].
  - match goal with
    | |- context [set_status ?k ?st (tick ?m0)] =>
        destruct (config_streams _ _ (set_status_config k st (tick m0)))
          as [-> ->]
    end.
    cbn [tick task_streams supports_streaming].
    destruct (config_streams _ _
                (run_proc_artifacts_config
                   (proc_artifacts (processor params))
                   (set_status (sp_id params)
                      {| st_state := WORKING; st_message := None;
                         st_timestamp := clock m1 |} (tick m1))))
      as [-> ->].
    by destruct (config_streams _ _
                   (set_status_config (sp_id params)
                      {| st_state := WORKING; st_message := None;
                         st_timestamp := clock m1 |} (tick m1)))
      as [-> ->].
Qed.







End ManagerFacts.

(** ** The protocol server *)

Module ServerFacts.
Import Manager Server ManagerFacts.

Lemma calls_cancel lib request params task_id m :
  calls request "tasks/cancel" params →
  parse_TaskIdParams lib params = Ok {| ip_id := task_id |} →
  ∃ request_id,
    handle_jsonrpc lib request m
    = ((cancel_task task_id m).1,
       respond request_id (invalid_params (cancel_task task_id m).2)).
Proof.
  intros (data & Hjson & Hrpc & Hmethod & Hparams) Hparse.
  exists (dict_get "id" data).
  unfold handle_jsonrpc. rewrite Hjson.
  unfold has_key. rewrite Hrpc, Hmethod, Hparams. cbn.
  unfold _handle_cancel_task. rewrite Hparse. cbn.
  by destruct (cancel_task task_id m).
Qed.

Lemma not_found_code task_id :
  error_code_of_message ("Invalid params: " +:+ "Task not found: " +:+ task_id)
  = ErrorCode.TASK_NOT_FOUND.
Proof. reflexivity. Qed.

(** C3.  [cancel_task] on an unknown id raises the error the server answers
    with code -32001; on a task in a terminal state it raises the error the
    server answers with code -32002, and nothing changes; on any other task
    it stores the task with the state CANCELED and the agent message
    "Task was canceled", returns it, and publishes its status, which is
    final: on a manager in a state its operations lead to, the event lands
    at the tail of the queue of every subscriber of the task. *)
Theorem cancel_task_outcomes lib request params task_id m :
  calls request "tasks/cancel" params →
  parse_TaskIdParams lib params = Ok {| ip_id := task_id |} →
  (tasks m !! task_id = None →
   cancel_task task_id m
   = (m, Raise (ValueError ("Task not found: " +:+ task_id)))
   ∧ (handle_jsonrpc lib request m).1 = m
   ∧ response_error_code (handle_jsonrpc lib request m).2
     = Some (-32001)%Z)
  ∧ (∀ task,
       tasks m !! task_id = Some task →
       is_final_state (st_state (task_status task)) = true →
       cancel_task task_id m
       = (m, Raise (ValueError
                      "Task is already in a final state and cannot be canceled"))
       ∧ (handle_jsonrpc lib request m).1 = m
       ∧ response_error_code (handle_jsonrpc lib request m).2
         = Some (-32002)%Z)
  ∧ (∀ task,
       tasks m !! task_id = Some task →
       is_final_state (st_state (task_status task)) = false →
       ∃ m' task',
         cancel_task task_id m = (m', Ok task')
         ∧ task'
           = with_status
               {| st_state := CANCELED;
                  st_message :=
                    Some {| msg_role := "agent";
                            msg_parts := [TextPart "Task was canceled" None];
                            msg_metadata := None |};
                  st_timestamp := clock m |} task
         ∧ tasks m' = <[task_id := task']> (tasks m)
         ∧ m' = _send_status_update task'
                  (set_tasks <[task_id := task']> (tick m))
         ∧ sev_final (status_event task') = true
         ∧ (wf m →
            ∀ q,
              queues m' !! q
              = if decide (q ∈ subscribers task_id m)
                then (λ items,
                        items ++ [StatusEvent
                                    {| sev_id := task_id;
                                       sev_status := task_status task';
                                       sev_final := true;
                                       sev_metadata := None |}])
                       <$> queues m !! q
                else queues m !! q)).
Proof.
  intros Hcalls Hparse.
  destruct (calls_cancel lib request params task_id m Hcalls Hparse)
    as [request_id Hrpc].
  rewrite Hrpc. clear Hrpc. unfold cancel_task.
  split; [|split].
  - intros ->. cbn. rewrite not_found_code. done.
  - intros task -> ->. done.
  - intros task Hlookup Hfinal. rewrite Hlookup, Hfinal. cbn.
    eexists _, _. split; [reflexivity|]. split; [reflexivity|].
    split; [|split; [reflexivity|split; [reflexivity|]]].
    + match goal with
      | |- tasks (_send_status_update ?t ?m0) = _ =>
          pose proof (_send_status_update_frame t m0) as E
      end.
      unfold frame in E. by simplify_eq/=.
    + intros Hwf q. pose proof (wf_keyed m Hwf _ _ Hlookup) as Hid.
      match goal with
      | |- queues (_send_status_update ?t ?m0) !! _ = _ =>
          rewrite (_send_status_update_queues t m0)
      end.
      * cbn. rewrite Hid. unfold status_event. cbn. rewrite Hid.
        unfold subscribers. cbn. done.
      * cbn. rewrite Hid.
        pose proof (wf_subscribers_nodup task_id m Hwf) as Hnd.
        unfold subscribers in *. cbn. done.
Qed.

Lemma cancel_task_outcomes_witness :
  let cancel id := Samples.rpc "tasks/cancel" (Samples.id_params id) None in
  (* an unknown id *)
  ((cancel_task "t2" Samples.m_completed).2
   = Raise (ValueError "Task not found: t2")
   ∧ response_error_code
       (handle_jsonrpc Samples.strict (cancel "t2") Samples.m_completed).2
     = Some (-32001)%Z)
  (* a completed task *)
  ∧ (cancel_task "t1" Samples.m_completed
     = (Samples.m_completed,
        Raise (ValueError
                 "Task is already in a final state and cannot be canceled"))
     ∧ response_error_code
         (handle_jsonrpc Samples.strict (cancel "t1") Samples.m_completed).2
       = Some (-32002)%Z)
  (* a submitted task *)
  ∧ (∃ m' task',
       cancel_task "t1" Samples.m_submitted = (m', Ok task')
       ∧ st_state (task_status task') = CANCELED
       ∧ tasks m' !! "t1" = Some task').
Proof.
  pose proof (λ id m,
               cancel_task_outcomes Samples.strict
                 (Samples.rpc "tasks/cancel" (Samples.id_params id) None)
                 (Samples.id_params id) id m
                 (ex_intro _ _ (conj eq_refl (conj eq_refl (conj eq_refl eq_refl))))
                 eq_refl) as H.
  split; [|split].
  - destruct (H "t2" Samples.m_completed) as (Hunknown & _).
    destruct Hunknown as (-> & _ & ->); [reflexivity|]. done.
  - destruct (H "t1" Samples.m_completed) as (_ & Hfinal & _).
    destruct (tasks Samples.m_completed !! "t1") as [task|] eqn:Hl;
      [|by vm_compute in Hl].
    assert (is_final_state (st_state (task_status task)) = true) as Hf
      by (vm_compute in Hl; by simplify_eq).
    destruct (Hfinal _ eq_refl Hf) as (-> & _ & ->). done.
  - destruct (H "t1" Samples.m_submitted) as (_ & _ & Hactive).
    destruct (tasks Samples.m_submitted !! "t1") as [task|] eqn:Hl;
      [|by vm_compute in Hl].
    assert (is_final_state (st_state (task_status task)) = false) as Hf
      by (vm_compute in Hl; by simplify_eq).
    destruct (Hactive _ eq_refl Hf) as (m' & task' & -> & -> & Ht & _).
    eexists _, _. split; [reflexivity|]. split; [done|].
    rewrite Ht. apply lookup_insert_eq.
Defined.

(** C8.  A JSON-RPC request for [tasks/sendSubscribe] or
    [tasks/resubscribe] whose [Accept] header is not the text
    [text/event-stream] (as is the case of every header that does not
    declare the event-stream type, and of a missing header) is answered with
    the error code -32005, and the manager is left exactly as it was. *)
Theorem streaming_requires_accept lib request method params m :
  calls request method params →
  method = "tasks/sendSubscribe" ∨ method = "tasks/resubscribe" →
  req_accept request ≠ Some "text/event-stream" →
  (handle_jsonrpc lib request m).1 = m
  ∧ response_error_code (handle_jsonrpc lib request m).2 = Some (-32005)%Z.
Proof.
  intros (data & Hjson & Hrpc & Hmethod & Hparams) Hstream Haccept.
  unfold handle_jsonrpc. rewrite Hjson.
  unfold has_key. rewrite Hrpc, Hmethod. cbn [is_str negb orb].
  rewrite String.eqb_refl. cbn [negb orb].
  rewrite (bool_decide_eq_false_2 _ Haccept).
  destruct Hstream as [-> | ->]; done.
Qed.

Lemma streaming_requires_accept_witness :
  let request :=
    Samples.rpc "tasks/sendSubscribe" (Samples.id_params "t1")
      (Some "application/json") in
  (handle_jsonrpc Samples.strict request Samples.m_completed).1
  = Samples.m_completed
  ∧ response_error_code
      (handle_jsonrpc Samples.strict request Samples.m_completed).2
    = Some (-32005)%Z.
Proof.
  apply (streaming_requires_accept Samples.strict _ "tasks/sendSubscribe"
           (Samples.id_params "t1")).
  - eexists. repeat split; reflexivity.
  - by left.
  - discriminate.
Defined.

Lemma calls_get_push lib request params task_id m :
  calls request "tasks/pushNotification/get" params →
  parse_TaskIdParams lib params = Ok {| ip_id := task_id |} →
  ∃ request_id,
    handle_jsonrpc lib request m
    = ((get_push_notification task_id m).1,
       respond request_id (invalid_params (get_push_notification task_id m).2)).
Proof.
  intros (data & Hjson & Hrpc & Hmethod & Hparams) Hparse.
  exists (dict_get "id" data).
  unfold handle_jsonrpc. rewrite Hjson.
  unfold has_key. rewrite Hrpc, Hmethod, Hparams. cbn.
  unfold _handle_get_push_notification. rewrite Hparse. cbn.
  by destruct (get_push_notification task_id m).
Qed.

(** The message for a missing configuration is mapped by what the task id
    contains: the fixed part of the message holds none of the phrases. *)
Lemma no_configuration_code task_id :
  no_known_phrase task_id →
  error_code_of_message
    ("Invalid params: "
       +:+ "No push notification configuration for task: " +:+ task_id)
  = ErrorCode.INVALID_PARAMS.
Proof.
  intros (H1 & H2 & H3 & H4). unfold error_code_of_message.
  simpl. change ("" +:+ task_id) with task_id.
  rewrite H1, H2, H3, H4. done.
Qed.

(** C7, as the code has it.  On a manager with push notifications and a
    known task for which no configuration was set,
    [get_push_notification] raises [ValueError] with the message
    "No push notification configuration for task: <id>", and when the id
    contains none of the phrases the server looks for, the server answers
    with the invalid-params code -32602. *)
Theorem get_push_notification_unset lib request params task_id task m :
  supports_push_notifications m = true →
  tasks m !! task_id = Some task →
  push_notifications m !! task_id = None →
  calls request "tasks/pushNotification/get" params →
  parse_TaskIdParams lib params = Ok {| ip_id := task_id |} →
  no_known_phrase task_id →
  get_push_notification task_id m
  = (m, Raise (ValueError ("No push notification configuration for task: "
                             +:+ task_id)))
  ∧ (handle_jsonrpc lib request m).1 = m
  ∧ response_error_code (handle_jsonrpc lib request m).2 = Some (-32602)%Z.
Proof.
  intros Hpush Htask Hnone Hcalls Hparse Hid.
  destruct (calls_get_push lib request params task_id m Hcalls Hparse)
    as [request_id ->].
  unfold get_push_notification. rewrite Hpush, Htask, Hnone. cbn.
  by rewrite no_configuration_code.
Qed.

Lemma get_push_notification_unset_witness :
  let request :=
    Samples.rpc "tasks/pushNotification/get" (Samples.id_params "t1") None in
  get_push_notification "t1" Samples.m_push
  = (Samples.m_push,
     Raise (ValueError ("No push notification configuration for task: "
                          +:+ "t1")))
  ∧ (handle_jsonrpc Samples.strict request Samples.m_push).1 = Samples.m_push
  ∧ response_error_code (handle_jsonrpc Samples.strict request Samples.m_push).2
    = Some (-32602)%Z.
Proof.
  destruct (tasks Samples.m_push !! "t1") as [task|] eqn:Hl;
    [|by vm_compute in Hl].
  apply (get_push_notification_unset Samples.strict _
           (Samples.id_params "t1") "t1" task).
  - reflexivity.
  - exact Hl.
  - by vm_compute.
  - eexists. repeat split; reflexivity.
  - reflexivity.
  - by vm_compute.
Defined.

(** C7, as the specification has it, fails: the code of the answer is
    -32602, not the task-not-found code -32001. *)
Lemma get_push_notification_unset_counterexample :
  let request :=
    Samples.rpc "tasks/pushNotification/get" (Samples.id_params "t1") None in
  supports_push_notifications Samples.m_push = true
  ∧ is_Some (tasks Samples.m_push !! "t1")
  ∧ push_notifications Samples.m_push !! "t1" = None
  ∧ response_error_code (handle_jsonrpc Samples.strict request Samples.m_push).2
    = Some (-32602)%Z
  ∧ (-32602)%Z ≠ ErrorCode.TASK_NOT_FOUND.
Proof.
  cbv zeta. split; [reflexivity|]. split; [|split; [|split]].
  - destruct (tasks Samples.m_push !! "t1") eqn:Hl; [by eexists|].
    by vm_compute in Hl.
  - by vm_compute.
  - by vm_compute.
  - discriminate.
Qed.

(** *** The dispatch of a request *)

(** What [handle_jsonrpc] does with a JSON-RPC 2.0 request once the
    request has passed the first tests. *)
Lemma handle_jsonrpc_calls lib request method params m :
  calls request method params →
  ∃ request_id,
    handle_jsonrpc lib request m
    = if (String.eqb method "tasks/sendSubscribe"
          || String.eqb method "tasks/resubscribe")
         && negb (bool_decide (req_accept request = Some "text/event-stream"))
      then
        (m, _error_response request_id ErrorCode.CONTENT_TYPE_NOT_SUPPORTED
              "Streaming requests require Accept: text/event-stream header")
      else if String.eqb method "tasks/send" then
        ((_handle_send_task lib params m).1,
         respond request_id (_handle_send_task lib params m).2)
      else if String.eqb method "tasks/get" then
        ((_handle_get_task lib params m).1,
         respond request_id (_handle_get_task lib params m).2)
      else if String.eqb method "tasks/cancel" then
        ((_handle_cancel_task lib params m).1,
         respond request_id (_handle_cancel_task lib params m).2)
      else if String.eqb method "tasks/pushNotification/set" then
        ((_handle_set_push_notification lib params m).1,
         respond request_id (_handle_set_push_notification lib params m).2)
      else if String.eqb method "tasks/pushNotification/get" then
        ((_handle_get_push_notification lib params m).1,
         respond request_id (_handle_get_push_notification lib params m).2)
      else if String.eqb method "tasks/sendSubscribe" then
        (m, respond_stream request_id
              (_handle_send_subscribe lib request_id params))
      else if String.eqb method "tasks/resubscribe" then
        (m, respond_stream request_id (_handle_resubscribe lib request_id params))
      else
        (m, _error_response request_id ErrorCode.METHOD_NOT_FOUND
              ("Method not found: " +:+ py_format lib (JStr method))).
Proof.
  intros (data & Hjson & Hrpc & Hmethod & Hparams).
  exists (dict_get "id" data).
  unfold handle_jsonrpc. rewrite Hjson.
  unfold has_key. rewrite Hrpc, Hmethod, Hparams.
  cbn [is_str negb orb default from_option id].
  rewrite String.eqb_refl. cbn [negb orb].
  repeat match goal with
         | |- context [let '(_, _) := ?x in _] => destruct x
         end.
  reflexivity.
Qed.

Lemma respond_is_error {A : Type} request_id (r : Result A) :
  ∃ request_id' code message,
    respond request_id r = _error_response request_id' code message.
Proof.
  destruct r as [a|e]; cbn; [by eexists _, _, _|].
  destruct e; by eexists _, _, _.
Qed.

Lemma handle_jsonrpc_without_accept lib request m :
  req_accept request ≠ Some "text/event-stream" →
  ∃ request_id code message,
    (handle_jsonrpc lib request m).2 = _error_response request_id code message.
Proof.
  intros Haccept. unfold handle_jsonrpc.
  destruct (req_json request) as [data|]; [|by eexists _, _, _].
  destruct data as [| | | | |data]; try by eexists _, _, _.
  destruct (_ || _); [by eexists _, _, _|].
  rewrite (bool_decide_eq_false_2 _ Haccept). cbn [negb].
  rewrite andb_true_r.
  destruct (is_str (dict_get "method" data) "tasks/sendSubscribe") eqn:Hsend;
    [by eexists _, _, _|].
  destruct (is_str (dict_get "method" data) "tasks/resubscribe") eqn:Hre;
    [by eexists _, _, _|].
  cbn [orb].
  repeat match goal with
         | |- context [if ?b then _ else _] => destruct b
         | |- context [let '(_, _) := ?x in _] => destruct x
         end;
    try apply respond_is_error; by eexists _, _, _.
Qed.

(** X10.  [handle_jsonrpc] never answers with a result.  Whatever the
    request and the manager, the response is the start of an event stream
    or a JSON-RPC error object: a call that succeeds ends in
    [_success_response], whose test [isinstance(result, BaseModel)] raises
    [NameError], and is answered with the internal-error code. *)
Theorem handle_jsonrpc_never_a_result lib request m :
  (∃ source, (handle_jsonrpc lib request m).2 = StreamingResponse source)
  ∨ (∃ request_id code message,
       (handle_jsonrpc lib request m).2
       = _error_response request_id code message).
Proof.
  unfold handle_jsonrpc.
  destruct (req_json request) as [data|]; [|right; by eexists _, _, _].
  destruct data as [| | | | |data]; try (right; by eexists _, _, _).
  destruct (_ || _); [right; by eexists _, _, _|].
  destruct (_ && _); [right; by eexists _, _, _|].
  repeat match goal with
         | |- context [if ?b then _ else _] => destruct b
         | |- context [let '(_, _) := ?x in _] => destruct x
         end;
    try (right; apply respond_is_error); try (right; by eexists _, _, _).
  - unfold _handle_send_subscribe.
    destruct (parse_TaskSendParams lib _) as [sp|e]; cbn.
    + left. by eexists.
    + right. destruct e; by eexists _, _, _.
  - unfold _handle_resubscribe.
    destruct (parse_TaskQueryParams lib _) as [qp|e]; cbn.
    + left. by eexists.
    + right. destruct e; by eexists _, _, _.
Qed.

(** X11.  A well-formed [tasks/send] request is answered with the
    internal-error code -32603 and a null id, although the task has been
    created and processed: the manager is left as [create_task] leaves
    it, with the task stored under the id of the request. *)
Theorem send_task_is_answered_with_an_error lib request params send_params m :
  calls request "tasks/send" params →
  parse_TaskSendParams lib params = Ok send_params →
  handle_jsonrpc lib request m
  = ((create_task send_params m).1,
     _error_response None ErrorCode.INTERNAL_ERROR
       "Internal error: name 'BaseModel' is not defined")
  ∧ response_error_code (handle_jsonrpc lib request m).2 = Some (-32603)%Z
  ∧ is_Some (tasks (handle_jsonrpc lib request m).1 !! sp_id send_params).
Proof.
  intros Hcalls Hparse.
  destruct (handle_jsonrpc_calls lib request _ _ m Hcalls) as [request_id ->].
  cbn. unfold _handle_send_task. rewrite Hparse.
  destruct (ManagerFacts.create_task_returns send_params m)
    as (task & E & Hl).
  rewrite E. cbn. rewrite Hl. split; [done|]. split; [done|]. by eexists.
Qed.

Lemma send_task_is_answered_with_an_error_witness :
  let request :=
    Samples.rpc "tasks/send"
      (JObj [("id", JStr "t9");
             ("message",
              JObj [("role", JStr "user");
                    ("parts", JArr [JObj [("type", JStr "text");
                                          ("text", JStr "convert this")]])])])
      None in
  response_error_code
    (handle_jsonrpc Samples.strict request Samples.m_completed).2
  = Some (-32603)%Z
  ∧ is_Some (tasks (handle_jsonrpc Samples.strict request Samples.m_completed).1
               !! "t9").
Proof.
  cbv zeta.
  match goal with
  | |- context [handle_jsonrpc _ ?request _] =>
      destruct (send_task_is_answered_with_an_error Samples.strict request
                  (JObj [("id", JStr "t9");
                         ("message",
                          JObj [("role", JStr "user");
                                ("parts",
                                 JArr [JObj [("type", JStr "text");
                                             ("text", JStr "convert this")]])])])
                  (Samples.send_params "t9" "convert this") Samples.m_completed)
        as (_ & Hcode & Hstored)
  end.
  - by eexists.
  - reflexivity.
  - by split.
Defined.

Ltac in_list :=
  repeat first [apply list_elem_of_here | apply list_elem_of_further].

(** *** Requests that are not calls *)



(** *** Which requests change the manager *)

(** X13.  [handle_jsonrpc] itself changes the manager for [tasks/send],
    [tasks/cancel] and [tasks/pushNotification/set] only: when it returns
    from a request for any other method, known or not, the manager is as it
    was (for the two streaming methods nothing is done before the body of
    the returned stream runs), and a request for a method that is none of
    the seven known ones is answered with the method-not-found code
    -32601. *)
Theorem other_methods_change_nothing lib request method params m :
  calls request method params →
  method ∉ ["tasks/send"; "tasks/cancel"; "tasks/pushNotification/set"] →
  (handle_jsonrpc lib request m).1 = m
  ∧ (method ∉ known_methods →
     response_error_code (handle_jsonrpc lib request m).2 = Some (-32601)%Z).
Proof.
  intros Hcalls Hother.
  destruct (handle_jsonrpc_calls lib request _ _ m Hcalls) as [request_id ->].
  assert (∀ name, name ∈ ["tasks/send"; "tasks/cancel";
                          "tasks/pushNotification/set"] →
                  String.eqb method name = false) as Hne.
  { intros name Hin. apply String.eqb_neq. by intros ->. }
  rewrite (Hne "tasks/send"), (Hne "tasks/cancel"),
    (Hne "tasks/pushNotification/set") by in_list.
  split.
  - destruct (_ && _); [done|].
    destruct (String.eqb method "tasks/get").
    { unfold _handle_get_task.
      destruct (parse_TaskQueryParams lib params) as [qp|e]; [|done].
      unfold get_task. by destruct (tasks m !! qp_id qp). }
    destruct (String.eqb method "tasks/pushNotification/get").
    { unfold _handle_get_push_notification.
      destruct (parse_TaskIdParams lib params) as [ip|e]; [|done].
      unfold get_push_notification.
      destruct (supports_push_notifications m); [|done]. cbn.
      destruct (tasks m !! ip_id ip); [|done].
      by destruct (push_notifications m !! ip_id ip). }
    by repeat destruct (String.eqb method _).
  - intros Hunknown.
    assert (∀ name, name ∈ known_methods → String.eqb method name = false)
      as Hne'.
    { intros name Hin. apply String.eqb_neq. by intros ->. }
    unfold known_methods in Hne'.
    rewrite (Hne' "tasks/sendSubscribe"), (Hne' "tasks/resubscribe"),
      (Hne' "tasks/get"), (Hne' "tasks/pushNotification/get") by in_list.
    done.
Qed.

Lemma other_methods_change_nothing_witness :
  (handle_jsonrpc Samples.strict
     (Samples.rpc "tasks/list" (JObj []) None) Samples.m_completed).1
  = Samples.m_completed
  ∧ response_error_code
      (handle_jsonrpc Samples.strict
         (Samples.rpc "tasks/list" (JObj []) None) Samples.m_completed).2
    = Some (-32601)%Z.
Proof.
  destruct (other_methods_change_nothing Samples.strict
              (Samples.rpc "tasks/list" (JObj []) None) "tasks/list" (JObj [])
              Samples.m_completed) as [Hm Hcode].
  - by eexists.
  - intros Hin. repeat (apply elem_of_cons in Hin as [[=]|Hin]).
    by apply elem_of_nil in Hin.
  - split; [done|]. apply Hcode.
    intros Hin. repeat (apply elem_of_cons in Hin as [[=]|Hin]).
    by apply elem_of_nil in Hin.
Defined.

(** *** The codes of the errors *)

Lemma invalid_params_code text :
  no_known_phrase text →
  error_code_of_message ("Invalid params: " +:+ text)
  = ErrorCode.INVALID_PARAMS.
Proof.
  intros (H1 & H2 & H3 & H4). unfold error_code_of_message.
  simpl. change ("" +:+ text) with text.
  rewrite H1, H2, H3, H4. done.
Qed.

(** X14.  Parameters that fail the validation of the method they are for
    are answered with the invalid-params code -32602 and the message
    "Invalid params: " followed by the text of the validation error (as
    long as that text contains none of the four phrases the server takes
    for another error), and the manager is left as it was. *)
Theorem invalid_params_are_rejected lib request method params e m :
  calls request method params →
  validation_error lib method params = Some e →
  (method = "tasks/sendSubscribe" ∨ method = "tasks/resubscribe" →
   req_accept request = Some "text/event-stream") →
  no_known_phrase (exc_str e) →
  ∃ request_id,
    handle_jsonrpc lib request m
    = (m, _error_response request_id (-32602)%Z
            ("Invalid params: " +:+ exc_str e)).
Proof.
  intros Hcalls Hinvalid Haccept Hphrase.
  destruct (handle_jsonrpc_calls lib request _ _ m Hcalls) as [request_id ->].
  exists request_id. pose proof (invalid_params_code _ Hphrase) as Hcode.
  unfold validation_error in Hinvalid.
  repeat case_decide; try done;
    repeat match goal with H : _ = _ ∨ _ = _ |- _ => destruct H end;
    subst method;
    cbn [String.eqb Ascii.eqb Bool.eqb andb orb negb];
    unfold _handle_send_task, _handle_get_task, _handle_cancel_task,
      _handle_set_push_notification, _handle_get_push_notification,
      _handle_send_subscribe, _handle_resubscribe;
    match type of Hinvalid with
    | context [match ?parse with _ => _ end] =>
        destruct parse as [?|e']; [done|]
    end;
    simplify_eq;
    try rewrite (bool_decide_eq_true_2 _ (Haccept ltac:(auto)));
    cbn [negb fst snd invalid_params respond respond_stream];
    rewrite ?Hcode; try done;
    exfalso;
    match goal with
    | H : req_accept request ≠ _ |- _ => apply H, Haccept; auto
    end.
Qed.

Lemma invalid_params_are_rejected_witness :
  ∃ request_id,
    handle_jsonrpc Samples.strict
      (Samples.rpc "tasks/get" (JArr []) None) Samples.m_completed
    = (Samples.m_completed,
       _error_response request_id (-32602)%Z
         ("Invalid params: "
            +:+ "TaskQueryParams() argument after ** must be a mapping")).
Proof.
  apply (invalid_params_are_rejected Samples.strict
           (Samples.rpc "tasks/get" (JArr []) None) "tasks/get" (JArr [])
           (TypeError "TaskQueryParams() argument after ** must be a mapping")
           Samples.m_completed).
  - by eexists.
  - reflexivity.
  - by intros [[=]|[=]].
  - by repeat split.
Defined.

(** X15.  On a manager made without push notifications,
    [tasks/pushNotification/set] and [tasks/pushNotification/get] with
    valid parameters are answered with the code -32003, whether the task
    is known or not, and nothing is stored. *)
Theorem push_notifications_not_supported lib request method params m :
  calls request method params →
  method = "tasks/pushNotification/set" ∨ method = "tasks/pushNotification/get" →
  validation_error lib method params = None →
  supports_push_notifications m = false →
  ∃ request_id,
    handle_jsonrpc lib request m
    = (m, _error_response request_id (-32003)%Z
            "Invalid params: Push notifications are not supported").
Proof.
  intros Hcalls Hmethod Hvalid Hpush.
  destruct (handle_jsonrpc_calls lib request _ _ m Hcalls) as [request_id ->].
  exists request_id. unfold validation_error in Hvalid.
  destruct Hmethod; subst method; cbn in Hvalid |- *.
  - unfold _handle_set_push_notification.
    destruct (parse_TaskPushNotificationConfig lib params); [|done].
    unfold set_push_notification. by rewrite Hpush.
  - unfold _handle_get_push_notification.
    destruct (parse_TaskIdParams lib params); [|done].
    unfold get_push_notification. by rewrite Hpush.
Qed.

Lemma push_notifications_not_supported_witness :
  ∃ request_id,
    handle_jsonrpc Samples.strict
      (Samples.rpc "tasks/pushNotification/get" (Samples.id_params "t1") None)
      Samples.m_completed
    = (Samples.m_completed,
       _error_response request_id (-32003)%Z
         "Invalid params: Push notifications are not supported").
Proof.
  apply (push_notifications_not_supported Samples.strict _
           "tasks/pushNotification/get" (Samples.id_params "t1")).
  - by eexists.
  - by right.
  - reflexivity.
  - reflexivity.
Defined.

(** X16.  [tasks/get], and on a manager with push notifications
    [tasks/pushNotification/set] and [tasks/pushNotification/get], answer
    a request that names an unknown task with the task-not-found code
    -32001 and the message "Invalid params: Task not found: " followed by
    the id, and leave the manager as it was. *)
Theorem unknown_task_is_not_found lib request method params task_id m :
  calls request method params →
  tasks m !! task_id = None →
  (method = "tasks/get"
   ∧ ∃ history_length,
       parse_TaskQueryParams lib params
       = Ok {| qp_id := task_id; qp_historyLength := history_length |})
  ∨ (method = "tasks/pushNotification/get"
     ∧ supports_push_notifications m = true
     ∧ parse_TaskIdParams lib params = Ok {| ip_id := task_id |})
  ∨ (method = "tasks/pushNotification/set"
     ∧ supports_push_notifications m = true
     ∧ ∃ config,
         parse_TaskPushNotificationConfig lib params
         = Ok {| tpn_id := task_id; tpn_pushNotification := config |}) →
  ∃ request_id,
    handle_jsonrpc lib request m
    = (m, _error_response request_id (-32001)%Z
            ("Invalid params: " +:+ "Task not found: " +:+ task_id)).
Proof.
  intros Hcalls Hunknown Hmethod.
  destruct (handle_jsonrpc_calls lib request _ _ m Hcalls) as [request_id ->].
  exists request_id.
  destruct Hmethod as [(-> & hl & Hparse)|[(-> & Hpush & Hparse)
                                          |(-> & Hpush & config & Hparse)]];
    cbn.
  - unfold _handle_get_task. rewrite Hparse. cbn. unfold get_task.
    rewrite Hunknown. cbn. by rewrite not_found_code.
  - unfold _handle_get_push_notification. rewrite Hparse. cbn.
    unfold get_push_notification. rewrite Hpush, Hunknown. cbn.
    by rewrite not_found_code.
  - unfold _handle_set_push_notification. rewrite Hparse. cbn.
    unfold set_push_notification. rewrite Hpush, Hunknown. cbn.
    by rewrite not_found_code.
Qed.

Lemma unknown_task_is_not_found_witness :
  ∃ request_id,
    handle_jsonrpc Samples.strict
      (Samples.rpc "tasks/get" (Samples.id_params "t2") None)
      Samples.m_completed
    = (Samples.m_completed,
       _error_response request_id (-32001)%Z
         ("Invalid params: " +:+ "Task not found: " +:+ "t2")).
Proof.
  apply (unknown_task_is_not_found Samples.strict _ "tasks/get"
           (Samples.id_params "t2")).
  - by eexists.
  - by vm_compute.
  - left. split; [done|]. by eexists.
Defined.

(** *** The event streams *)

(** X17.  A [tasks/resubscribe] request with the event-stream [Accept]
    header and valid parameters is always answered with the start of a
    stream, never with a JSON-RPC error: when the manager does not stream,
    or the task is unknown, the stream consists of one error frame, with
    the internal-error code and the text of the exception, and the codes
    -32004 and -32001 are not used.  The manager is left as it was. *)
Theorem resubscribe_errors_come_as_frames
    lib request params query_params script m :
  calls request "tasks/resubscribe" params →
  req_accept request = Some "text/event-stream" →
  parse_TaskQueryParams lib params = Ok query_params →
  supports_streaming m = false ∨ tasks m !! qp_id query_params = None →
  handle_jsonrpc lib request m
  = (m, StreamingResponse (ResubscribeStream query_params))
  ∧ sse_stream (ResubscribeStream query_params) script m
    = (m, [ErrorFrame
             (JObj [("error",
                     JObj [("code", JNum (-32603)%Z);
                           ("message",
                            JStr ("Streaming error: " +:+
                                  if supports_streaming m
                                  then "Task not found: "
                                       +:+ qp_id query_params
                                  else "Streaming is not supported"))])])]).
Proof.
  intros Hcalls Haccept Hparse Hfails.
  destruct (handle_jsonrpc_calls lib request _ _ m Hcalls) as [request_id ->].
  rewrite Haccept. cbn. unfold _handle_resubscribe. rewrite Hparse.
  split; [done|]. unfold get_task_stream.
  destruct (supports_streaming m); [|done].
  destruct Hfails as [?| ->]; done.
Qed.

Lemma resubscribe_errors_come_as_frames_witness :
  let request :=
    Samples.rpc "tasks/resubscribe" (Samples.id_params "t2")
      (Some "text/event-stream") in
  let query_params := {| qp_id := "t2"; qp_historyLength := None |} in
  handle_jsonrpc Samples.strict request Samples.m_completed
  = (Samples.m_completed, StreamingResponse (ResubscribeStream query_params))
  ∧ sse_stream (ResubscribeStream query_params) [] Samples.m_completed
    = (Samples.m_completed,
       [ErrorFrame
          (JObj [("error",
                  JObj [("code", JNum (-32603)%Z);
                        ("message",
                         JStr "Streaming error: Task not found: t2")])])]).
Proof.
  cbv zeta.
  apply (resubscribe_errors_come_as_frames Samples.strict _
           (Samples.id_params "t2") {| qp_id := "t2" |} [] Samples.m_completed).
  - by eexists.
  - reflexivity.
  - reflexivity.
  - right. by vm_compute.
Defined.

(** X18.  The stream of [tasks/sendSubscribe] starts when the processing
    callback has ended: on a manager that streams, its first frame is the
    status of the task as [create_task] returned it, and when that status
    is terminal the stream is that frame followed by one frame per
    artifact of the task, and nothing else, whatever happens afterwards.
    The statuses SUBMITTED and WORKING the task went through are not in
    the stream. *)
Theorem send_subscribe_starts_after_processing send_params script m :
  supports_streaming m = true →
  ∃ m' task rest,
    create_task send_params m = (m', Ok task)
    ∧ (sse_stream (SendSubscribeStream send_params) script m).2
      = EventFrame (StatusEvent (status_event task)) :: rest
    ∧ (is_final_state (st_state (task_status task)) = true →
       rest = EventFrame <$> artifact_replay task).
Proof.
  intros Hs.
  destruct (ManagerFacts.create_task_returns send_params m)
    as (task & E & Hl).
  pose proof (proj2 (ManagerFacts.create_task_streams send_params m)) as Hs'.
  rewrite Hs in Hs'.
  set (m' := (create_task send_params m).1) in *. clearbody m'.
  exists m', task. unfold sse_stream. rewrite E. unfold get_task_stream.
  rewrite Hs', Hl. cbn [negb sev_final status_event].
  destruct (is_final_state (st_state (task_status task))) eqn:Hf.
  - eexists. split; [done|]. split; [|done].
    assert (next_queue m'
            ∈ default [] (task_streams m' !! sp_id send_params)
              ++ [next_queue m']) as Hin
      by (apply elem_of_app; right; apply list_elem_of_here).
    unfold unsubscribe. cbn [subscribed task_streams set_task_streams new_queue
                               snd].
    rewrite lookup_insert_eq.
    destruct (ManagerFacts.list_remove_elem _ _ Hin) as [l ->].
    cbn [snd]. unfold frames_of. rewrite app_nil_r. by rewrite fmap_cons.
  - destruct (listen _ _ _ _ _) as [[m'' later] r]. eexists.
    split; [done|]. split; [|by intros [=]].
    cbn [snd]. unfold frames_of.
    rewrite <- app_comm_cons, fmap_cons, <- app_comm_cons. reflexivity.
Qed.

Lemma send_subscribe_starts_after_processing_witness :
  let send_params := Samples.send_params "t3" "convert this code" in
  ∃ m' task rest,
    create_task send_params Samples.m_completed = (m', Ok task)
    ∧ (sse_stream (SendSubscribeStream send_params)
         [(1, CancelTask "t3")] Samples.m_completed).2
      = EventFrame (StatusEvent (status_event task)) :: rest
    ∧ (is_final_state (st_state (task_status task)) = true →
       rest = EventFrame <$> artifact_replay task).
Proof.
  exact (send_subscribe_starts_after_processing
           (Samples.send_params "t3" "convert this code")
           [(1, CancelTask "t3")] Samples.m_completed eq_refl).
Defined.

End ServerFacts.

(** ** The protocol client *)

Module ClientFacts.
Import Manager Server Client.

Lemma dispatch_other lib fields :
  has_key "status" fields = false →
  has_key "artifact" fields = false →
  dispatch lib (JObj fields) = Ok [].
Proof. intros Hs Ha. unfold dispatch. cbn. by rewrite Hs, Ha. Qed.

Lemma handle_frame_other lib event fields :
  (∀ event_data,
     event_data_of event = Some event_data →
     json_loads lib event_data = Some (JObj fields)) →
  has_key "status" fields = false →
  has_key "artifact" fields = false →
  handle_frame lib event = Ok [].
Proof.
  intros Hloads Hs Ha. unfold handle_frame.
  destruct (event_data_of event) as [[|c event_data]|]; [done| |done].
  rewrite (Hloads _ eq_refl). by apply dispatch_other.
Qed.

(** The error frames of the server carry an error object. *)
Lemma sse_stream_error_frames source script m payload :
  ErrorFrame payload ∈ (sse_stream source script m).2 →
  ∃ e, payload = error_event e.
Proof.
  assert (∀ events r, ErrorFrame payload ∈ frames_of events r →
                      ∃ e, payload = error_event e) as Hframes.
  { intros events r [Hin|Hin]%elem_of_app.
    - apply list_elem_of_fmap in Hin as (e & [=] & _).
    - destruct r as [|e]; [by apply elem_of_nil in Hin|].
      apply list_elem_of_singleton in Hin as [= ->]. by exists e. }
  destruct source as [send_params|query_params]; cbn.
  - destruct (create_task send_params m) as [m1 [task|e]].
    + destruct (get_task_stream _ _ script m1) as [[m2 events] r]. cbn.
      apply Hframes.
    + cbn. intros [= ->]%list_elem_of_singleton. by exists e.
  - destruct (get_task_stream _ _ script m) as [[m2 events] r]. cbn.
    apply Hframes.
Qed.

Lemma error_event_keyless e : keyless (error_event e).
Proof. by eexists. Qed.

(** C10.  A frame whose data is the text of a JSON object with neither a
    "status" nor an "artifact" key, or the text of the error object of an
    error frame the server sends, makes the consumer yield nothing and
    raise nothing, and the loop goes on with the rest of the buffer as if
    the frame had not been there. *)
Theorem keyless_frame_is_skipped lib event event_data payload :
  event_data_of event = Some event_data →
  json_loads lib event_data = Some payload →
  keyless payload
  ∨ (∃ source script m, ErrorFrame payload ∈ (sse_stream source script m).2) →
  handle_frame lib event = Ok []
  ∧ ∀ fuel buffer rest,
      Str.split2_once "010"%char "010"%char buffer = Some (event, rest) →
      while_frames lib (S fuel) buffer = while_frames lib fuel rest.
Proof.
  intros Hdata Hloads Hpayload.
  assert (keyless payload) as (fields & -> & Hs & Ha).
  { destruct Hpayload as [?|(source & script & m & Hin)]; [done|].
    apply sse_stream_error_frames in Hin as [e ->].
    apply error_event_keyless. }
  assert (handle_frame lib event = Ok []) as Hskip.
  { apply (handle_frame_other lib event fields); [|done..].
    intros d Hd. congruence. }
  split; [done|].
  intros fuel buffer rest Hsplit. cbn [while_frames].
  rewrite Hsplit, Hskip. by destruct (while_frames lib fuel rest) as [[? ?] ?].
Qed.

Lemma keyless_frame_is_skipped_witness :
  let frame := "data: " +:+ Samples.not_found_text in
  handle_frame Samples.reader frame = Ok []
  ∧ ∀ fuel buffer rest,
      Str.split2_once "010"%char "010"%char buffer = Some (frame, rest) →
      while_frames Samples.reader (S fuel) buffer
      = while_frames Samples.reader fuel rest.
Proof.
  apply (keyless_frame_is_skipped Samples.reader
           ("data: " +:+ Samples.not_found_text) Samples.not_found_text
           (error_event (ValueError "Task not found: t2")));
    [by vm_compute|by vm_compute|].
  right.
  exists (ResubscribeStream {| qp_id := "t2"; qp_historyLength := None |}),
    [], Samples.m_completed.
  vm_compute. apply list_elem_of_here.
Defined.

(** The same on a whole response: the error frame, and an empty object,
    amid chunks that cut the frames anywhere, leave the consumer with
    nothing yielded and no exception. *)
Example error_frame_in_a_stream :
  stream_events Samples.reader
    ["data: {}" +:+ Str.nl;
     Str.nl +:+ "data: " +:+ Samples.not_found_text +:+ Str.nlnl;
     "data: "] ""
  = ([], None).
Proof. by vm_compute. Qed.

(** *** The response in chunks *)

Lemma append_cons (c : ascii) (s t : string) :
  String c s +:+ t = String c (s +:+ t).
Proof. reflexivity. Qed.

Lemma append_nil_r (s : string) : s +:+ "" = s.
Proof.
  induction s as [|c s IH]; [done|]. by rewrite append_cons, IH.
Qed.

Lemma append_assoc (s1 s2 s3 : string) :
  (s1 +:+ s2) +:+ s3 = s1 +:+ (s2 +:+ s3).
Proof.
  induction s1 as [|c s1 IH]; [done|]. by rewrite !append_cons, IH.
Qed.

Lemma length_append (s t : string) :
  String.length (s +:+ t) = String.length s + String.length t.
Proof.
  induction s as [|c s IH]; [done|]. rewrite append_cons. cbn. by rewrite IH.
Qed.

Lemma join_empty_cons (x : string) (l : list string) :
  Str.join "" (x :: l) = x +:+ Str.join "" l.
Proof.
  destruct l; cbn [Str.join]; [symmetry; apply append_nil_r|done].
Qed.

Lemma split2_once_cons a b c d s :
  Str.split2_once a b (String c (String d s))
  = if Ascii.eqb c a && Ascii.eqb d b then Some (EmptyString, s)
    else match Str.split2_once a b (String d s) with
         | Some (pre, post) => Some (String c pre, post)
         | None => None
         end.
Proof. reflexivity. Qed.

Lemma split2_once_app a b s c event rest :
  Str.split2_once a b s = Some (event, rest) →
  Str.split2_once a b (s +:+ c) = Some (event, rest +:+ c).
Proof.
  revert event rest. induction s as [|x s IH]; intros event rest; [done|].
  destruct s as [|d s']; [done|].
  rewrite !append_cons, !split2_once_cons. rewrite append_cons in IH.
  destruct (Ascii.eqb x a && Ascii.eqb d b).
  - by intros [= <- <-].
  - destruct (Str.split2_once a b (String d s')) as [[pre post]|]; [|done].
    intros [= <- <-]. by rewrite (IH _ _ eq_refl).
Qed.

Lemma split2_once_shorter a b s event rest :
  Str.split2_once a b s = Some (event, rest) →
  String.length rest < String.length s.
Proof.
  revert event rest. induction s as [|x s IH]; intros event rest; [done|].
  destruct s as [|d s']; [done|]. rewrite split2_once_cons.
  destruct (Ascii.eqb x a && Ascii.eqb d b).
  - intros [= <- <-]. cbn. lia.
  - destruct (Str.split2_once a b (String d s')) as [[pre post]|]; [|done].
    intros [= <- <-]. specialize (IH _ _ eq_refl). cbn in *. lia.
Qed.

Section Chunks.
Context (lib : Library).

Abbreviation frames_in buffer :=
  (while_frames lib (String.length buffer) buffer).

(** The fuel of the frame loop is enough as soon as it is the length of
    the buffer. *)
Lemma while_frames_fuel fuel1 fuel2 buffer :
  String.length buffer ≤ fuel1 →
  String.length buffer ≤ fuel2 →
  while_frames lib fuel1 buffer = while_frames lib fuel2 buffer.
Proof.
  revert fuel2 buffer.
  induction fuel1 as [|fuel1 IH]; intros fuel2 buffer H1 H2.
  - destruct buffer; [|cbn in H1; lia]. by destruct fuel2.
  - destruct fuel2 as [|fuel2].
    { destruct buffer; [done|cbn in H2; lia]. }
    cbn [while_frames].
    destruct (Str.split2_once _ _ buffer) as [[event rest]|] eqn:Hsplit;
      [|done].
    apply split2_once_shorter in Hsplit.
    destruct (handle_frame lib event); [|done].
    by rewrite (IH fuel2 rest) by lia.
Qed.

(** When the loop ends without exception, the buffer it leaves holds no
    whole frame. *)
Lemma while_frames_left fuel buffer yielded remaining :
  String.length buffer ≤ fuel →
  while_frames lib fuel buffer = (yielded, remaining, None) →
  Str.split2_once "010"%char "010"%char remaining = None.
Proof.
  revert buffer yielded.
  induction fuel as [|fuel IH]; intros buffer yielded Hfuel.
  - destruct buffer; [|cbn in Hfuel; lia]. by intros [= <- <-].
  - cbn [while_frames].
    destruct (Str.split2_once _ _ buffer) as [[event rest]|] eqn:Hsplit.
    2:{ by intros [= <- <-]. }
    apply split2_once_shorter in Hsplit.
    destruct (handle_frame lib event) as [ys|]; [|done].
    destruct (while_frames lib fuel rest) as [[later left] r] eqn:E.
    intros [= <- <- ->]. apply (IH rest later); [lia|done].
Qed.

(** The frames of a buffer to which more text is appended: those of the
    buffer, then those of what the buffer left with the text after it. *)
Lemma while_frames_app fuel buffer more :
  String.length buffer ≤ fuel →
  frames_in (buffer +:+ more)
  = match while_frames lib fuel buffer with
    | (yielded, remaining, Some e) => (yielded, remaining +:+ more, Some e)
    | (yielded, remaining, None) =>
        let '(later, remaining', r) := frames_in (remaining +:+ more) in
        (yielded ++ later, remaining', r)
    end.
Proof.
  revert buffer. induction fuel as [|fuel IH]; intros buffer Hfuel.
  - destruct buffer; [|cbn in Hfuel; lia]. cbn.
    by destruct (frames_in ("" +:+ more)) as [[later left] r].
  - cbn [while_frames].
    destruct (Str.split2_once _ _ buffer) as [[event rest]|] eqn:Hsplit.
    2:{ by destruct (frames_in (buffer +:+ more)) as [[later left] r]. }
    pose proof (split2_once_shorter _ _ _ _ _ Hsplit) as Hshort.
    rewrite (while_frames_fuel _ (S (String.length (buffer +:+ more)))
               (buffer +:+ more)) by lia.
    cbn [while_frames]. rewrite (split2_once_app _ _ _ more _ _ Hsplit).
    destruct (handle_frame lib event) as [ys|e]; [|done].
    assert (String.length (rest +:+ more) ≤ String.length (buffer +:+ more))
      as Hle by (rewrite !length_append; lia).
    rewrite (while_frames_fuel _ (String.length (rest +:+ more))
               (rest +:+ more)) by lia.
    rewrite (IH rest) by lia.
    destruct (while_frames lib fuel rest) as [[later left] [e|]]; [done|].
    destruct (frames_in (left +:+ more)) as [[later' left'] r'].
    by rewrite app_assoc.
Qed.

Lemma while_frames_none fuel buffer :
  Str.split2_once "010"%char "010"%char buffer = None →
  while_frames lib fuel buffer = ([], buffer, None).
Proof. intros Hnone. destruct fuel; [done|]. cbn. by rewrite Hnone. Qed.

Lemma stream_events_whole chunks buffer :
  Str.split2_once "010"%char "010"%char buffer = None →
  stream_events lib chunks buffer
  = stream_events lib [buffer +:+ Str.join "" chunks] "".
Proof.
  revert buffer. induction chunks as [|chunk chunks IH]; intros buffer Hnone.
  - cbn [stream_events Str.join]. change ("" +:+ ?s) with s.
    rewrite append_nil_r. by rewrite while_frames_none.
  - rewrite join_empty_cons, <- append_assoc.
    cbn [stream_events]. change ("" +:+ ?s) with s.
    rewrite (while_frames_app (String.length (buffer +:+ chunk))
               (buffer +:+ chunk) (Str.join "" chunks)) by lia.
    destruct (frames_in (buffer +:+ chunk))
      as [[yielded remaining] [e|]] eqn:E; [done|].
    rewrite (IH remaining) by (by eapply while_frames_left in E).
    cbn [stream_events]. change ("" +:+ ?s) with s.
    destruct (frames_in (remaining +:+ Str.join "" chunks))
      as [[later left] [e|]]; [done|].
    cbn. by rewrite !app_nil_r.
Qed.

End Chunks.

(** X19.  The events the client yields, and the error it ends with if
    any, depend on the text of the response only, not on the chunks the
    transport delivers it in: two responses with the same text, cut in any
    two ways, are read alike. *)
Theorem chunks_do_not_matter lib chunks1 chunks2 :
  Str.join "" chunks1 = Str.join "" chunks2 →
  stream_events lib chunks1 "" = stream_events lib chunks2 "".
Proof.
  intros Hsame.
  rewrite (stream_events_whole lib chunks1 "") by done.
  rewrite (stream_events_whole lib chunks2 "") by done.
  by rewrite Hsame.
Qed.

Lemma chunks_do_not_matter_witness :
  stream_events Samples.reader
    ["data: {}" +:+ Str.nl;
     Str.nl +:+ "data: " +:+ Samples.not_found_text +:+ Str.nlnl;
     "data: "] ""
  = stream_events Samples.reader
      ["data: {}" +:+ Str.nlnl +:+ "data: " +:+ Samples.not_found_text;
       Str.nlnl +:+ "data: "] "".
Proof. by apply chunks_do_not_matter. Defined.

End ClientFacts.

(** ** The host agent *)

Module HostFacts.
Import Host.










(** *** The agent a message is routed to is one the host knows *)

Lemma lookup_url_in {A : Type} url (value : A) d :
  (url, value) ∈ d → is_Some (lookup_url url d).
Proof.
  induction d as [|[k v] d IH]; intros Hin; [by apply elem_of_nil in Hin|].
  cbn. destruct (String.eqb k url) eqn:Heq; [by eexists|].
  apply elem_of_cons in Hin as [[= -> ->]|Hin]; [|by apply IH].
  by rewrite String.eqb_refl in Heq.
Qed.

Lemma first_skill_in_url lowered url skill_ids found :
  first_skill_in lowered url skill_ids = Some found → found.1 = url.
Proof.
  induction skill_ids as [|skill_id skill_ids IH]; [done|]. cbn.
  destruct (Str.contains skill_id lowered); [by intros [= <-]|done].
Qed.

Lemma exact_match_known lowered skills url skill_id :
  exact_match lowered skills = Some (url, skill_id) →
  is_Some (lookup_url url skills).
Proof.
  induction skills as [|[url' ids] skills IH]; [done|]. cbn.
  destruct (first_skill_in lowered url' ids) as [found|] eqn:Hfound.
  - intros [= ->]. apply first_skill_in_url in Hfound. cbn in Hfound.
    subst url'. rewrite String.eqb_refl. by eexists.
  - intros Hrest. destruct (String.eqb url' url); [by eexists|by apply IH].
Qed.

Lemma first_agent_with_known word skills url :
  first_agent_with word skills = Some url → is_Some (lookup_url url skills).
Proof.
  induction skills as [|[url' ids] skills IH]; [done|]. cbn.
  destruct (existsb (Str.contains word) ids).
  - intros [= ->]. rewrite String.eqb_refl. by eexists.
  - intros Hrest. destruct (String.eqb url' url); [by eexists|by apply IH].
Qed.

Lemma _extract_skill_info_known host message url skill :
  _extract_skill_info host message = (Some url, skill) →
  is_Some (lookup_url url (agent_skills host)).
Proof.
  unfold _extract_skill_info.
  destruct (exact_match _ _) as [[url' skill_id]|] eqn:Hexact.
  { intros [= -> _]. by eapply exact_match_known. }
  destruct (if _ : bool then first_agent_with "code" _ else None)
    as [url'|] eqn:Hcode.
  { intros [= -> _].
    destruct (_ || _); [|done]. by eapply first_agent_with_known. }
  destruct (if _ : bool then first_agent_with "data" _ else None)
    as [url'|] eqn:Hdata; [|done].
  intros [= -> _]. clear Hcode.
  destruct (_ || _); [|done]. by eapply first_agent_with_known.
Qed.

Lemma _process_message_aligned host message session_id actions r :
  HostConnections.aligned host →
  _process_message host message session_id = Some (actions, r) →
  ∃ text, r = Ok text.
Proof.
  intros Haligned. unfold _process_message.
  destruct (remote_agents host) as [|remote remotes] eqn:Hremotes.
  { intros [= _ <-]. by eexists. }
  destruct (_extract_skill_info host message) as [[url|] skill] eqn:Hinfo.
  2:{ intros [= _ <-]. by eexists. }
  destruct url as [|c url]; [intros [= _ <-]; by eexists|].
  destruct (Haligned _ (_extract_skill_info_known _ _ _ _ Hinfo))
    as [conn Hconn].
  rewrite Hremotes in Hconn. rewrite Hconn.
  destruct (route_to _ conn message session_id) as [[actions' text]|];
    [|done].
  intros [= _ <-]. by eexists.
Qed.

(** X20.  When the host has a connection to every agent it has skills of,
    [_process_message] raises nothing: whatever the message and whatever
    the remote agents do, once it returns it returns a text. *)
Theorem process_message_never_raises host message session_id actions r :
  HostConnections.aligned host →
  _process_message host message session_id = Some (actions, r) →
  ∃ text, r = Ok text.
Proof. apply _process_message_aligned. Qed.

Lemma process_message_never_raises_witness :
  let working := Samples.remote_task WORKING None None in
  let failed := Samples.remote_task FAILED None None in
  let host := Samples.host_of (Samples.remote working [working; failed]) in
  ∃ text,
    snd <$> _process_message host "Please AWS-to-GCP this snippet" None
    = Some (Ok text).
Proof.
  cbv zeta.
  destruct (_process_message _ "Please AWS-to-GCP this snippet" None)
    as [[actions r]|] eqn:E; [|by vm_compute in E].
  assert (HostConnections.aligned
            (Samples.host_of
               (Samples.remote (Samples.remote_task WORKING None None)
                  [Samples.remote_task WORKING None None;
                   Samples.remote_task FAILED None None]))) as Haligned.
  { intros url. unfold Samples.host_of. cbn [agent_skills remote_agents lookup_url].
    destruct (String.eqb "http://localhost:8001" url);
      [by eexists|by intros [? [=]]]. }
  destruct (process_message_never_raises _ _ _ _ _ Haligned E) as [text ->].
  by exists text.
Defined.

(** *** Connecting and disconnecting *)

Lemma filter_all {B : Type} (P : B → Prop) `{∀ x, Decision (P x)} l :
  Forall P l → filter P l = l.
Proof.
  induction 1 as [|x l Hx _ IH]; [done|].
  by rewrite filter_cons_True, IH.
Qed.

Lemma filter_none {B : Type} (P : B → Prop) `{∀ x, Decision (P x)} l :
  Forall (λ x, ¬ P x) l → filter P l = [].
Proof.
  induction 1 as [|x l Hx _ IH]; [done|]. by rewrite filter_cons_False.
Qed.

Section Dictionaries.
Import HostConnections.
Context {A : Type}.
Implicit Types d : list (string * A).

Lemma lookup_url_none url d : lookup_url url d = None ↔ url ∉ d.*1.
Proof.
  induction d as [|[k v] d IH]; cbn.
  - split; [intros _; apply not_elem_of_nil|done].
  - destruct (String.eqb k url) eqn:Heq.
    + apply String.eqb_eq in Heq as ->. split; [done|].
      intros Hnotin. destruct Hnotin. apply list_elem_of_here.
    + apply String.eqb_neq in Heq. rewrite IH, not_elem_of_cons.
      split; [by intros ?; split|by intros [_ ?]].
Qed.

Lemma lookup_url_dict_set url key (value : A) d :
  lookup_url url (dict_set key value d)
  = if decide (url = key) then Some value else lookup_url url d.
Proof.
  induction d as [|[k v] d IH]; cbn.
  - case_decide as Heq; [subst; by rewrite String.eqb_refl|].
    by rewrite (proj2 (String.eqb_neq _ _)).
  - destruct (String.eqb k key) eqn:Hk; cbn.
    + apply String.eqb_eq in Hk as ->.
      case_decide as Heq; [subst; by rewrite String.eqb_refl|].
      by rewrite (proj2 (String.eqb_neq _ _)).
    + rewrite IH. apply String.eqb_neq in Hk.
      destruct (String.eqb k url) eqn:Hu; [|done].
      apply String.eqb_eq in Hu as ->. by rewrite decide_False.
Qed.

Lemma dict_set_keys key (value : A) d :
  (dict_set key value d).*1
  = if decide (key ∈ d.*1) then d.*1 else d.*1 ++ [key].
Proof.
  induction d as [|[k v] d IH]; cbn.
  - by rewrite decide_False by apply not_elem_of_nil.
  - destruct (String.eqb k key) eqn:Hk; cbn.
    + apply String.eqb_eq in Hk as ->.
      by rewrite decide_True by apply list_elem_of_here.
    + apply String.eqb_neq in Hk. rewrite IH.
      destruct (decide (key ∈ d.*1)) as [Hin|Hnotin].
      * by rewrite decide_True by (by apply list_elem_of_further).
      * rewrite decide_False; [done|].
        by intros [?|?]%elem_of_cons.
Qed.

Lemma dict_set_nodup key (value : A) d :
  NoDup d.*1 → NoDup (dict_set key value d).*1.
Proof.
  intros Hnd. rewrite dict_set_keys. case_decide as Hin; [done|].
  apply NoDup_app. split; [done|]. split; [|apply NoDup_singleton].
  intros k Hk ->%list_elem_of_singleton. done.
Qed.

Lemma dict_del_keys key d :
  NoDup d.*1 → (dict_del key d).*1 = filter (λ k, k ≠ key) d.*1.
Proof.
  induction d as [|[k v] d IH]; intros Hnd; [done|]. cbn in *.
  apply NoDup_cons in Hnd as [Hk Hnd].
  destruct (String.eqb k key) eqn:Heq.
  - apply String.eqb_eq in Heq as ->.
    rewrite decide_False by (by intros ?).
    symmetry. apply filter_all.
    apply Forall_forall. by intros x Hx ->.
  - apply String.eqb_neq in Heq. cbn.
    rewrite decide_True by done. by rewrite IH.
Qed.

Lemma dict_del_nodup key d : NoDup d.*1 → NoDup (dict_del key d).*1.
Proof.
  intros Hnd. rewrite dict_del_keys by done. by apply NoDup_filter.
Qed.

Lemma lookup_url_dict_del url key d :
  NoDup d.*1 →
  lookup_url url (dict_del key d)
  = if decide (url = key) then None else lookup_url url d.
Proof.
  induction d as [|[k v] d IH]; intros Hnd; cbn in *.
  - by case_decide.
  - apply NoDup_cons in Hnd as [Hk Hnd].
    destruct (String.eqb k key) eqn:Heq.
    + apply String.eqb_eq in Heq as ->. case_decide as Hu.
      * subst. by apply lookup_url_none.
      * by rewrite (proj2 (String.eqb_neq _ _)).
    + apply String.eqb_neq in Heq. cbn. rewrite IH by done.
      destruct (String.eqb k url) eqn:Hu; [|done].
      apply String.eqb_eq in Hu as ->. by rewrite decide_False.
Qed.

Lemma dict_del_dict_set key (value : A) d :
  key ∉ d.*1 → dict_del key (dict_set key value d) = d.
Proof.
  induction d as [|[k v] d IH]; intros Hnotin; cbn.
  - by rewrite String.eqb_refl.
  - apply not_elem_of_cons in Hnotin as [Hne Hnotin]. cbn in Hne.
    rewrite (proj2 (String.eqb_neq k key)) by done. cbn.
    rewrite (proj2 (String.eqb_neq k key)) by done. by rewrite IH.
Qed.

End Dictionaries.

Section Connections.
Import HostConnections.

Lemma register_skills url card l h :
  foldl (λ h skill, register_skill (skill_with_source url card skill) h) h l
  = {| host := host h;
       skills := skills h ++ (skill_with_source url card <$> l);
       agent_card_skills :=
         agent_card_skills h ++ (skill_with_source url card <$> l) |}.
Proof.
  revert h. induction l as [|skill l IH]; intros h; cbn.
  - rewrite !app_nil_r. by destruct h.
  - rewrite IH. cbn. by rewrite <- !app_assoc.
Qed.

Lemma connected_connect url card answers h :
  connected (host h) → connected (host (connect_to_agent url card answers h).1).
Proof.
  intros Hco. unfold connect_to_agent.
  destruct (lookup_url url (remote_agents (host h))) as [known|] eqn:Hknown;
    [done|].
  destruct card as [card|e]; [|done]. cbn [fst]. rewrite register_skills.
  destruct Hco as [H1 H2 H3 H4]. split; cbn.
  - by apply dict_set_nodup.
  - by apply dict_set_nodup.
  - intros url'. rewrite !lookup_url_dict_set.
    case_decide; [split; by eexists|apply H3].
  - intros url' agent_conn. rewrite lookup_url_dict_set.
    case_decide; [intros [= <-]; by eexists|apply H4].
Qed.

Lemma connected_connect_all agent_configs h :
  connected (host h) → connected (host (connect_to_agents agent_configs h)).
Proof.
  unfold connect_to_agents. revert h.
  induction agent_configs as [|config agent_configs IH]; intros h Hco; [done|].
  cbn [foldl]. apply IH.
  destruct (config_url config) as [[|c url]|]; [done| |done].
  by apply connected_connect.
Qed.

Lemma connected_disconnect url h :
  connected (host h) → connected (host (disconnect_from_agent url h)).
Proof.
  intros Hco. unfold disconnect_from_agent.
  destruct (lookup_url url (remote_agents (host h))) as [conn|] eqn:Hconn;
    [|done].
  destruct Hco as [H1 H2 H3 H4].
  destruct (proj2 (H3 url) (ex_intro _ _ Hconn)) as [ids ->].
  split; cbn.
  - by apply dict_del_nodup.
  - by apply dict_del_nodup.
  - intros url'. rewrite !lookup_url_dict_del by done.
    case_decide; [split; by intros [? [=]]|apply H3].
  - intros url' agent_conn. rewrite lookup_url_dict_del by done.
    case_decide; [done|apply H4].
Qed.

Lemma connected_exec op h : connected (host h) → connected (host (exec op h)).
Proof.
  destruct op; cbn [exec].
  - apply connected_connect.
  - apply connected_connect_all.
  - apply connected_disconnect.
Qed.

(** X21.  Whatever connections a host agent has made and given up since
    it was created, it has a connection to exactly the agents it has
    skills of, and each connection holds the card fetched when it was
    made: routing a message then never raises (no [KeyError] on the
    connection) and never fails at the card of the remote. *)
Theorem connections_stay_aligned own_skills ops :
  let a := host (foldl (λ h op, exec op h) (unconnected own_skills) ops) in
  (∀ url,
     is_Some (lookup_url url (agent_skills a))
     ↔ is_Some (lookup_url url (remote_agents a)))
  ∧ (∀ url agent_conn,
       lookup_url url (remote_agents a) = Some agent_conn →
       ∃ name, get_card agent_conn = Ok name)
  ∧ ∀ message session_id actions r,
      _process_message a message session_id = Some (actions, r) →
      ∃ text, r = Ok text.
Proof.
  intros a.
  assert (connected a) as Hco.
  { subst a.
    assert (connected (host (unconnected own_skills))) as H0.
    { split; cbn; [constructor|constructor| |done].
      intros url. split; by intros [? [=]]. }
    revert H0. generalize (unconnected own_skills).
    induction ops as [|op ops IH]; intros h Hco; [done|].
    cbn [foldl]. by apply IH, connected_exec. }
  split; [apply (co_same a Hco)|]. split; [apply (co_card a Hco)|].
  intros message session_id actions r.
  apply _process_message_aligned.
  intros url. apply (co_same a Hco).
Qed.

(** X22.  Connecting to an agent the host had no connection to, and
    disconnecting from it again, leaves the connections and the skill ids
    of the host as they were.  The skills registered for the agent are
    taken out of the skill list of the host (with any skill the host had
    under one of their ids), but they stay in its agent card, which goes
    on announcing them. *)
Theorem connect_then_disconnect url card answers h :
  url ∉ (remote_agents (host h)).*1 →
  url ∉ (agent_skills (host h)).*1 →
  let registered := skill_with_source url card <$> card_skills card in
  let h' :=
    disconnect_from_agent url (connect_to_agent url (Ok card) answers h).1 in
  host h' = host h
  ∧ skills h'
    = filter (λ skill, skill_id skill ∉ skill_id <$> registered) (skills h)
  ∧ agent_card_skills h' = agent_card_skills h ++ registered.
Proof.
  intros Hremote Hskills registered h'. subst h'.
  unfold connect_to_agent.
  rewrite (proj2 (lookup_url_none _ _) Hremote). cbn [fst].
  rewrite register_skills. unfold disconnect_from_agent. cbn.
  rewrite !lookup_url_dict_set, !decide_True by done.
  cbn. rewrite !dict_del_dict_set by done.
  assert ((λ id, url +:+ ":" +:+ id) <$> (skill_id <$> card_skills card)
          = skill_id <$> registered) as ->.
  { subst registered. rewrite <- !list_fmap_compose. done. }
  split; [by destruct (host h)|]. split; [|done].
  fold registered. rewrite filter_app.
  assert (filter (λ skill, skill_id skill ∉ skill_id <$> registered)
            registered = []) as ->; [|by rewrite app_nil_r].
  apply filter_none. apply Forall_forall. intros skill Hin Hnotin.
  apply Hnotin. by apply list_elem_of_fmap_2.
Qed.

Lemma connect_then_disconnect_witness :
  let url := "http://localhost:8001" in
  let h := unconnected [Samples.aws_to_gcp] in
  let answers :=
    Samples.remote (Samples.remote_task COMPLETED None None) [] in
  let registered :=
    {| skill_id := "http://localhost:8001:aws-to-gcp";
       skill_name := "AWS to GCP Code Conversion";
       skill_description :=
         Some "[From Code Conversion Agent] Convert AWS-specific code to GCP-equivalent code";
       skill_tags := Some ["code"; "conversion"; "aws"; "gcp"];
       skill_examples := None;
       skill_inputModes := Some ["text"];
       skill_outputModes := Some ["text"] |} in
  let h' :=
    disconnect_from_agent url
      (connect_to_agent url (Ok Samples.code_conversion_card) answers h).1 in
  host h' = host h
  ∧ skills h' = [Samples.aws_to_gcp]
  ∧ agent_card_skills h' = [Samples.aws_to_gcp; registered].
Proof.
  cbv zeta.
  destruct (connect_then_disconnect "http://localhost:8001"
              Samples.code_conversion_card
              (Samples.remote (Samples.remote_task COMPLETED None None) [])
              (unconnected [Samples.aws_to_gcp]))
    as (Hhost & Hskills & Hcard).
  - apply not_elem_of_nil.
  - apply not_elem_of_nil.
  - split; [exact Hhost|]. split; [|exact Hcard].
    rewrite Hskills. by vm_compute.
Defined.

End Connections.

End HostFacts.

(** ** The agents *)

Module AgentFacts.
Import Manager Agents.

(** X23.  On the manager of an agent, whose processing callback is
    [BaseAgent.process_task], [create_task] returns the task of the id of
    the call either COMPLETED, with the text [_process_message] returned as
    its status message and as its one artifact, named "response", or
    FAILED, with the message "Error: " followed by the text of the
    exception [_process_message] raised, and without artifact.  The
    artifacts [_process_message] added through [add_artifact] meanwhile
    are not in the task, and the failure branch of the manager itself is
    never taken. *)
Theorem base_agent_create_task _process_message now params m :
  task_processor m = Some (process_task _process_message now) →
  ∃ m' task,
    create_task params m = (m', Ok task)
    ∧ tasks m' !! sp_id params = Some task
    ∧ task_id task = sp_id params
    ∧ match mp_outcome
              (_process_message
                 (Host._extract_message_text (sp_message params)) params)
      with
      | Ok text => task = completed_with params now text
      | Raise e =>
          st_state (task_status task) = FAILED
          ∧ st_message (task_status task)
            = Some (agent_message ("Error: " +:+ exc_str e))
          ∧ task_artifacts task = Some []
      end.
Proof.
  intros Hproc.
  destruct (ManagerFacts.create_task_returned params _ _ m Hproc eq_refl)
    as [E Hl].
  eexists _, _. split; [exact E|]. split; [exact Hl|].
  by destruct (mp_outcome _).
Qed.

Lemma base_agent_create_task_witness :
  let echo (message : string) (params : TaskSendParams) :=
    {| mp_artifacts := [(sp_id params, Samples.text_artifact 3 None "draft", false)];
       mp_outcome := Ok ("you said: " +:+ message) |} in
  let params := Samples.send_params "t1" "hello" in
  ∃ m' task,
    create_task params (init (Some (process_task echo 5)) true false)
    = (m', Ok task)
    ∧ tasks m' !! "t1" = Some task
    ∧ task_id task = "t1"
    ∧ task = completed_with params 5 "you said: hello".
Proof.
  cbv zeta.
  exact (base_agent_create_task
           (λ message params,
              {| mp_artifacts :=
                   [(sp_id params, Samples.text_artifact 3 None "draft",
                     false)];
                 mp_outcome := Ok ("you said: " +:+ message) |})
           5 (Samples.send_params "t1" "hello")
           (init (Some (process_task _ 5)) true false) eq_refl).
Defined.

(** X24.  A task given to the data migration agent always ends
    COMPLETED, also when the call of Gemini fails: the failure is turned
    into the text "Error processing data migration request: ..." and that
    text is the answer of the task.  The one artifact of the task is the
    artifact "response" with the answer; the artifact "migration_result"
    the agent adds while it processes the message is not in it. *)
Theorem data_migration_task_is_completed generate_text now params m :
  task_processor m
  = Some (process_task (data_migration_process_message generate_text) now) →
  let answer :=
    match generate_text
            (data_migration_prompt
               (Host._extract_message_text (sp_message params)))
    with
    | Ok response => response
    | Raise e => "Error processing data migration request: " +:+ exc_str e
    end in
  ∃ m',
    create_task params m = (m', Ok (completed_with params now answer))
    ∧ tasks m' !! sp_id params = Some (completed_with params now answer).
Proof.
  intros Hproc answer.
  destruct (ManagerFacts.create_task_returned params _ _ m Hproc eq_refl)
    as [E Hl].
  assert (mp_outcome
            (data_migration_process_message generate_text
               (Host._extract_message_text (sp_message params)) params)
          = Ok answer) as Hanswer.
  { subst answer. unfold data_migration_process_message.
    by destruct (generate_text _). }
  eexists. cbn [process_task proc_outcome] in E, Hl.
  rewrite Hanswer in E, Hl. split; [exact E|exact Hl].
Qed.

Lemma data_migration_task_is_completed_witness :
  let generate_text (prompt : string) : Result string :=
    Raise (OtherError "API key not valid") in
  let params := Samples.send_params "t1" "move my DynamoDB table to Firestore" in
  let answer :=
    "Error processing data migration request: API key not valid" in
  ∃ m',
    create_task params
      (init (Some (process_task
                     (data_migration_process_message generate_text) 5))
         true false)
    = (m', Ok (completed_with params 5 answer))
    ∧ tasks m' !! "t1" = Some (completed_with params 5 answer).
Proof.
  cbv zeta.
  exact (data_migration_task_is_completed
           (λ _, Raise (OtherError "API key not valid")) 5
           (Samples.send_params "t1" "move my DynamoDB table to Firestore")
           (init (Some (process_task
                          (data_migration_process_message
                             (λ _, Raise (OtherError "API key not valid")))
                          5)) true false) eq_refl).
Defined.

End AgentFacts.

(** ** One request of the client *)

Module RequestFacts.
Import Manager Server Requests.

Section Client.
Context {AgentCard : Type} (lib : Requests.Library).
Implicit Types (resolved : Result AgentCard) (agent_card : option AgentCard).

Lemma _make_request_posted resolved post uuid4 method params agent_card card :
  (_ensure_agent_card resolved agent_card).1 = Some card →
  _make_request lib resolved post uuid4 method params agent_card
  = (Some card, [_build_jsonrpc_request method params uuid4],
     match post (_build_jsonrpc_request method params uuid4) with
     | HTTPStatusError status_code text =>
         Raise (A2AClientError
                  ("HTTP error: " +:+ py_str_int status_code +:+ " - "
                     +:+ text))
     | Failed e => Raise (A2AClientError ("Request failed: " +:+ exc_str e))
     | Answered result =>
         match read_result lib result with
         | Ok value => Ok value
         | Raise e => Raise (A2AClientError ("Request failed: " +:+ exc_str e))
         end
     end).
Proof.
  unfold _make_request, _ensure_agent_card.
  destruct agent_card as [c|]; [by intros [= ->]|].
  destruct resolved as [c|e]; [by intros [= ->]|done].
Qed.

(** X25.  When the client has no agent card and cannot get one,
    [_make_request] posts nothing, raises what the resolver raised and
    leaves the card unset, so that the next request tries again.  In every
    other case it posts one request and keeps the card; what it then
    raises is an [A2AClientError] whose text starts with "HTTP error: " or
    with "Request failed: ", whatever the agent answered. *)
Theorem make_request_failures resolved post uuid4 method params agent_card :
  let outcome :=
    _make_request lib resolved post uuid4 method params agent_card in
  match (_ensure_agent_card resolved agent_card).2 with
  | Raise e => agent_card = None ∧ outcome = (None, [], Raise e)
  | Ok _ =>
      is_Some outcome.1.1
      ∧ outcome.1.2 = [_build_jsonrpc_request method params uuid4]
      ∧ ∀ e, outcome.2 = Raise e →
             ∃ text,
               e = A2AClientError ("HTTP error: " +:+ text)
               ∨ e = A2AClientError ("Request failed: " +:+ text)
  end.
Proof.
  cbv zeta.
  destruct (_ensure_agent_card resolved agent_card) as [c r] eqn:Hensure.
  cbn [snd]. destruct r as [[]|e].
  - assert (∃ card, c = Some card) as [card ->].
    { unfold _ensure_agent_card in Hensure.
      destruct agent_card; [simplify_eq; by eexists|].
      destruct resolved; simplify_eq. by eexists. }
    rewrite (_make_request_posted _ _ _ _ _ _ card) by by rewrite Hensure.
    cbn [fst snd]. split; [by eexists|]. split; [done|].
    intros e.
    destruct (post _) as [result|status_code text|e'].
    + destruct (read_result lib result); [done|].
      intros [= <-]. eexists. by right.
    + intros [= <-]. eexists. by left.
    + intros [= <-]. eexists. by right.
  - unfold _make_request. rewrite Hensure.
    unfold _ensure_agent_card in Hensure.
    destruct agent_card; [done|]. destruct resolved; by simplify_eq.
Qed.

(** X26.  A request of the client to an agent of this code base never
    returns.  When the agent is an [A2AServer], whatever the method, the
    parameters and the tasks the server holds, [_make_request] raises
    [A2AClientError] with the JSON-RPC error of the server wrapped twice:
    "Request failed: JSON-RPC error: <message> (code: <code>)". *)
Theorem request_to_a2a_server_fails slib accept m resolved post uuid4 method
    params agent_card :
  reads_error_objects lib →
  served_by slib accept m post →
  is_Some (_ensure_agent_card resolved agent_card).1 →
  ∃ request_id code message,
    (handle_jsonrpc slib
       {| req_json := Some (_build_jsonrpc_request method params uuid4);
          req_accept := accept |} m).2
    = _error_response request_id code message
    ∧ (_make_request lib resolved post uuid4 method params agent_card).2
      = Raise (A2AClientError
                 ("Request failed: JSON-RPC error: " +:+ message
                    +:+ " (code: " +:+ py_str_int code +:+ ")")).
Proof.
  intros Hlib [Haccept Hpost] [card Hcard].
  destruct (ServerFacts.handle_jsonrpc_without_accept slib
              {| req_json := Some (_build_jsonrpc_request method params uuid4);
                 req_accept := accept |} m Haccept)
    as (request_id & code & message & Hresponse).
  exists request_id, code, message. split; [done|].
  rewrite (_make_request_posted _ _ _ _ _ _ card Hcard). cbn [snd].
  rewrite (Hpost _ _ Hresponse).
  unfold read_result. cbn. by rewrite Hlib.
Qed.

End Client.

Lemma request_to_a2a_server_fails_witness :
  (_make_request Samples.error_objects (Ok tt)
     (Samples.a2a_server Samples.m_completed) "5a4d" "tasks/get"
     (Samples.id_params "t1") None).2
  = Raise (A2AClientError
             "Request failed: JSON-RPC error: Internal error: name 'BaseModel' is not defined (code: -32603)").
Proof.
  destruct (request_to_a2a_server_fails Samples.error_objects Samples.strict
              None Samples.m_completed (Ok tt)
              (Samples.a2a_server Samples.m_completed) "5a4d" "tasks/get"
              (Samples.id_params "t1") None)
    as (request_id & code & message & Hresponse & ->).
  - by intros code message.
  - split; [done|]. intros request_data content Hcontent.
    unfold Samples.a2a_server. by rewrite Hcontent.
  - by eexists.
  - vm_compute in Hresponse. by simplify_eq.
Defined.

End RequestFacts.
